(** * minisource/gateway: the proxy, the rate limiter, the circuit breaker
      and the authenticator, embedded and checked against their specification.

    Conventions of the embedding:
    - Go strings are byte strings: [string] of [ascii].
    - [int], [int64] and [uint32] values are [Z]; the wrap-around is
      written out where a counter or a parameter is computed with.
    - [time.Time] is a count of nanoseconds since the epoch ([Z]).
    - [float64] values of the token bucket are exact rationals ([Q]); the
      rounding of the machine format is outside this model.
    - [fiber.Ctx] is a record of request, response and locals; a middleware
      takes the rest of the chain ([c.Next]) as a function. *)

From Stdlib Require Import ZArith QArith Qround Lqa Ascii.
From stdpp Require Import base option list strings gmap pretty.

Local Open Scope Z_scope.

(** ** Go's [strings] package, on byte strings *)

Module Strings.

(** [strings.HasPrefix(s, prefix)] *)
Fixpoint HasPrefix (s prefix : string) : bool :=
  match prefix, s with
  | EmptyString, _ => true
  | String p prefix', String c s' =>
      if Ascii.eqb p c then HasPrefix s' prefix' else false
  | String _ _, EmptyString => false
  end.

(** [s[len(prefix):]], only used under [HasPrefix] *)
Fixpoint drop_bytes (n : nat) (s : string) : string :=
  match n, s with
  | O, _ => s
  | S n', String _ s' => drop_bytes n' s'
  | S _, EmptyString => EmptyString
  end.

(** [strings.TrimPrefix(s, prefix)] *)
Definition TrimPrefix (s prefix : string) : string :=
  if HasPrefix s prefix then drop_bytes (String.length prefix) s else s.

Definition is_upper (c : ascii) : bool :=
  let n := N_of_ascii c in ((65 <=? n) && (n <=? 90))%N.

Definition is_lower (c : ascii) : bool :=
  let n := N_of_ascii c in ((97 <=? n) && (n <=? 122))%N.

Definition lower_byte (c : ascii) : ascii :=
  if is_upper c then ascii_of_N (N_of_ascii c + 32) else c.

Definition upper_byte (c : ascii) : ascii :=
  if is_lower c then ascii_of_N (N_of_ascii c - 32) else c.

(** [strings.ToLower], on ASCII *)
Fixpoint ToLower (s : string) : string :=
  match s with
  | EmptyString => EmptyString
  | String c s' => String (lower_byte c) (ToLower s')
  end.

(** [strings.EqualFold], on ASCII *)
Definition EqualFold (s t : string) : bool :=
  String.eqb (ToLower s) (ToLower t).

(** [s == ""] *)
Definition is_empty (s : string) : bool :=
  match s with EmptyString => true | _ => false end.

(** [strings.ToUpper], on ASCII *)
Fixpoint ToUpper (s : string) : string :=
  match s with
  | EmptyString => EmptyString
  | String c s' => String (upper_byte c) (ToUpper s')
  end.

(** [strings.Split(s, sep)] for a separator of one byte: the pieces between
    the separators, at least one *)
Fixpoint Split (s : string) (sep : ascii) : list string :=
  match s with
  | EmptyString => [EmptyString]
  | String c s' =>
      if Ascii.eqb c sep then EmptyString :: Split s' sep
      else match Split s' sep with
           | piece :: rest => String c piece :: rest
           | [] => [String c EmptyString]
           end
  end.

End Strings.

(** ** Header names: [net/http.CanonicalHeaderKey] *)

Module Textproto.
Import Strings.

(** the token bytes of a header field name *)
Definition validHeaderFieldByte (c : ascii) : bool :=
  let n := N_of_ascii c in
  (((48 <=? n) && (n <=? 57)) || is_lower c || is_upper c
   || existsb (N.eqb n) [33; 35; 36; 37; 38; 39; 42; 43; 45; 46; 94; 95; 96; 124; 126])%N.

Definition is_dash (c : ascii) : bool := Ascii.eqb c "-"%char.

(** the canonicalising loop: upper case at the start and after each dash,
    lower case elsewhere *)
Fixpoint canonical (upper : bool) (a : string) : string :=
  match a with
  | EmptyString => EmptyString
  | String c a' =>
      let c' := if upper then upper_byte c else lower_byte c in
      String c' (canonical (is_dash c') a')
  end.

Fixpoint all_valid (s : string) : bool :=
  match s with
  | EmptyString => true
  | String c s' => validHeaderFieldByte c && all_valid s'
  end.

(** A key holding a byte that is no token byte is returned unchanged. *)
Definition CanonicalHeaderKey (s : string) : string :=
  if all_valid s then canonical true s else s.

End Textproto.

(** ** Header collections of fasthttp *)

Module Header.
Import Strings.

Definition t := list (string * string).

(** keys are compared ignoring case: fasthttp normalises both sides *)
Definition same_key (k1 k2 : string) : bool := EqualFold k1 k2.

(** [Header.Peek(key)]: the first value stored under the key, or [""] *)
Fixpoint Peek (h : t) (key : string) : string :=
  match h with
  | [] => EmptyString
  | (k, v) :: h' => if same_key k key then v else Peek h' key
  end.

(** [Header.Set(key, value)]: overwrite the first entry of the key, or
    append a new one *)
Fixpoint Set_ (h : t) (key value : string) : t :=
  match h with
  | [] => [(key, value)]
  | (k, v) :: h' =>
      if same_key k key then (k, value) :: h' else (k, v) :: Set_ h' key value
  end.

Definition keys (h : t) : list string := map fst h.

End Header.

(** ** The configuration records (package [config]) *)

Record RouteLimit := {
  RL_RequestsPerSec : Z;
  RL_BurstSize : Z
}.

Record RetryConfig := {
  MaxAttempts : Z;
  WaitTime : string
}.

Record Route := {
  Path : string;
  Service : string;
  StripPrefix : bool;
  Methods : list string;
  Public : bool;
  RateLimit : option RouteLimit;
  Timeout : string;
  CircuitBreaker : bool;
  Retry : option RetryConfig
}.

Record RateLimitConfig := {
  RateLimit_Enabled : bool;
  RequestsPerSec : Z;
  BurstSize : Z;
  CleanupInterval : Z
}.

Record CircuitConfig := {
  Circuit_Enabled : bool;
  MaxRequests : Z;
  Interval : Z;
  Circuit_Timeout : Z;
  FailureThreshold : Z
}.

(** ** The request context ([fiber.Ctx]) *)

(** Identity payload of the bearer token; [ExpiresAt] and [NotBefore] are
    the registered claims the JWT library validates. *)
Record Claims := {
  UserID : string;
  TenantID : string;
  Email : string;
  Roles : list string;
  ExpiresAt : option Z;
  NotBefore : option Z
}.

(** values of [fiber.Map] *)
Inductive JValue :=
| JStr (s : string)
| JInt (n : Z).

Inductive Body :=
| JSON (fields : list (string * JValue))
| Raw (bytes : string).

Record Request := {
  Method : string;
  ReqPath : string;
  QueryString : string;
  Host : string;
  ReqHeader : Header.t;
  ReqBody : string;
  IP : string;
  Protocol : string
}.

Record Response := {
  StatusCode : Z;
  RespHeader : Header.t;
  RespBody : Body
}.

(** what [c.Locals(key)] may hold; a type assertion picks one constructor *)
Inductive Local :=
| LBool (b : bool)
| LString (s : string)
| LRoute (r : Route)
| LClaims (cl : Claims).

Record Ctx := {
  Req : Request;
  Resp : Response;
  Locals : gmap string Local
}.

(** ** Errors and the rest of the chain *)

(** the error values the middlewares tell apart *)
Inductive error :=
| ErrOpenState
| ErrTooManyRequests
| FiberError (code : Z) (message : string)
| OtherError (message : string).

(** a [fiber.Handler]: the context it leaves and the error it returns *)
Definition Handler := Ctx -> Ctx * option error.

(** a call either returns or ends in a runtime panic *)
Inductive Outcome (A : Type) :=
| Returns (a : A)
| Panics.
Arguments Returns {A} a.
Arguments Panics {A}.

Module Fiber.

Definition StatusUnauthorized : Z := 401.
Definition StatusTooManyRequests : Z := 429.
Definition StatusBadGateway : Z := 502.
Definition StatusServiceUnavailable : Z := 503.

Definition with_resp (c : Ctx) (r : Response) : Ctx :=
  {| Req := Req c; Resp := r; Locals := Locals c |}.

Definition with_req_header (c : Ctx) (h : Header.t) : Ctx :=
  let r := Req c in
  {| Req := {| Method := Method r; ReqPath := ReqPath r;
               QueryString := QueryString r; Host := Host r;
               ReqHeader := h; ReqBody := ReqBody r; IP := IP r;
               Protocol := Protocol r |};
     Resp := Resp c; Locals := Locals c |}.

(** [c.Status(code)] *)
Definition Status (c : Ctx) (code : Z) : Ctx :=
  with_resp c {| StatusCode := code; RespHeader := RespHeader (Resp c);
                 RespBody := RespBody (Resp c) |}.

(** [c.Set(key, value)]: a response header *)
Definition Set_ (c : Ctx) (key value : string) : Ctx :=
  with_resp c {| StatusCode := StatusCode (Resp c);
                 RespHeader := Header.Set_ (RespHeader (Resp c)) key value;
                 RespBody := RespBody (Resp c) |}.

(** [c.Send(body)] *)
Definition Send (c : Ctx) (body : string) : Ctx :=
  with_resp c {| StatusCode := StatusCode (Resp c);
                 RespHeader := RespHeader (Resp c);
                 RespBody := Raw body |}.

(** [c.JSON(map)]: the body and its content type *)
Definition JSON_ (c : Ctx) (fields : list (string * JValue)) : Ctx :=
  with_resp c {| StatusCode := StatusCode (Resp c);
                 RespHeader := Header.Set_ (RespHeader (Resp c))
                                 "Content-Type" "application/json";
                 RespBody := JSON fields |}.

(** [c.Get(key)]: a request header, [""] when absent *)
Definition Get (c : Ctx) (key : string) : string :=
  Header.Peek (ReqHeader (Req c)) key.

(** [c.GetRespHeader(key)] *)
Definition GetRespHeader (c : Ctx) (key : string) : string :=
  Header.Peek (RespHeader (Resp c)) key.

(** [c.Locals(key, value)] *)
Definition SetLocal (c : Ctx) (key : string) (v : Local) : Ctx :=
  {| Req := Req c; Resp := Resp c; Locals := <[key := v]> (Locals c) |}.

(** [c.Request().Header.Set(key, value)] *)
Definition SetReqHeader (c : Ctx) (key value : string) : Ctx :=
  with_req_header c (Header.Set_ (ReqHeader (Req c)) key value).

End Fiber.

(** ** The reverse proxy (package [proxy]) *)

Module Proxy.
Import Strings.

(** the upstream request and response of fasthttp *)
Record UpstreamRequest := {
  RequestURI : string;
  UpMethod : string;
  UpHeader : Header.t;
  UpBody : string
}.

Record UpstreamResponse := {
  UpStatusCode : Z;
  UpRespHeader : Header.t;
  UpRespBody : string
}.

(** [Client.Do] either fails with a transport error or yields a response *)
Record ServiceClient := {
  Name : string;
  URL : string;
  Client : UpstreamRequest -> string + UpstreamResponse;
  HealthPath : string;
  Healthy : bool;
  LastCheck : Z
}.

(** [ServiceProxy.services] *)
Abbreviation ServiceProxy := (gmap string ServiceClient).

Definition GetService (p : ServiceProxy) (name : string) : option ServiceClient :=
  p !! name.

Definition hopByHopHeaders : gmap string bool :=
  <["Connection" := true]> (
  <["Keep-Alive" := true]> (
  <["Proxy-Authenticate" := true]> (
  <["Proxy-Authorization" := true]> (
  <["Te" := true]> (
  <["Trailers" := true]> (
  <["Transfer-Encoding" := true]> (
  <["Upgrade" := true]> ∅))))))).

(** a Go map read yields the zero value for an absent key *)
Definition isHopByHopHeader (header : string) : bool :=
  default false (hopByHopHeaders !! Textproto.CanonicalHeaderKey header).

(** [Forward], "Build target URL" *)
Definition targetPath (path stripPrefix : string) : string :=
  if negb (is_empty stripPrefix) then
    let path := TrimPrefix path stripPrefix in
    if is_empty path then "/" else path
  else path.

Definition targetURL (svc : ServiceClient) (c : Ctx) (stripPrefix : string) : string :=
  let path := targetPath (ReqPath (Req c)) stripPrefix in
  let queryString := QueryString (Req c) in
  let targetURL := URL svc +:+ path in
  if negb (is_empty queryString) then targetURL +:+ "?" +:+ queryString
  else targetURL.

(** [Header.VisitAll] with the closure of "Copy headers": hop-by-hop keys
    are skipped, the others are set on the destination *)
Definition copyHeaders (src dst : Header.t) : Header.t :=
  fold_left (fun acc kv =>
               if isHopByHopHeader (fst kv) then acc
               else Header.Set_ acc (fst kv) (snd kv)) src dst.

(** [Forward], from "Build target URL" to "Copy body": the request that is
    handed to the service's client *)
Definition upstreamRequest (svc : ServiceClient) (c : Ctx) (stripPrefix : string)
  : UpstreamRequest :=
  let h := copyHeaders (ReqHeader (Req c)) [] in
  let h := Header.Set_ h "X-Forwarded-For" (IP (Req c)) in
  let h := Header.Set_ h "X-Forwarded-Host" (Host (Req c)) in
  let h := Header.Set_ h "X-Forwarded-Proto" (Protocol (Req c)) in
  let h := Header.Set_ h "X-Real-IP" (IP (Req c)) in
  let h := Header.Set_ h "X-Request-ID" (Fiber.GetRespHeader c "X-Request-ID") in
  {| RequestURI := targetURL svc c stripPrefix;
     UpMethod := Method (Req c);
     UpHeader := h;
     UpBody := ReqBody (Req c) |}.

(** [Forward], "Copy response headers" and "Copy response" *)
Definition copyResponse (c : Ctx) (resp : UpstreamResponse) : Ctx :=
  let h := copyHeaders (UpRespHeader resp) (RespHeader (Resp c)) in
  let c := Fiber.with_resp c {| StatusCode := StatusCode (Resp c);
                                RespHeader := h;
                                RespBody := RespBody (Resp c) |} in
  Fiber.Send (Fiber.Status c (UpStatusCode resp)) (UpRespBody resp).

Definition Forward (p : ServiceProxy) (c : Ctx) (serviceName stripPrefix : string) : Ctx :=
  match GetService p serviceName with
  | None =>
      Fiber.JSON_ (Fiber.Status c Fiber.StatusBadGateway)
        [("error", JStr ("service " +:+ serviceName +:+ " not found"))]
  | Some svc =>
      if negb (Healthy svc) then
        Fiber.JSON_ (Fiber.Status c Fiber.StatusServiceUnavailable)
          [("error", JStr ("service " +:+ serviceName +:+ " is unavailable"))]
      else
        match Client svc (upstreamRequest svc c stripPrefix) with
        | inl err =>
            Fiber.JSON_ (Fiber.Status c Fiber.StatusBadGateway)
              [("error", JStr "upstream request failed"); ("details", JStr err)]
        | inr resp => copyResponse c resp
        end
  end.

(** [Router.createProxyHandler] (package [router]); the error of
    [Forward] is always [nil] *)
Definition createProxyHandler (p : ServiceProxy) (route : Route) : Handler :=
  fun c =>
    let c := Fiber.SetLocal c "route" (LRoute route) in
    let c := Fiber.SetLocal c "isPublic" (LBool (Public route)) in
    let c := Fiber.SetLocal c "service" (LString (Service route)) in
    let stripPrefix := if StripPrefix route then Path route else "" in
    (Forward p c (Service route) stripPrefix, None).

(** [setServiceHealth]; the clock reading is an argument *)
Definition setServiceHealth (p : ServiceProxy) (name : string) (healthy : bool)
    (now : Z) : ServiceProxy :=
  match p !! name with
  | Some svc =>
      <[name := {| Name := Name svc; URL := URL svc; Client := Client svc;
                   HealthPath := HealthPath svc; Healthy := healthy;
                   LastCheck := now |}]> p
  | None => p
  end.

(** the probe of [HealthCheck]: [GET base_url + health_path] *)
Definition healthRequest (svc : ServiceClient) : UpstreamRequest :=
  {| RequestURI := URL svc +:+ HealthPath svc; UpMethod := "GET";
     UpHeader := []; UpBody := "" |}.

(** [HealthCheck]; a probe that runs into its deadline is a transport error
    of the client *)
Definition HealthCheck (p : ServiceProxy) (serviceName : string) (now : Z)
  : ServiceProxy * bool :=
  match GetService p serviceName with
  | None => (p, false)
  | Some svc =>
      match Client svc (healthRequest svc) with
      | inl err => (setServiceHealth p serviceName false now, false)
      | inr resp =>
          let healthy := (200 <=? UpStatusCode resp) && (UpStatusCode resp <? 300) in
          (setServiceHealth p serviceName healthy now, healthy)
      end
  end.

(** [GetServicesHealth] *)
Definition GetServicesHealth (p : ServiceProxy) : gmap string bool :=
  Healthy <$> p.

End Proxy.

(** ** Package [time] *)

Module Time.

Definition Second : Z := 1000000000.

(** [t.Add(d)] *)
Definition Add (t d : Z) : Z := t + d.

(** [t.Sub(u)] *)
Definition Sub (t u : Z) : Z := t - u.

(** [d.Seconds()] *)
Definition Seconds (d : Z) : Q := Qmake d 1000000000.

(** [t.Unix()]: whole seconds since the epoch, rounded down *)
Definition Unix (t : Z) : Z := t / Second.

(** [t.Before(u)] *)
Definition Before (t u : Z) : bool := t <? u.

End Time.

(** ** The rate limiter (middleware/ratelimit.go) *)

Module RateLimit.

Record rateBucket := {
  tokens : Q;
  lastCheck : Z
}.

(** [LocalLimiter.requests] *)
Abbreviation Buckets := (gmap string rateBucket).

(** Go's [int] is 64 bits wide *)
Definition wrap_int (z : Z) : Z := (z + 2 ^ 63) mod 2 ^ 64 - 2 ^ 63.

Definition int_sub (a b : Z) : Z := wrap_int (a - b).

(** [float64(n)] *)
Definition float64 (n : Z) : Q := inject_Z n.

(** [int(f)]: the fraction is discarded *)
Definition int_of_float (f : Q) : Z := Z.quot (Qnum f) (Z.pos (Qden f)).

Definition Qltb (a b : Q) : bool := negb (Qle_bool b a).

Definition min (a b : Q) : Q := if Qltb a b then a else b.

(** [LocalLimiter.allow]; the clock reading [now] is an argument.  The
    bucket is updated through a pointer, so the update precedes a panic of
    the denial branch. *)
Definition allow (requests : Buckets) (now : Z) (key : string) (rps burst : Z)
  : Buckets * Outcome (bool * Z * Z) :=
  match requests !! key with
  | None =>
      (<[key := {| tokens := float64 (int_sub burst 1); lastCheck := now |}]> requests,
       Returns (true, int_sub burst 1, Time.Unix (Time.Add now Time.Second)))
  | Some bucket =>
      let elapsed := Time.Seconds (Time.Sub now (lastCheck bucket)) in
      let refilled := min (float64 burst) (tokens bucket + elapsed * float64 rps)%Q in
      if Qle_bool 1 refilled then
        let left := (refilled - 1)%Q in
        (<[key := {| tokens := left; lastCheck := now |}]> requests,
         Returns (true, int_of_float left, Time.Unix (Time.Add now Time.Second)))
      else
        let requests := <[key := {| tokens := refilled; lastCheck := now |}]> requests in
        if rps =? 0 then (requests, Panics)
        else (requests,
              Returns (false, 0, Time.Unix (Time.Add now (Z.quot Time.Second rps))))
  end.

(** the token-bucket script that [redisAllow] sends to the shared store, on
    a store of hashes with the fields [tokens] and [last]; the clock is in
    whole seconds.  Numbers of the script are exact rationals here, the
    expiry of idle keys is left out, and the third result is [None] for a
    rate of zero, where the script divides by zero. *)
Definition script (store : gmap string rateBucket) (key : string)
    (rate burst now : Z) : gmap string rateBucket * (Z * Z * option Q) :=
  let data := store !! key in
  let tokens := from_option tokens (inject_Z burst) data in
  let last := from_option lastCheck now data in
  let elapsed := now - last in
  let tokens := min (inject_Z burst) (tokens + inject_Z elapsed * inject_Z rate)%Q in
  let '(tokens, allowed) :=
    if Qle_bool 1 tokens then ((tokens - 1)%Q, 1) else (tokens, 0) in
  (<[key := {| tokens := tokens; lastCheck := now |}]> store,
   (allowed, Qfloor tokens,
    if rate =? 0 then None else Some (inject_Z now + 1 / inject_Z rate)%Q)).

(** the outcome of running the token-bucket script on the shared store:
    [None] is an error of the call *)
Definition RedisClient := string -> Z -> Z -> Z -> option (list Z).

Record RateLimiter := {
  redis : option RedisClient;
  cfg : RateLimitConfig;
  local : Buckets
}.

(** [useRedis: redisClient != nil] *)
Definition useRedis (rl : RateLimiter) : bool :=
  match redis rl with Some _ => true | None => false end.

Definition with_local (rl : RateLimiter) (b : Buckets) : RateLimiter :=
  {| redis := redis rl; cfg := cfg rl; local := b |}.

Definition local_allow (rl : RateLimiter) (now : Z) (key : string) (rps burst : Z)
  : RateLimiter * Outcome (bool * Z * Z) :=
  let '(b, out) := allow (local rl) now key rps burst in (with_local rl b, out).

(** [RateLimiter.redisAllow] *)
Definition redisAllow (run : RedisClient) (rl : RateLimiter) (now : Z)
    (key : string) (rps burst : Z) : RateLimiter * Outcome (bool * Z * Z) :=
  match run key rps burst (Time.Unix now) with
  | None => local_allow rl now key rps burst
  | Some result =>
      match result !! 0%nat, result !! 1%nat, result !! 2%nat with
      | Some r0, Some r1, Some r2 => (rl, Returns (r0 =? 1, r1, r2))
      | _, _, _ => (rl, Panics)
      end
  end.

(** [RateLimiter.allow] *)
Definition limiter_allow (rl : RateLimiter) (now : Z) (key : string) (rps burst : Z)
  : RateLimiter * Outcome (bool * Z * Z) :=
  match redis rl with
  | Some run => redisAllow run rl now key rps burst
  | None => local_allow rl now key rps burst
  end.

(** the [%s] verb on the value of a local; the repository stores strings
    under [user_id], the other cases are rendered schematically *)
Definition sprint (v : Local) : string :=
  match v with
  | LString s => s
  | LBool b => "%!s(bool=" +:+ (if b then "true" else "false") +:+ ")"
  | LRoute r => "{" +:+ Path r +:+ "}"
  | LClaims cl => "&{" +:+ UserID cl +:+ "}"
  end.

(** [RateLimiter.createKey] *)
Definition createKey (c : Ctx) : string :=
  match Locals c !! "user_id" with
  | Some userID => "ratelimit:" +:+ sprint userID +:+ ":" +:+ ReqPath (Req c)
  | None => "ratelimit:ip:" +:+ IP (Req c) +:+ ":" +:+ ReqPath (Req c)
  end.

(** "Get rate limit config (use route-specific if available)" *)
Definition limits (rl : RateLimiter) (c : Ctx) : Z * Z :=
  match Locals c !! "route" with
  | Some (LRoute route) =>
      match RateLimit route with
      | Some l => (RL_RequestsPerSec l, RL_BurstSize l)
      | None => (RequestsPerSec (cfg rl), BurstSize (cfg rl))
      end
  | _ => (RequestsPerSec (cfg rl), BurstSize (cfg rl))
  end.

(** the reply of [Middleware] to a request that is not allowed *)
Definition tooManyRequests (c : Ctx) (resetTime now : Z) : Ctx * option error :=
  (Fiber.JSON_ (Fiber.Status c Fiber.StatusTooManyRequests)
     [("error", JStr "rate_limit_exceeded");
      ("message", JStr "Too many requests, please try again later");
      ("retry_after", JInt (resetTime - Time.Unix now))],
   None).

(** [RateLimiter.Middleware] *)
Definition Middleware (rl : RateLimiter) (next : Handler) (c : Ctx) (now : Z)
  : RateLimiter * Outcome (Ctx * option error) :=
  if negb (RateLimit_Enabled (cfg rl)) then (rl, Returns (next c))
  else
    let '(rps, burst) := limits rl c in
    let key := createKey c in
    match limiter_allow rl now key rps burst with
    | (rl, Panics) => (rl, Panics)
    | (rl, Returns (allowed, remaining, resetTime)) =>
        let c := Fiber.Set_ c "X-RateLimit-Limit" (pretty rps) in
        let c := Fiber.Set_ c "X-RateLimit-Remaining" (pretty remaining) in
        let c := Fiber.Set_ c "X-RateLimit-Reset" (pretty resetTime) in
        if negb allowed then (rl, Returns (tooManyRequests c resetTime now))
        else (rl, Returns (next c))
    end.

(** [LocalLimiter.cleanup], one tick of its ticker at the clock reading
    [now]: the buckets last checked before [now - interval] are deleted *)
Definition cleanup (requests : Buckets) (interval now : Z) : Buckets :=
  let threshold := Time.Add now (- interval) in
  filter (fun kv => Time.Before (lastCheck kv.2) threshold = false) requests.

End RateLimit.

(** ** The breaker library (sony/gobreaker), as the manager uses it *)

Module Gobreaker.

Inductive State := StateClosed | StateHalfOpen | StateOpen.

(** [State.String] *)
Definition State_String (s : State) : string :=
  match s with
  | StateClosed => "closed"
  | StateHalfOpen => "half-open"
  | StateOpen => "open"
  end.

Record Counts := {
  Requests : Z;
  TotalSuccesses : Z;
  TotalFailures : Z;
  ConsecutiveSuccesses : Z;
  ConsecutiveFailures : Z
}.

(** [x++] on a [uint32] *)
Definition incr (x : Z) : Z := (x + 1) mod 2 ^ 32.

Definition clear : Counts :=
  {| Requests := 0; TotalSuccesses := 0; TotalFailures := 0;
     ConsecutiveSuccesses := 0; ConsecutiveFailures := 0 |}.

Definition onRequest (c : Counts) : Counts :=
  {| Requests := incr (Requests c); TotalSuccesses := TotalSuccesses c;
     TotalFailures := TotalFailures c;
     ConsecutiveSuccesses := ConsecutiveSuccesses c;
     ConsecutiveFailures := ConsecutiveFailures c |}.

Definition onSuccess (c : Counts) : Counts :=
  {| Requests := Requests c; TotalSuccesses := incr (TotalSuccesses c);
     TotalFailures := TotalFailures c;
     ConsecutiveSuccesses := incr (ConsecutiveSuccesses c);
     ConsecutiveFailures := 0 |}.

Definition onFailure (c : Counts) : Counts :=
  {| Requests := Requests c; TotalSuccesses := TotalSuccesses c;
     TotalFailures := incr (TotalFailures c);
     ConsecutiveSuccesses := 0;
     ConsecutiveFailures := incr (ConsecutiveFailures c) |}.

Record Settings := {
  S_Name : string;
  S_MaxRequests : Z;
  S_Interval : Z;
  S_Timeout : Z;
  S_ReadyToTrip : Counts -> bool
}.

(** [gobreaker.Breaker]; [expiry] is [None] for the zero time *)
Record Breaker := {
  name : string;
  maxRequests : Z;
  interval : Z;
  timeout : Z;
  readyToTrip : Counts -> bool;
  state : State;
  generation : Z;
  counts : Counts;
  expiry : option Z
}.

Definition State_eqb (a b : State) : bool :=
  match a, b with
  | StateClosed, StateClosed | StateHalfOpen, StateHalfOpen
  | StateOpen, StateOpen => true
  | _, _ => false
  end.

(** [toNewGeneration], entered with the state already assigned *)
Definition toNewGeneration (cb : Breaker) (st : State) (now : Z) : Breaker :=
  {| name := name cb; maxRequests := maxRequests cb; interval := interval cb;
     timeout := timeout cb; readyToTrip := readyToTrip cb;
     state := st;
     generation := (generation cb + 1) mod 2 ^ 64;
     counts := clear;
     expiry := match st with
               | StateClosed =>
                   if interval cb =? 0 then None
                   else Some (Time.Add now (interval cb))
               | StateOpen => Some (Time.Add now (timeout cb))
               | StateHalfOpen => None
               end |}.

Definition setState (cb : Breaker) (st : State) (now : Z) : Breaker :=
  if State_eqb (state cb) st then cb else toNewGeneration cb st now.

Definition with_counts (cb : Breaker) (c : Counts) : Breaker :=
  {| name := name cb; maxRequests := maxRequests cb; interval := interval cb;
     timeout := timeout cb; readyToTrip := readyToTrip cb;
     state := state cb; generation := generation cb; counts := c;
     expiry := expiry cb |}.

Definition defaultTimeout : Z := 60 * Time.Second.

Definition NewCircuitBreaker (st : Settings) (now : Z) : Breaker :=
  toNewGeneration
    {| name := S_Name st;
       maxRequests := if S_MaxRequests st =? 0 then 1 else S_MaxRequests st;
       interval := if S_Interval st <=? 0 then 0 else S_Interval st;
       timeout := if S_Timeout st <=? 0 then defaultTimeout else S_Timeout st;
       readyToTrip := S_ReadyToTrip st;
       state := StateClosed; generation := 0; counts := clear;
       expiry := None |}
    StateClosed now.

(** the zero time precedes every clock reading *)
Definition expired (e : option Z) (now : Z) : bool :=
  match e with
  | None => true
  | Some t => Time.Before t now
  end.

Definition currentState (cb : Breaker) (now : Z) : Breaker :=
  match state cb with
  | StateClosed =>
      match expiry cb with
      | Some t => if Time.Before t now then toNewGeneration cb StateClosed now else cb
      | None => cb
      end
  | StateOpen => if expired (expiry cb) now then setState cb StateHalfOpen now else cb
  | StateHalfOpen => cb
  end.

(** [beforeRequest]: an error, or the generation the request belongs to *)
Definition beforeRequest (cb : Breaker) (now : Z) : Breaker * (error + Z) :=
  let cb := currentState cb now in
  match state cb with
  | StateOpen => (cb, inl ErrOpenState)
  | StateHalfOpen =>
      if maxRequests cb <=? Requests (counts cb) then (cb, inl ErrTooManyRequests)
      else (with_counts cb (onRequest (counts cb)), inr (generation cb))
  | StateClosed => (with_counts cb (onRequest (counts cb)), inr (generation cb))
  end.

Definition breaker_onSuccess (cb : Breaker) (now : Z) : Breaker :=
  match state cb with
  | StateClosed => with_counts cb (onSuccess (counts cb))
  | StateHalfOpen =>
      let cb := with_counts cb (onSuccess (counts cb)) in
      if maxRequests cb <=? ConsecutiveSuccesses (counts cb)
      then setState cb StateClosed now else cb
  | StateOpen => cb
  end.

Definition breaker_onFailure (cb : Breaker) (now : Z) : Breaker :=
  match state cb with
  | StateClosed =>
      let cb := with_counts cb (onFailure (counts cb)) in
      if readyToTrip cb (counts cb) then setState cb StateOpen now else cb
  | StateHalfOpen => setState cb StateOpen now
  | StateOpen => cb
  end.

Definition afterRequest (cb : Breaker) (before : Z) (success : bool) (now : Z)
  : Breaker :=
  let cb := currentState cb now in
  if negb (generation cb =? before) then cb
  else if success then breaker_onSuccess cb now else breaker_onFailure cb now.

(** the default [IsSuccessful]: [err == nil] *)
Definition isSuccessful (err : option error) : bool :=
  match err with None => true | Some _ => false end.

(** [Execute]: [now] is the clock at admission, [done] the clock when the
    request function has returned.  The middle component is what the request
    function left behind, when it ran. *)
Definition Execute {A : Type} (cb : Breaker) (now done : Z)
    (req : unit -> A * option error) : Breaker * option A * option error :=
  match beforeRequest cb now with
  | (cb, inl err) => (cb, None, Some err)
  | (cb, inr generation) =>
      let '(result, err) := req tt in
      (afterRequest cb generation (isSuccessful err) done, Some result, err)
  end.

End Gobreaker.

(** ** The breaker manager (middleware/circuit.go) *)

Module Circuit.
Import Strings.
Import Gobreaker.

Record CircuitBreakerManager := {
  breakers : gmap string Breaker;
  cfg : CircuitConfig
}.

(** the quotient of two [float64] conversions of [uint32] counters *)
Inductive ratio :=
| NaN
| PosInf
| Finite (q : Q).

Definition fdiv (a b : Z) : ratio :=
  if b =? 0 then (if a =? 0 then NaN else PosInf)
  else Finite (inject_Z a / inject_Z b).

(** [failureRatio >= 0.5] *)
Definition ge_half (r : ratio) : bool :=
  match r with
  | NaN => false
  | PosInf => true
  | Finite q => Qle_bool (1 # 2) q
  end.

(** the [ReadyToTrip] closure of [GetBreaker] *)
Definition ReadyToTrip (cfg : CircuitConfig) (counts : Counts) : bool :=
  let failureRatio := fdiv (TotalFailures counts) (Requests counts) in
  (FailureThreshold cfg <=? Requests counts) && ge_half failureRatio.

Definition settings (cfg : CircuitConfig) (serviceName : string) : Settings :=
  {| S_Name := serviceName;
     S_MaxRequests := MaxRequests cfg;
     S_Interval := Interval cfg;
     S_Timeout := Circuit_Timeout cfg;
     S_ReadyToTrip := ReadyToTrip cfg |}.

(** [GetBreaker]: the breaker of a service, created on first use *)
Definition GetBreaker (m : CircuitBreakerManager) (serviceName : string) (now : Z)
  : CircuitBreakerManager * Breaker :=
  match breakers m !! serviceName with
  | Some cb => (m, cb)
  | None =>
      let cb := NewCircuitBreaker (settings (cfg m) serviceName) now in
      ({| breakers := <[serviceName := cb]> (breakers m); cfg := cfg m |}, cb)
  end.

(** [cb.State()]: the state at the clock reading, which the breaker takes
    on as it is read *)
Definition State_ (cb : Breaker) (now : Z) : Breaker * State :=
  let cb := currentState cb now in (cb, state cb).

(** [GetState] *)
Definition GetState (m : CircuitBreakerManager) (serviceName : string) (now : Z)
  : CircuitBreakerManager * State :=
  match breakers m !! serviceName with
  | Some cb =>
      let '(cb, st) := State_ cb now in
      ({| breakers := <[serviceName := cb]> (breakers m); cfg := cfg m |}, st)
  | None => (m, StateClosed)
  end.

(** [GetAllStates] *)
Definition GetAllStates (m : CircuitBreakerManager) (now : Z)
  : CircuitBreakerManager * gmap string string :=
  let read := (fun cb => State_ cb now) <$> breakers m in
  ({| breakers := fst <$> read; cfg := cfg m |},
   (fun r => State_String (snd r)) <$> read).

(** the guards of [Middleware]: the service whose breaker takes the call,
    or [None] when the middleware goes straight to [c.Next()] *)
Definition guarded (m : CircuitBreakerManager) (c : Ctx) : option string :=
  if negb (Circuit_Enabled (cfg m)) then None
  else
    match Locals c !! "service" with
    | Some (LString serviceName) =>
        if is_empty serviceName || String.eqb serviceName "gateway" then None
        else
          match Locals c !! "route" with
          | Some (LRoute route) =>
              if negb (CircuitBreaker route) then None else Some serviceName
          | _ => Some serviceName
          end
    | _ => None
    end.

(** the function handed to [cb.Execute] *)
Definition request (next : Handler) (c : Ctx) (_ : unit) : Ctx * option error :=
  let '(c, err) := next c in
  let statusCode := StatusCode (Resp c) in
  if 500 <=? statusCode then (c, Some (FiberError statusCode "upstream error"))
  else (c, err).

Definition unavailable (c : Ctx) (kind message serviceName : string) : Ctx :=
  Fiber.JSON_ (Fiber.Status c Fiber.StatusServiceUnavailable)
    [("error", JStr kind); ("message", JStr message); ("service", JStr serviceName)].

(** [Middleware]; the breaker is shared through the map, so its new state
    is stored back under the service's name *)
Definition Middleware (m : CircuitBreakerManager) (next : Handler) (c : Ctx)
    (now done : Z) : CircuitBreakerManager * (Ctx * option error) :=
  match guarded m c with
  | None => (m, next c)
  | Some serviceName =>
      let '(m, cb) := GetBreaker m serviceName now in
      let '(cb, ran, err) := Execute cb now done (request next c) in
      let m := {| breakers := <[serviceName := cb]> (breakers m); cfg := cfg m |} in
      let c := default c ran in
      match err with
      | Some ErrOpenState =>
          (m, (unavailable c "service_unavailable"
                 "Service temporarily unavailable, please try again later"
                 serviceName, None))
      | Some ErrTooManyRequests =>
          (m, (unavailable c "too_many_requests"
                 "Service is recovering, please try again" serviceName, None))
      | _ => (m, (c, None))
      end
  end.

End Circuit.

(** ** The JWT library (golang-jwt), as [validateToken] uses it *)

Module Jwt.

(** [Token.Method]: the HMAC family, or any other signing method *)
Inductive SigningMethod :=
| SigningMethodHMAC (alg : string)
| SigningMethodOther (alg : string).

(** a token string taken apart: its header's method, its claims, and the
    check of its signature against a key *)
Record Unverified := {
  U_Method : SigningMethod;
  U_Claims : Claims;
  U_Verify : string -> bool
}.

Record Token := {
  Token_Method : SigningMethod;
  Token_Claims : Claims;
  Valid : bool
}.

(** the validator of the registered claims: an expiry must lie after the
    clock, a not-before time must not *)
Definition Validate (cl : Claims) (now : Z) : bool :=
  match ExpiresAt cl with
  | Some exp => Time.Before now exp
  | None => true
  end
  &&
  match NotBefore cl with
  | Some nbf => negb (Time.Before now nbf)
  | None => true
  end.

(** [jwt.ParseWithClaims]: decode, ask the key function for the key, verify
    the signature, validate the claims *)
Definition ParseWithClaims (decode : string -> option Unverified)
    (tokenString : string) (keyFunc : SigningMethod -> error + string) (now : Z)
  : error + Token :=
  match decode tokenString with
  | None => inl (OtherError "token is malformed")
  | Some u =>
      match keyFunc (U_Method u) with
      | inl err => inl (OtherError "token is unverifiable")
      | inr key =>
          if negb (U_Verify u key) then inl (OtherError "token signature is invalid")
          else if negb (Validate (U_Claims u) now)
               then inl (OtherError "token has invalid claims")
               else inr {| Token_Method := U_Method u;
                           Token_Claims := U_Claims u;
                           Valid := true |}
      end
  end.

End Jwt.

(** ** The authenticator (middleware/auth.go) *)

Module Auth.
Import Strings.

Record AuthConfig := {
  JWTSecret : string;
  PublicPaths : gmap string (list string);
  HeaderName : string;
  TokenPrefix : string;
  ContextKey : string;
  SkipPrefixes : list string
}.

Definition DefaultAuthConfig (secret : string) : AuthConfig :=
  {| JWTSecret := secret;
     PublicPaths := ∅;
     HeaderName := "Authorization";
     TokenPrefix := "Bearer ";
     ContextKey := "user";
     SkipPrefixes := ["/health"; "/ready"; "/live"; "/metrics"] |}.

Section WithDecoder.

(** the decoding of a compact token string is the library's *)
Variable decode : string -> option Jwt.Unverified.

(** the key function of [validateToken] *)
Definition keyFunc (secret : string) (m : Jwt.SigningMethod) : error + string :=
  match m with
  | Jwt.SigningMethodHMAC _ => inr secret
  | Jwt.SigningMethodOther _ =>
      inl (FiberError Fiber.StatusUnauthorized "Invalid signing method")
  end.

Definition validateToken (tokenString secret : string) (now : Z) : error + Claims :=
  match Jwt.ParseWithClaims decode tokenString (keyFunc secret) now with
  | inl err => inl (FiberError Fiber.StatusUnauthorized "Invalid token")
  | inr token =>
      if negb (Jwt.Valid token)
      then inl (FiberError Fiber.StatusUnauthorized "Invalid token claims")
      else
        let claims := Jwt.Token_Claims token in
        match ExpiresAt claims with
        | Some exp =>
            if Time.Before exp now
            then inl (FiberError Fiber.StatusUnauthorized "Token expired")
            else inr claims
        | None => inr claims
        end
  end.

(** [err.Error()] *)
Definition Error (e : error) : string :=
  match e with
  | ErrOpenState => "circuit breaker is open"
  | ErrTooManyRequests => "too many requests"
  | FiberError _ message => message
  | OtherError message => message
  end.

Definition unauthorized (c : Ctx) (message : string) : Ctx * option error :=
  (Fiber.JSON_ (Fiber.Status c Fiber.StatusUnauthorized)
     [("error", JStr "unauthorized"); ("message", JStr message)], None).

(** "Skip prefixes (health, metrics, etc.)" *)
Definition skipped (cfg : AuthConfig) (path : string) : bool :=
  existsb (HasPrefix path) (SkipPrefixes cfg).

(** "Check if route is marked as public" *)
Definition markedPublic (c : Ctx) : bool :=
  match Locals c !! "isPublic" with
  | Some (LBool isPublic) => isPublic
  | _ => false
  end.

(** "Check public paths" *)
Definition publicPath (cfg : AuthConfig) (path method : string) : bool :=
  match PublicPaths cfg !! path with
  | Some methods => existsb (fun m => EqualFold m method) methods
  | None => false
  end.

(** [strings.Join(roles, ",")] *)
Fixpoint Join (elems : list string) (sep : string) : string :=
  match elems with
  | [] => ""
  | [e] => e
  | e :: rest => e +:+ sep +:+ Join rest sep
  end.

(** "Store claims in context" and "Add user info to headers" *)
Definition authenticated (cfg : AuthConfig) (c : Ctx) (claims : Claims) : Ctx :=
  let c := Fiber.SetLocal c (ContextKey cfg) (LClaims claims) in
  let c := Fiber.SetLocal c "user_id" (LString (UserID claims)) in
  let c := Fiber.SetLocal c "tenant_id" (LString (TenantID claims)) in
  let c := Fiber.SetReqHeader c "X-User-ID" (UserID claims) in
  let c := Fiber.SetReqHeader c "X-Tenant-ID" (TenantID claims) in
  let c := Fiber.SetReqHeader c "X-User-Email" (Email claims) in
  match Roles claims with
  | [] => c
  | _ :: _ => Fiber.SetReqHeader c "X-User-Roles" (Join (Roles claims) ",")
  end.

(** [Auth(cfg)] *)
Definition Auth (cfg : AuthConfig) (next : Handler) (c : Ctx) (now : Z)
  : Ctx * option error :=
  let path := ReqPath (Req c) in
  let method := Method (Req c) in
  if skipped cfg path then next c
  else if markedPublic c then next c
  else if publicPath cfg path method then next c
  else
    let authHeader := Fiber.Get c (HeaderName cfg) in
    if is_empty authHeader then unauthorized c "Missing authorization header"
    else
      let tokenString := TrimPrefix authHeader (TokenPrefix cfg) in
      if String.eqb tokenString authHeader
      then unauthorized c "Invalid authorization format"
      else
        match validateToken tokenString (JWTSecret cfg) now with
        | inl err => unauthorized c (Error err)
        | inr claims => next (authenticated cfg c claims)
        end.

(** [NewAuthMiddleware]: the public paths are those of the public routes *)
Definition publicPaths (routes : list Route) : gmap string (list string) :=
  fold_left (fun acc route =>
               if Public route then <[Path route := Methods route]> acc else acc)
            routes ∅.

(** "Build public paths from routes" *)
Definition config (secret : string) (routes : list Route) : AuthConfig :=
  let authCfg := DefaultAuthConfig secret in
  {| JWTSecret := JWTSecret authCfg;
     PublicPaths := publicPaths routes;
     HeaderName := HeaderName authCfg;
     TokenPrefix := TokenPrefix authCfg;
     ContextKey := ContextKey authCfg;
     SkipPrefixes := SkipPrefixes authCfg |}.

Definition NewAuthMiddleware (secret : string) (routes : list Route)
  : Handler -> Ctx -> Z -> Ctx * option error :=
  Auth (config secret routes).

End WithDecoder.

(** the reply of [RequireRoles] to a user without a required role *)
Definition forbidden (c : Ctx) : Ctx * option error :=
  (Fiber.JSON_ (Fiber.Status c 403)
     [("error", JStr "forbidden"); ("message", JStr "Insufficient permissions")],
   None).

(** [RequireRoles(roles...)] *)
Definition RequireRoles (roles : list string) (next : Handler) (c : Ctx)
  : Ctx * option error :=
  match Locals c !! "user" with
  | Some (LClaims claims) =>
      if existsb (fun requiredRole =>
                    existsb (fun userRole => EqualFold requiredRole userRole)
                            (Roles claims))
                 roles
      then next c
      else forbidden c
  | _ => unauthorized c "No user context found"
  end.

(** [TenantExtractor]; [hostname] is what [c.Hostname()] yields.  The
    assertion [tid.(string)] has no second result, so a local of another type
    is a panic. *)
Definition TenantExtractor (hostname : string) (next : Handler) (c : Ctx)
  : Outcome (Ctx * option error) :=
  let fromClaims :=
    match Locals c !! "tenant_id" with
    | None => Returns EmptyString
    | Some (LString tid) => Returns tid
    | Some _ => Panics
    end in
  match fromClaims with
  | Panics => Panics
  | Returns tenantID =>
      let tenantID :=
        if is_empty tenantID then Fiber.Get c "X-Tenant-ID" else tenantID in
      let tenantID :=
        if is_empty tenantID then
          let parts := Split hostname "." in
          if (3 <=? length parts)%nat then nth 0 parts EmptyString else tenantID
        else tenantID in
      if negb (is_empty tenantID) then
        Returns (next (Fiber.SetReqHeader
                         (Fiber.SetLocal c "tenant_id" (LString tenantID))
                         "X-Tenant-ID" tenantID))
      else Returns (next c)
  end.

End Auth.

(** ** The default route table (package [config]) *)

Module Config.

(** [DefaultRoutes], in declared order *)
Definition DefaultRoutes : list Route :=
  [
   {| Path := "/api/v1/auth"; Service := "auth"; StripPrefix := false;
      Methods := ["GET"; "POST"; "PUT"; "DELETE"; "PATCH"]; Public := false;
      RateLimit := None; Timeout := ""; CircuitBreaker := true; Retry := None |};
   {| Path := "/api/v1/auth/login"; Service := "auth"; StripPrefix := false;
      Methods := ["POST"]; Public := true;
      RateLimit := (Some {| RL_RequestsPerSec := 10; RL_BurstSize := 20 |}); Timeout := ""; CircuitBreaker := true; Retry := None |};
   {| Path := "/api/v1/auth/register"; Service := "auth"; StripPrefix := false;
      Methods := ["POST"]; Public := true;
      RateLimit := (Some {| RL_RequestsPerSec := 5; RL_BurstSize := 10 |}); Timeout := ""; CircuitBreaker := true; Retry := None |};
   {| Path := "/api/v1/auth/refresh"; Service := "auth"; StripPrefix := false;
      Methods := ["POST"]; Public := true;
      RateLimit := None; Timeout := ""; CircuitBreaker := true; Retry := None |};
   {| Path := "/api/v1/auth/verify-email"; Service := "auth"; StripPrefix := false;
      Methods := ["POST"; "GET"]; Public := true;
      RateLimit := None; Timeout := ""; CircuitBreaker := true; Retry := None |};
   {| Path := "/api/v1/auth/forgot-password"; Service := "auth"; StripPrefix := false;
      Methods := ["POST"]; Public := true;
      RateLimit := (Some {| RL_RequestsPerSec := 3; RL_BurstSize := 5 |}); Timeout := ""; CircuitBreaker := true; Retry := None |};
   {| Path := "/api/v1/auth/reset-password"; Service := "auth"; StripPrefix := false;
      Methods := ["POST"]; Public := true;
      RateLimit := None; Timeout := ""; CircuitBreaker := true; Retry := None |};
   {| Path := "/api/v1/users"; Service := "auth"; StripPrefix := false;
      Methods := ["GET"; "POST"; "PUT"; "DELETE"; "PATCH"]; Public := false;
      RateLimit := None; Timeout := ""; CircuitBreaker := true; Retry := None |};
   {| Path := "/api/v1/roles"; Service := "auth"; StripPrefix := false;
      Methods := ["GET"; "POST"; "PUT"; "DELETE"]; Public := false;
      RateLimit := None; Timeout := ""; CircuitBreaker := true; Retry := None |};
   {| Path := "/api/v1/permissions"; Service := "auth"; StripPrefix := false;
      Methods := ["GET"; "POST"; "PUT"; "DELETE"]; Public := false;
      RateLimit := None; Timeout := ""; CircuitBreaker := true; Retry := None |};
   {| Path := "/api/v1/admin"; Service := "auth"; StripPrefix := false;
      Methods := ["GET"; "POST"; "PUT"; "DELETE"; "PATCH"]; Public := false;
      RateLimit := None; Timeout := ""; CircuitBreaker := true; Retry := None |};
   {| Path := "/api/v1/notifications"; Service := "notifier"; StripPrefix := false;
      Methods := ["GET"; "POST"; "PUT"; "DELETE"]; Public := false;
      RateLimit := None; Timeout := ""; CircuitBreaker := true; Retry := None |};
   {| Path := "/api/v1/templates"; Service := "notifier"; StripPrefix := false;
      Methods := ["GET"; "POST"; "PUT"; "DELETE"]; Public := false;
      RateLimit := None; Timeout := ""; CircuitBreaker := true; Retry := None |};
   {| Path := "/api/v1/preferences"; Service := "notifier"; StripPrefix := false;
      Methods := ["GET"; "POST"; "PUT"; "DELETE"]; Public := false;
      RateLimit := None; Timeout := ""; CircuitBreaker := true; Retry := None |};
   {| Path := "/health"; Service := "gateway"; StripPrefix := false;
      Methods := ["GET"]; Public := true;
      RateLimit := None; Timeout := ""; CircuitBreaker := false; Retry := None |};
   {| Path := "/ready"; Service := "gateway"; StripPrefix := false;
      Methods := ["GET"]; Public := true;
      RateLimit := None; Timeout := ""; CircuitBreaker := false; Retry := None |};
   {| Path := "/metrics"; Service := "gateway"; StripPrefix := false;
      Methods := ["GET"]; Public := true;
      RateLimit := None; Timeout := ""; CircuitBreaker := false; Retry := None |}
  ].

End Config.

(** ** The route table (package [router]) *)

Module Router.
Import Strings.

(** [matchesPath] *)
Definition matchesPath (requestPath routePath : string) : bool :=
  if String.eqb requestPath routePath then true
  else if HasPrefix requestPath routePath then
    let remaining := TrimPrefix requestPath routePath in
    if is_empty remaining || HasPrefix remaining "/" then true else false
  else false.

(** [containsMethod] *)
Fixpoint containsMethod (methods : list string) (method : string) : bool :=
  match methods with
  | [] => false
  | m :: methods => if EqualFold m method then true else containsMethod methods method
  end.

(** [Router.IsPublicRoute] *)
Fixpoint IsPublicRoute (routes : list Route) (path method : string) : bool :=
  match routes with
  | [] => false
  | route :: routes =>
      if matchesPath path (Path route) && containsMethod (Methods route) method
      then Public route
      else IsPublicRoute routes path method
  end.

(** [Router.GetRouteForPath] *)
Fixpoint GetRouteForPath (routes : list Route) (path method : string) : option Route :=
  match routes with
  | [] => None
  | route :: routes =>
      if matchesPath path (Path route) && containsMethod (Methods route) method
      then Some route
      else GetRouteForPath routes path method
  end.

End Router.

(** ** The properties of the specification, in its own words *)

Module Spec.
Import Strings.

(** §6, the headers that are "never forwarded either direction" *)
Definition hop_by_hop_names : list string :=
  ["Connection"; "Keep-Alive"; "Proxy-Authenticate"; "Proxy-Authorization";
   "TE"; "Trailers"; "Transfer-Encoding"; "Upgrade"].

(** header names are compared ignoring case *)
Definition hop_by_hop_name (k : string) : bool :=
  existsb (EqualFold k) hop_by_hop_names.

(** §4.8 step 2: "path with optional prefix stripped; empty path becomes
    [/]" *)
Definition stripped_path (route : Route) (path : string) : string :=
  if StripPrefix route then
    let p := TrimPrefix path (Path route) in
    if is_empty p then "/" else p
  else path.

(** §4.8 step 2: "base_url + path + (? + query_string if non-empty)" *)
Definition target (base_url : string) (route : Route) (path query : string) : string :=
  base_url +:+ stripped_path route path
           +:+ (if is_empty query then "" else "?" +:+ query).

(** §4.5: "tokens = min(burst, tokens + elapsed * rps)", the content of a
    bucket once refilled up to the instant [t] *)
Definition refilled (b : RateLimit.rateBucket) (rps burst : Z) (t : Z) : Q :=
  RateLimit.min (inject_Z burst)
    (RateLimit.tokens b
     + Time.Seconds (Time.Sub t (RateLimit.lastCheck b)) * inject_Z rps)%Q.

(** §4.5: the "epoch-seconds at which one more token will be available" *)
Definition token_available_at (b : RateLimit.rateBucket) (rps burst : Z) (sec : Z) : Prop :=
  (1 <= refilled b rps burst (sec * Time.Second))%Q.

(** the handler at the end of a chain: it leaves the response as it is *)
Definition done : Handler := fun c => (c, None).

(** §4.5: "On every response, allowed or denied, three headers are set" *)
Definition rate_limit_headers (rl : RateLimit.RateLimiter) (c : Ctx) (now : Z) : Prop :=
  forall rl' c' err,
    RateLimit.Middleware rl done c now = (rl', Returns (c', err)) ->
    exists b reset,
      RateLimit.local rl' !! RateLimit.createKey c = Some b /\
      Fiber.GetRespHeader c' "X-RateLimit-Limit" = pretty (fst (RateLimit.limits rl c)) /\
      Fiber.GetRespHeader c' "X-RateLimit-Remaining" = pretty (Qfloor (RateLimit.tokens b)) /\
      Fiber.GetRespHeader c' "X-RateLimit-Reset" = pretty reset /\
      token_available_at b (fst (RateLimit.limits rl c)) (snd (RateLimit.limits rl c)) reset.

(** the call is decided by the in-process limiter: there is no shared
    store, or the call to it fails *)
Definition decided_locally (rl : RateLimit.RateLimiter) (c : Ctx) (now : Z) : Prop :=
  match RateLimit.redis rl with
  | None => True
  | Some run =>
      run (RateLimit.createKey c) (fst (RateLimit.limits rl c))
          (snd (RateLimit.limits rl c)) (Time.Unix now) = None
  end.

(** §4.4: "the breaker is applied only when the resolved route has
    circuit_breaker = true and service ≠ gateway", with breaking enabled and
    the service name set and not empty *)
Definition breaker_applies (m : Circuit.CircuitBreakerManager) (c : Ctx) : Prop :=
  Circuit_Enabled (Circuit.cfg m) = true /\
  exists serviceName route,
    Locals c !! "service" = Some (LString serviceName) /\
    serviceName <> "" /\ serviceName <> "gateway" /\
    Locals c !! "route" = Some (LRoute route) /\ CircuitBreaker route = true.

(** the same, except that a context without a route counts like a route
    that asks for the breaker *)
Definition breaker_applies_by_default (m : Circuit.CircuitBreakerManager) (c : Ctx)
  : Prop :=
  Circuit_Enabled (Circuit.cfg m) = true /\
  exists serviceName,
    Locals c !! "service" = Some (LString serviceName) /\
    serviceName <> "" /\ serviceName <> "gateway" /\
    forall route, Locals c !! "route" = Some (LRoute route) ->
                  CircuitBreaker route = true.

(** §4.4, Closed → Open: "requests ≥ failure_threshold AND
    failures / requests ≥ 0.5" *)
Definition trip_condition (N : Z) (counts : Gobreaker.Counts) : Prop :=
  N <= Gobreaker.Requests counts /\
  (1 # 2 <= inject_Z (Gobreaker.TotalFailures counts)
            / inject_Z (Gobreaker.Requests counts))%Q.

(** §4.6 step 1: the path has a configured skip prefix *)
Definition has_skip_prefix (path : string) : bool :=
  existsb (HasPrefix path) ["/health"; "/ready"; "/live"; "/metrics"].

(** §4.1 and §4.6 step 2: the route of the request, which [resolve] finds by
    the first match in declared order, is public *)
Definition public_route (routes : list Route) (c : Ctx) : bool :=
  Router.IsPublicRoute routes (ReqPath (Req c)) (Method (Req c)).

(** what the authenticator tests instead: the context carries the public
    mark, or the exact path of the request is in its table of public routes
    with the method of the request *)
Definition exempt (routes : list Route) (c : Ctx) : bool :=
  Auth.markedPublic c
  || Auth.publicPath (Auth.config "" routes) (ReqPath (Req c)) (Method (Req c)).

(** the entry of that table for a path, in terms of the routes: the public
    route with exactly this path that is declared last *)
Definition listed_route (routes : list Route) (path : string) : option Route :=
  find (fun route => Public route && String.eqb (Path route) path) (rev routes).

(** the path is in the table with the method, up to letter case *)
Definition listed (routes : list Route) (path method : string) : bool :=
  match listed_route routes path with
  | Some route => existsb (fun m => EqualFold m method) (Methods route)
  | None => false
  end.

(** §4.6 step 3: answered "401", with the error kind [unauthorized] *)
Definition refused (reply : Ctx * option error) : Prop :=
  StatusCode (Resp (fst reply)) = 401 /\
  exists message,
    RespBody (Resp (fst reply))
    = JSON [("error", JStr "unauthorized"); ("message", JStr message)].

(** §4.6 step 4: signed with the configured secret by an HMAC method *)
Definition validly_signed (u : Jwt.Unverified) (secret : string) : Prop :=
  (exists alg, Jwt.U_Method u = Jwt.SigningMethodHMAC alg) /\
  Jwt.U_Verify u secret = true.

(** §4.6 step 5, negated: the expiry time is not after the current time *)
Definition expired (u : Jwt.Unverified) (now : Z) : Prop :=
  exists exp, ExpiresAt (Jwt.U_Claims u) = Some exp /\ exp <= now.

(** a not-before time that is still to come *)
Definition premature (u : Jwt.Unverified) (now : Z) : Prop :=
  exists nbf, NotBefore (Jwt.U_Claims u) = Some nbf /\ now < nbf.

(** the first clause of the authenticator's contract as it is worded: a
    request without a skip prefix whose route is not public is answered 401
    when it has no Authorization header *)
Definition missing_header_refused (decode : string -> option Jwt.Unverified)
    (secret : string) (routes : list Route) (next : Handler) (c : Ctx) (now : Z)
  : Prop :=
  has_skip_prefix (ReqPath (Req c)) = false ->
  public_route routes c = false ->
  Fiber.Get c "Authorization" = "" ->
  refused (Auth.NewAuthMiddleware decode secret routes next c now).

(** the last clause of the authenticator's contract as it is worded: a
    bearer token that is validly signed and not expired passes, and its
    claims are placed on the context *)
Definition signed_token_passes (decode : string -> option Jwt.Unverified)
    (secret : string) (routes : list Route) (next : Handler) (c : Ctx) (now : Z)
  : Prop :=
  has_skip_prefix (ReqPath (Req c)) = false ->
  public_route routes c = false ->
  forall token u,
    Fiber.Get c "Authorization" = "Bearer " +:+ token ->
    decode token = Some u ->
    validly_signed u secret -> ~ expired u now ->
    Auth.NewAuthMiddleware decode secret routes next c now
    = next (Auth.authenticated (Auth.config secret routes) c (Jwt.U_Claims u)).

(** I4: "tokens ∈ [0, burst]" *)
Definition in_range (burst : Z) (b : RateLimit.rateBucket) : Prop :=
  (0 <= RateLimit.tokens b /\ RateLimit.tokens b <= inject_Z burst)%Q.

End Spec.

(** ** Sample data: the scenarios of §8 *)

Module Sample.

Definition authRoute : Route :=
  {| Path := "/api/v1/auth"; Service := "auth"; StripPrefix := true;
     Methods := ["GET"; "POST"]; Public := true; RateLimit := None;
     Timeout := ""; CircuitBreaker := true; Retry := None |}.

Definition usersRoute : Route :=
  {| Path := "/api/v1/users"; Service := "auth"; StripPrefix := false;
     Methods := ["GET"]; Public := false; RateLimit := None;
     Timeout := ""; CircuitBreaker := false; Retry := None |}.

Definition request (path query : string) (headers : Header.t) : Request :=
  {| Method := "GET"; ReqPath := path; QueryString := query;
     Host := "gateway.local";
     ReqHeader := headers;
     ReqBody := ""; IP := "10.0.0.7"; Protocol := "http" |}.

Definition ctx (path query : string) (headers : Header.t) : Ctx :=
  {| Req := request path query headers;
     Resp := {| StatusCode := 200;
                RespHeader := [("X-Request-Id", "r-1"); ("Connection", "close")];
                RespBody := Raw "" |};
     Locals := ∅ |}.

(** S5: [GET /api/v1/auth/me?x=1], with hop-by-hop headers on it *)
Definition me : Ctx :=
  ctx "/api/v1/auth/me" "x=1"
      [("Accept", "*/*"); ("Connection", "keep-alive"); ("TE", "trailers")].

Definition reply : Proxy.UpstreamResponse :=
  {| Proxy.UpStatusCode := 201;
     Proxy.UpRespHeader := [("Content-Type", "text/plain"); ("Transfer-Encoding", "chunked")];
     Proxy.UpRespBody := "ok" |}.

Definition service (name : string) (healthy : bool)
    (client : Proxy.UpstreamRequest -> string + Proxy.UpstreamResponse)
  : Proxy.ServiceClient :=
  {| Proxy.Name := name; Proxy.URL := "http://localhost:5000"; Proxy.Client := client;
     Proxy.HealthPath := "/api/health"; Proxy.Healthy := healthy;
     Proxy.LastCheck := 0 |}.

Definition up : Proxy.ServiceClient := service "auth" true (fun _ => inr reply).
Definition down : Proxy.ServiceClient := service "auth" false (fun _ => inr reply).
Definition broken : Proxy.ServiceClient :=
  service "auth" true (fun _ => inl "dial tcp: connection refused").

(** [POST /api/v1/auth/login] without an Authorization header *)
Definition login : Ctx :=
  {| Req := {| Method := "POST"; ReqPath := "/api/v1/auth/login"; QueryString := "";
               Host := "gateway.local";
               ReqHeader := [("Content-Type", "application/json")];
               ReqBody := "{}"; IP := "10.0.0.7"; Protocol := "http" |};
     Resp := {| StatusCode := 200; RespHeader := []; RespBody := Raw "" |};
     Locals := ∅ |}.

(** a limiter without a shared store *)
Definition limiter (rps burst : Z) (requests : gmap string RateLimit.rateBucket)
  : RateLimit.RateLimiter :=
  {| RateLimit.redis := None;
     RateLimit.cfg := {| RateLimit_Enabled := true; RequestsPerSec := rps;
                         BurstSize := burst; CleanupInterval := 60 * Time.Second |};
     RateLimit.local := requests |}.

(** [GET /api/v1/users] of S2 *)
Definition users : Ctx := ctx "/api/v1/users" "" [("Accept", "*/*")].

(** ten seconds after the epoch *)
Definition t10 : Z := 10 * Time.Second.

(** two tokens a second, a burst of one, and the bucket of [users] emptied
    by a request at [t10] *)
Definition busy : RateLimit.RateLimiter :=
  limiter 2 1 {[ "ratelimit:ip:10.0.0.7:/api/v1/users" :=
                   {| RateLimit.tokens := 0; RateLimit.lastCheck := t10 |} ]}.

(** the circuit settings of the default configuration *)
Definition circuit : CircuitConfig :=
  {| Circuit_Enabled := true; MaxRequests := 5; Interval := 60 * Time.Second;
     Circuit_Timeout := 30 * Time.Second; FailureThreshold := 5 |}.

Definition manager : Circuit.CircuitBreakerManager :=
  {| Circuit.breakers := ∅; Circuit.cfg := circuit |}.

(** a context that names its service and carries no route *)
Definition routeless : Ctx :=
  Fiber.SetLocal users "service" (LString "auth").

(** the upstream answers 500 *)
Definition failing : Handler := fun c => (Fiber.Status c 500, None).

(** a context as the router leaves it for a route that asks for the breaker *)
Definition routed : Ctx :=
  Fiber.SetLocal (Fiber.SetLocal users "route" (LRoute authRoute))
                 "service" (LString "auth").

Definition call (m : Circuit.CircuitBreakerManager) (t : Z)
  : Circuit.CircuitBreakerManager :=
  fst (Circuit.Middleware m failing routed t (t + 1)).

(** the manager after five calls that the upstream answered with 500 *)
Definition tripped : Circuit.CircuitBreakerManager :=
  call (call (call (call (call manager 1) 3) 5) 7) 9.

(** tokens: [decode] knows three token strings, all signed with the secret
    ["s3cret"] by HS256; the first has no time claims, the second expired at
    second 5, the third is not to be used before second 20 *)
Definition claims (exp nbf : option Z) : Claims :=
  {| UserID := "u-1"; TenantID := "t-1"; Email := "u@example.org";
     Roles := ["admin"; "dev"]; ExpiresAt := exp; NotBefore := nbf |}.

Definition signed (cl : Claims) : Jwt.Unverified :=
  {| Jwt.U_Method := Jwt.SigningMethodHMAC "HS256"; Jwt.U_Claims := cl;
     Jwt.U_Verify := fun key => String.eqb key "s3cret" |}.

Definition decode (token : string) : option Jwt.Unverified :=
  if String.eqb token "fresh" then Some (signed (claims None None))
  else if String.eqb token "stale" then Some (signed (claims (Some (5 * Time.Second)) None))
  else if String.eqb token "early" then Some (signed (claims None (Some (20 * Time.Second))))
  else None.

Definition bearer (token : string) : Ctx :=
  ctx "/api/v1/users" "" [("Accept", "*/*"); ("Authorization", "Bearer " +:+ token)].

(** the breaker of S3 and what it has counted after five failures *)
Definition notifier : Gobreaker.Breaker :=
  Gobreaker.NewCircuitBreaker (Circuit.settings circuit "notifier") 0.

Definition fiveFailures : Gobreaker.Counts :=
  {| Gobreaker.Requests := 5; Gobreaker.TotalSuccesses := 0;
     Gobreaker.TotalFailures := 5; Gobreaker.ConsecutiveSuccesses := 0;
     Gobreaker.ConsecutiveFailures := 5 |}.

Definition fourCalls : list (Z * Z * bool) :=
  [(1, 2, false); (3, 4, false); (5, 6, false); (7, 8, false)].

End Sample.

(** a sequence of calls for one key, at the given clock readings; a panic
    is recovered by the chain and the limiter lives on *)
Fixpoint calls (requests : gmap string RateLimit.rateBucket) (key : string)
    (rps burst : Z) (clock : list Z) : gmap string RateLimit.rateBucket :=
  match clock with
  | [] => requests
  | now :: rest => calls (fst (RateLimit.allow requests now key rps burst)) key rps burst rest
  end.

(** ** Observations of a breaker *)

Section Observations.
Import Gobreaker.

(** one call through the breaker, admitted at [now] and completed at
    [done], whose request function succeeds or fails *)
Definition observe (cb : Breaker) (now done : Z) (ok : bool) : Breaker :=
  fst (fst (Execute cb now done
              (fun _ => (tt, if ok then None else Some (OtherError "upstream error"))))).

(** the counters on which the outcome of that call is recorded, as the trip
    predicate sees them; [None] when the call is refused or its generation
    is over *)
Definition seen (cb : Breaker) (now done : Z) (ok : bool) : option Counts :=
  match beforeRequest cb now with
  | (cb, inr before) =>
      let cb := currentState cb done in
      if generation cb =? before
      then Some (if ok then onSuccess (counts cb) else onFailure (counts cb))
      else None
  | (_, inl _) => None
  end.

Fixpoint observations (cb : Breaker) (obs : list (Z * Z * bool)) : Breaker :=
  match obs with
  | [] => cb
  | (now, done, ok) :: rest => observations (observe cb now done ok) rest
  end.

(** the trip predicate has not held at any observation of the sequence *)
Fixpoint never_ready (cb : Breaker) (obs : list (Z * Z * bool)) : Prop :=
  match obs with
  | [] => True
  | (now, done, ok) :: rest =>
      (forall cs, seen cb now done ok = Some cs -> readyToTrip cb cs = false)
      /\ never_ready (observe cb now done ok) rest
  end.

End Observations.

(** the clock does not run backwards *)
Fixpoint ascending (from : Z) (clock : list Z) : Prop :=
  match clock with
  | [] => True
  | now :: rest => from <= now /\ ascending now rest
  end.

(** ** The health endpoints (package [handler]) *)

Module Health.

(** [Ready], the loop over the services: it stops at the first unhealthy
    one, in whatever order the map is walked *)
Definition allHealthy (services : gmap string bool) : bool :=
  forallb snd (map_to_list services).

(** [Ready], the status code and the [status] field of its answer *)
Definition Ready (p : Proxy.ServiceProxy) : Z * string :=
  let services := Proxy.GetServicesHealth p in
  if allHealthy services then (200, "ready")
  else (Fiber.StatusServiceUnavailable, "not_ready").

End Health.

(** ** The retry wrapper (middleware/circuit.go) *)

Module Retry.

Record RetryMiddleware := {
  MaxRetries : Z;
  RM_WaitTime : Z;
  MaxWaitTime : Z
}.

Definition NewRetryMiddleware (maxRetries waitTime : Z) : RetryMiddleware :=
  {| MaxRetries := maxRetries; RM_WaitTime := waitTime;
     MaxWaitTime := 30 * Time.Second |}.

(** "Check if route has retry config"; [parse] is [time.ParseDuration] *)
Definition settings (parse : string -> option Z) (rm : RetryMiddleware) (c : Ctx)
  : Z * Z :=
  let '(maxAttempts, waitTime) :=
    match Locals c !! "route" with
    | Some (LRoute route) =>
        match Retry route with
        | Some r => (MaxAttempts r, default 0 (parse (WaitTime r)))
        | None => (0, 0)
        end
    | _ => (0, 0)
    end in
  (if maxAttempts =? 0 then MaxRetries rm else maxAttempts,
   if waitTime =? 0 then RM_WaitTime rm else waitTime).

(** "Exponential backoff": [waitTime * time.Duration(1<<attempt)] in 64
    bits, capped at [MaxWaitTime] *)
Definition sleepTime (rm : RetryMiddleware) (waitTime attempt : Z) : Z :=
  let sleepTime :=
    RateLimit.wrap_int (waitTime * RateLimit.wrap_int (Z.shiftl 1 attempt)) in
  if MaxWaitTime rm <? sleepTime then MaxWaitTime rm else sleepTime.

(** the loop of [Middleware], with [remaining] attempts to go; the
    durations handed to [time.Sleep] are collected in order.  Fiber keeps
    the position in the handler chain inside the context and advances it
    with every [c.Next()], so the calls need not run the same handlers:
    [next attempt] is what the call of that attempt does. *)
Fixpoint attempts (rm : RetryMiddleware) (next : Z -> Handler)
    (waitTime maxAttempts : Z) (remaining : nat) (attempt : Z)
    (c : Ctx) (lastErr : option error) (slept : list Z)
  : Ctx * option error * list Z :=
  match remaining with
  | O => (c, lastErr, slept)
  | S remaining =>
      let '(c, err) := next attempt c in
      if StatusCode (Resp c) <? 500 then (c, err, slept)
      else
        let slept :=
          if attempt <? maxAttempts
          then slept ++ [sleepTime rm waitTime attempt] else slept in
        attempts rm next waitTime maxAttempts remaining (attempt + 1) c err slept
  end.

(** [RetryMiddleware.Middleware] *)
Definition Middleware (parse : string -> option Z) (rm : RetryMiddleware)
    (next : Z -> Handler) (c : Ctx) : Ctx * option error * list Z :=
  let '(maxAttempts, waitTime) := settings parse rm c in
  attempts rm next waitTime maxAttempts (Z.to_nat (maxAttempts + 1)) 0 c None [].

(** the context and the error after the first [n] calls of [c.Next()] *)
Fixpoint upto (next : Z -> Handler) (n : nat) (c : Ctx) : Ctx * option error :=
  match n with
  | O => (c, None)
  | S n => next (Z.of_nat n) (fst (upto next n c))
  end.

End Retry.

(** ** The logger (middleware/logging.go) *)

Module Logging.

Record SimpleLogger := {
  level : string;
  format : string
}.

Definition levels : gmap string Z :=
  <["debug" := 0]> (<["info" := 1]> (<["warn" := 2]> (<["error" := 3]> ∅))).

(** [shouldLog]; a level that is not in the table reads as zero *)
Definition shouldLog (l : SimpleLogger) (lvl : string) : bool :=
  default 0 (levels !! level l) <=? default 0 (levels !! lvl).

Inductive Severity := Info | Warn | Error.

(** [RequestLogger], "Choose log level based on status" *)
Definition logFn (status : Z) : Severity :=
  if 500 <=? status then Error
  else if 400 <=? status then Warn
  else Info.

(** the level each method of the logger asks [shouldLog] for, and the tag it
    hands to [log] *)
Definition name (s : Severity) : string :=
  match s with Info => "info" | Warn => "warn" | Error => "error" end.

Definition tag (s : Severity) : string :=
  match s with Info => "INFO" | Warn => "WARN" | Error => "ERROR" end.

(** the [%v] verb on a field *)
Definition show (v : JValue) : string :=
  match v with
  | JStr s => s
  | JInt n => pretty n
  end.

(** the double quote and the line feed *)
Definition quote : string := String (ascii_of_nat 34) "".
Definition newline : string := String (ascii_of_nat 10) "".

(** a text between double quotes *)
Definition quoted (s : string) : string := quote +:+ s +:+ quote.

(** the loop of [log] over the fields, two at a time; a field left without
    partner is dropped *)
Fixpoint pairs (json : bool) (fields : list JValue) : string :=
  match fields with
  | k :: v :: fields =>
      (if json then "," +:+ quoted (show k) +:+ ":" +:+ quoted (show v)
       else " " +:+ show k +:+ "=" +:+ show v)
      +:+ pairs json fields
  | _ => ""
  end.

(** [log]: the line written to the standard output; [timestamp] is the
    formatted clock *)
Definition log (l : SimpleLogger) (timestamp lvl msg : string)
    (fields : list JValue) : string :=
  if String.eqb (format l) "json" then
    "{" +:+ quoted "level" +:+ ":" +:+ quoted lvl
      +:+ "," +:+ quoted "time" +:+ ":" +:+ quoted timestamp
      +:+ "," +:+ quoted "msg" +:+ ":" +:+ quoted msg
      +:+ pairs true fields +:+ "}" +:+ newline
  else
    timestamp +:+ " [" +:+ lvl +:+ "] " +:+ msg +:+ pairs false fields +:+ newline.

(** [Info], [Warn] and [Error] of the logger: what they write *)
Definition emit (l : SimpleLogger) (s : Severity) (timestamp msg : string)
    (fields : list JValue) : string :=
  if shouldLog l (name s) then log l timestamp (tag s) msg fields else "".

(** a local read with a type assertion to [string], [""] when it fails *)
Definition localString (c : Ctx) (key : string) : string :=
  match Locals c !! key with
  | Some (LString s) => s
  | _ => ""
  end.

(** [RequestLogger]; [start] and [finish] are the clock before and after
    the rest of the chain.  The value is what the chain returns and the text
    written. *)
Definition RequestLogger (l : SimpleLogger) (timestamp : string) (start finish : Z)
    (next : Handler) (c : Ctx) : Ctx * option error * string :=
  let '(c, err) := next c in
  let duration := Time.Sub finish start in
  let status := StatusCode (Resp c) in
  (c, err,
   emit l (logFn status) timestamp "HTTP Request"
     [JStr "method"; JStr (Method (Req c));
      JStr "path"; JStr (ReqPath (Req c));
      JStr "status"; JInt status;
      JStr "duration_ms"; JInt (Z.quot duration 1000000);
      JStr "ip"; JStr (IP (Req c));
      JStr "request_id"; JStr (localString c "request_id");
      JStr "user_id"; JStr (localString c "user_id");
      JStr "tenant_id"; JStr (localString c "tenant_id");
      JStr "service"; JStr (localString c "service");
      JStr "user_agent"; JStr (Fiber.Get c "User-Agent")]).

End Logging.

(** ** The small middlewares (package [middleware]) *)

Module Stages.
Import Strings.

(** [RequestID], the context it hands on; [fresh] is the identifier that
    [uuid.New()] draws *)
Definition tagged (fresh : string) (c : Ctx) : Ctx :=
  let requestID := Fiber.Get c "X-Request-ID" in
  let requestID := if is_empty requestID then fresh else requestID in
  let c := Fiber.Set_ c "X-Request-ID" requestID in
  Fiber.SetLocal c "request_id" (LString requestID).

(** [RequestID] *)
Definition RequestID (fresh : string) (next : Handler) (c : Ctx)
  : Ctx * option error :=
  next (tagged fresh c).

(** the status texts of fiber that [SendStatus] is used with here *)
Definition StatusMessage (status : Z) : string :=
  if status =? 200 then "OK"
  else if status =? 204 then "No Content"
  else "".

(** [len(body) == 0] *)
Definition body_empty (b : Body) : bool :=
  match b with
  | Raw bytes => is_empty bytes
  | JSON _ => false
  end.

(** [c.SendStatus(status)]: the status text becomes the body when there is
    no body *)
Definition SendStatus (c : Ctx) (status : Z) : Ctx :=
  let c := Fiber.Status c status in
  if body_empty (RespBody (Resp c)) then Fiber.Send c (StatusMessage status) else c.

(** [CORS], the map built from the allowed origins *)
Definition originsMap (allowedOrigins : list string) : gmap string bool :=
  fold_left (fun acc origin => <[origin := true]> acc) allowedOrigins ∅.

(** [CORS], "Check if origin is allowed" *)
Definition allowed (allowedOrigins : list string) (origin : string) : bool :=
  negb (is_empty origin)
  && ((length allowedOrigins =? 0)%nat
      || default false (originsMap allowedOrigins !! origin)
      || default false (originsMap allowedOrigins !! "*")).

(** [CORS(allowedOrigins)] *)
Definition CORS (allowedOrigins : list string) (next : Handler) (c : Ctx)
  : Ctx * option error :=
  let origin := Fiber.Get c "Origin" in
  let c :=
    if allowed allowedOrigins origin then
      Fiber.Set_ (Fiber.Set_ c "Access-Control-Allow-Origin" origin)
                 "Access-Control-Allow-Credentials" "true"
    else c in
  if String.eqb (Method (Req c)) "OPTIONS" then
    let c := Fiber.Set_ c "Access-Control-Allow-Methods"
               "GET, POST, PUT, PATCH, DELETE, OPTIONS" in
    let c := Fiber.Set_ c "Access-Control-Allow-Headers"
               "Origin, Content-Type, Accept, Authorization, X-Request-ID, X-Tenant-ID" in
    let c := Fiber.Set_ c "Access-Control-Max-Age" "86400" in
    (SendStatus c 204, None)
  else next c.

(** [Metrics], "Record upstream errors": the [error_type] label that is
    counted for a status code, if any *)
Definition upstreamError (status : Z) : option string :=
  if 500 <=? status then Some "5xx"
  else if (status =? 502) || (status =? 503) then Some "upstream_unavailable"
  else None.

End Stages.

(** * Theorems *)

(** ** Bytes and strings *)

Section Bytes.
Import Strings Textproto.

Local Ltac by_bytes c := destruct c as [[] [] [] [] [] [] [] []]; vm_compute; reflexivity.

Lemma lower_byte_idem c : lower_byte (lower_byte c) = lower_byte c.
Proof. by_bytes c. Qed.

Lemma lower_upper_byte c : lower_byte (upper_byte c) = lower_byte c.
Proof. by_bytes c. Qed.

Lemma upper_lower_byte c : upper_byte (lower_byte c) = upper_byte c.
Proof. by_bytes c. Qed.

Lemma valid_lower_byte c : validHeaderFieldByte (lower_byte c) = validHeaderFieldByte c.
Proof. by_bytes c. Qed.

Lemma ToLower_idem s : ToLower (ToLower s) = ToLower s.
Proof. induction s as [|c s IH]; simpl; [done|]. by rewrite lower_byte_idem, IH. Qed.

Lemma canonical_ToLower b s : canonical b (ToLower s) = canonical b s.
Proof.
  revert b. induction s as [|c s IH]; intros b; simpl; [done|].
  destruct b; rewrite ?upper_lower_byte, ?lower_byte_idem, IH; done.
Qed.

Lemma ToLower_canonical b s : ToLower (canonical b s) = ToLower s.
Proof.
  revert b. induction s as [|c s IH]; intros b; simpl; [done|].
  destruct b; rewrite ?lower_upper_byte, ?lower_byte_idem, IH; done.
Qed.

Lemma all_valid_ToLower s : all_valid (ToLower s) = all_valid s.
Proof. induction s as [|c s IH]; simpl; [done|]. by rewrite valid_lower_byte, IH. Qed.

Lemma EqualFold_eq s t : EqualFold s t = true <-> ToLower s = ToLower t.
Proof. unfold EqualFold. apply String.eqb_eq. Qed.

Lemma EqualFold_refl s : EqualFold s s = true.
Proof. by apply EqualFold_eq. Qed.

(** the canonical form of a key only depends on the key up to case *)
Lemma CanonicalHeaderKey_fold s t :
  ToLower s = ToLower t -> all_valid t = true ->
  CanonicalHeaderKey s = CanonicalHeaderKey t.
Proof.
  intros Hst Ht. unfold CanonicalHeaderKey.
  rewrite Ht, <- (all_valid_ToLower s), Hst, all_valid_ToLower, Ht.
  by rewrite <- (canonical_ToLower true s), Hst, canonical_ToLower.
Qed.

Lemma append_assoc (a b c : string) : (a +:+ b) +:+ c = a +:+ b +:+ c.
Proof.
  induction a as [|x a IH]; [done|].
  change (String x ((a +:+ b) +:+ c) = String x (a +:+ b +:+ c)). by rewrite IH.
Qed.

Lemma is_empty_true s : is_empty s = true <-> s = "".
Proof. destruct s; simpl; split; congruence. Qed.

Lemma HasPrefix_append p s : HasPrefix (p +:+ s) p = true.
Proof.
  induction p as [|x p IH]; [by destruct s|].
  change (HasPrefix (String x (p +:+ s)) (String x p) = true).
  simpl. by rewrite Ascii.eqb_refl.
Qed.

Lemma TrimPrefix_append p s : TrimPrefix (p +:+ s) p = s.
Proof.
  unfold TrimPrefix. rewrite HasPrefix_append.
  induction p as [|x p IH]; [done|]. exact IH.
Qed.

End Bytes.

(** ** The reverse proxy *)

Section ProxyFacts.
Import Strings Textproto Proxy Spec.

(** [isHopByHopHeader] decides exactly the names of §6, in any case *)
Lemma isHopByHopHeader_spec k : isHopByHopHeader k = hop_by_hop_name k.
Proof.
  destruct (hop_by_hop_name k) eqn:Hs.
  - unfold hop_by_hop_name in Hs. apply existsb_exists in Hs as (n & Hn & Hk).
    apply EqualFold_eq in Hk. unfold isHopByHopHeader.
    unfold hop_by_hop_names in Hn. simpl in Hn.
    repeat (destruct Hn as [<- | Hn];
            [ rewrite (CanonicalHeaderKey_fold k _ Hk) by (vm_compute; reflexivity);
              vm_compute; reflexivity | ]).
    destruct Hn.
  - unfold isHopByHopHeader.
    destruct (hopByHopHeaders !! CanonicalHeaderKey k) as [b|] eqn:Hl; [|done].
    exfalso. unfold hopByHopHeaders in Hl.
    assert (Hmem : In (CanonicalHeaderKey k)
              ["Connection"; "Keep-Alive"; "Proxy-Authenticate";
               "Proxy-Authorization"; "Te"; "Trailers"; "Transfer-Encoding";
               "Upgrade"]).
    { repeat (apply lookup_insert_Some in Hl as [[<- _] | [_ Hl]];
              [ simpl; tauto | ]).
      by rewrite lookup_empty in Hl. }
    assert (Hlow : existsb (String.eqb (ToLower k)) (map ToLower hop_by_hop_names) = true).
    { unfold CanonicalHeaderKey in Hmem.
      destruct (all_valid k) eqn:Hv.
      - rewrite <- (ToLower_canonical true k).
        simpl in Hmem.
        repeat (destruct Hmem as [<- | Hmem]; [ vm_compute; reflexivity | ]).
        destruct Hmem.
      - simpl in Hmem.
        repeat (destruct Hmem as [<- | Hmem]; [ vm_compute in Hv; discriminate | ]).
        destruct Hmem. }
    apply existsb_exists in Hlow as (l & Hl' & Heq).
    apply in_map_iff in Hl' as (n & <- & Hn).
    apply String.eqb_eq in Heq.
    assert (hop_by_hop_name k = true); [|congruence].
    apply existsb_exists. exists n. split; [done|]. by apply EqualFold_eq.
Qed.

Lemma hop_by_hop_name_fold k1 k2 :
  Header.same_key k1 k2 = true -> hop_by_hop_name k1 = hop_by_hop_name k2.
Proof.
  intros H%EqualFold_eq. unfold hop_by_hop_name, EqualFold. by rewrite H.
Qed.

(** an entry of a header collection after [Set] is an old entry, or carries
    the new value under a key that matches *)
Lemma Set_entries (h : Header.t) key value k v :
  In (k, v) (Header.Set_ h key value) ->
  In (k, v) h \/ (Header.same_key k key = true /\ v = value).
Proof.
  induction h as [|[k0 v0] h IH]; simpl.
  - intros [[= <- <-]|[]]. right. split; [apply EqualFold_refl | done].
  - destruct (Header.same_key k0 key) eqn:Hk; simpl.
    + intros [[= <- <-]|Hin]; [right; done | left; by right].
    + intros [[= <- <-]|Hin]; [left; by left|].
      destruct (IH Hin) as [?|?]; [left; by right | by right].
Qed.

Lemma Set_entries_hop (h : Header.t) key value k v :
  hop_by_hop_name key = false ->
  In (k, v) (Header.Set_ h key value) -> hop_by_hop_name k = true -> In (k, v) h.
Proof.
  intros Hkey Hin Hhop. destruct (Set_entries _ _ _ _ _ Hin) as [?|[Hk _]]; [done|].
  rewrite (hop_by_hop_name_fold _ _ Hk) in Hhop. congruence.
Qed.

(** copying adds no hop-by-hop entry to the destination *)
Lemma copyHeaders_hop (src dst : Header.t) k v :
  In (k, v) (copyHeaders src dst) -> hop_by_hop_name k = true -> In (k, v) dst.
Proof.
  unfold copyHeaders. revert dst.
  induction src as [|[k0 v0] src IH]; intros dst Hin Hhop; simpl in *; [done|].
  destruct (isHopByHopHeader k0) eqn:Hk0; [by apply IH|].
  rewrite isHopByHopHeader_spec in Hk0.
  eapply Set_entries_hop; [exact Hk0| |exact Hhop]. by apply IH.
Qed.

Lemma JSON_entries_hop c fields k v :
  In (k, v) (RespHeader (Resp (Fiber.JSON_ c fields))) ->
  hop_by_hop_name k = true -> In (k, v) (RespHeader (Resp c)).
Proof. simpl. apply Set_entries_hop. vm_compute. reflexivity. Qed.

(** C1. Hop-by-hop isolation: the request handed to the upstream carries no
    header whose name is Connection, Keep-Alive, Proxy-Authenticate,
    Proxy-Authorization, TE, Trailers, Transfer-Encoding or Upgrade (in any
    case), whatever the client sent; and every header of such a name on the
    client response after [Forward] was on it before, so none comes from the
    upstream response. *)
Theorem hop_by_hop_isolation :
  (forall svc c stripPrefix k v,
      In (k, v) (UpHeader (upstreamRequest svc c stripPrefix)) ->
      hop_by_hop_name k = false)
  /\
  (forall p c serviceName stripPrefix k v,
      In (k, v) (RespHeader (Resp (Forward p c serviceName stripPrefix))) ->
      hop_by_hop_name k = true ->
      In (k, v) (RespHeader (Resp c))).
Proof.
  split.
  - intros svc c stripPrefix k v Hin.
    destruct (hop_by_hop_name k) eqn:Hhop; [exfalso|done].
    unfold upstreamRequest in Hin. simpl in Hin.
    repeat (apply Set_entries_hop in Hin; [|vm_compute; reflexivity|exact Hhop]).
    apply copyHeaders_hop in Hin; [|exact Hhop]. destruct Hin.
  - intros p c serviceName stripPrefix k v. unfold Forward, GetService.
    destruct (p !! serviceName) as [svc|]; [|apply JSON_entries_hop].
    destruct (Healthy svc); simpl negb; cbv iota; [|apply JSON_entries_hop].
    destruct (Client svc _) as [err|resp]; [apply JSON_entries_hop|].
    unfold copyResponse. simpl. apply copyHeaders_hop.
Qed.

(** the claim at work on S5: [Accept] goes through, and the [Connection]
    header of the client response is the gateway's own *)
Lemma hop_by_hop_isolation_witness :
  hop_by_hop_name "Accept" = false /\
  In ("Connection", "close") (RespHeader (Resp Sample.me)).
Proof.
  split.
  - apply (proj1 hop_by_hop_isolation Sample.up Sample.me "/api/v1/auth" "Accept" "*/*").
    vm_compute. tauto.
  - apply (proj2 hop_by_hop_isolation {["auth" := Sample.up]} Sample.me "auth"
             "/api/v1/auth" "Connection" "close").
    + vm_compute. tauto.
    + vm_compute. reflexivity.
Defined.

(** C6. The target URL is the service's base URL, then the request path
    (without the route's prefix when the route strips it, and [/] when
    nothing is left), then [?] and the query string exactly when the query
    string is not empty; the method is the client's.  So
    [GET /api/v1/auth/me?x=1] on the stripping route [/api/v1/auth] is sent as
    [GET /me?x=1]. *)
Theorem target_url svc c route (Hpath : ReqPath (Req c) <> "") :
  let stripPrefix := if StripPrefix route then Path route else "" in
  let req := upstreamRequest svc c stripPrefix in
  let query :=
    if is_empty (QueryString (Req c)) then "" else "?" +:+ QueryString (Req c) in
  RequestURI req
    = Spec.target (URL svc) route (ReqPath (Req c)) (QueryString (Req c))
  /\ (StripPrefix route = false ->
      RequestURI req = URL svc +:+ ReqPath (Req c) +:+ query)
  /\ (forall rest, StripPrefix route = true ->
      ReqPath (Req c) = Path route +:+ rest ->
      RequestURI req = URL svc +:+ (if is_empty rest then "/" else rest) +:+ query)
  /\ UpMethod req = Method (Req c)
  /\ (StripPrefix route = true -> Path route = "/api/v1/auth" ->
      ReqPath (Req c) = "/api/v1/auth/me" -> QueryString (Req c) = "x=1" ->
      RequestURI req = URL svc +:+ "/me?x=1").
Proof.
  intros stripPrefix req query.
  assert (Huri : RequestURI req
            = Spec.target (URL svc) route (ReqPath (Req c)) (QueryString (Req c))).
  { subst req stripPrefix. unfold upstreamRequest, RequestURI, targetURL, Spec.target,
      targetPath, Spec.stripped_path.
    assert (Hq : forall base path q : string,
               (if negb (is_empty q) then (base +:+ path) +:+ "?" +:+ q
                else base +:+ path)
               = base +:+ path +:+ (if is_empty q then "" else "?" +:+ q)).
    { intros base path q. destruct q; simpl.
      - f_equal. induction path as [|x path IH]; [done|].
        change (String x path = String x (path +:+ "")). by rewrite <- IH.
      - apply append_assoc. }
    rewrite Hq. do 2 f_equal.
    destruct (StripPrefix route); [|done].
    destruct (Path route) as [|x pre] eqn:Hp; [|done]. simpl.
    destruct (ReqPath (Req c)); [done|reflexivity]. }
  split; [exact Huri|].
  unfold Spec.target, Spec.stripped_path in Huri. fold query in Huri.
  split; [|split; [|split]].
  - intros Hs. by rewrite Hs in Huri.
  - intros rest Hs Hrest. by rewrite Hs, Hrest, TrimPrefix_append in Huri.
  - done.
  - intros Hs Hp Hr Hq. rewrite Huri. subst query. rewrite Hs, Hp, Hr, Hq. reflexivity.
Qed.

Lemma target_url_witness :
  RequestURI (upstreamRequest Sample.up Sample.me "/api/v1/auth")
    = "http://localhost:5000/me?x=1"
  /\ UpMethod (upstreamRequest Sample.up Sample.me "/api/v1/auth") = "GET".
Proof.
  assert (Hpath : ReqPath (Req Sample.me) <> "") by discriminate.
  destruct (target_url Sample.up Sample.me Sample.authRoute Hpath)
    as (_ & _ & _ & Hm & Hex).
  split; [|exact Hm].
  apply Hex; reflexivity.
Defined.

(** C7. [Forward] answers 502 when the service is not in the registry, 503
    when the service is marked unhealthy, 502 with a JSON body of the fields
    [error] and [details] when the call to the upstream fails, and otherwise
    keeps the status code of the upstream response. *)
Theorem forward_status p c serviceName stripPrefix :
  (p !! serviceName = None ->
     StatusCode (Resp (Forward p c serviceName stripPrefix)) = 502)
  /\
  (forall svc, p !! serviceName = Some svc -> Healthy svc = false ->
     StatusCode (Resp (Forward p c serviceName stripPrefix)) = 503)
  /\
  (forall svc err, p !! serviceName = Some svc -> Healthy svc = true ->
     Client svc (upstreamRequest svc c stripPrefix) = inl err ->
     StatusCode (Resp (Forward p c serviceName stripPrefix)) = 502 /\
     RespBody (Resp (Forward p c serviceName stripPrefix))
       = JSON [("error", JStr "upstream request failed"); ("details", JStr err)])
  /\
  (forall svc resp, p !! serviceName = Some svc -> Healthy svc = true ->
     Client svc (upstreamRequest svc c stripPrefix) = inr resp ->
     StatusCode (Resp (Forward p c serviceName stripPrefix)) = UpStatusCode resp /\
     RespBody (Resp (Forward p c serviceName stripPrefix)) = Raw (UpRespBody resp)).
Proof.
  unfold Forward, GetService. split; [|split; [|split]].
  - by intros ->.
  - by intros svc -> ->.
  - intros svc err -> -> Hc. simpl. by rewrite Hc.
  - intros svc resp -> -> Hc. simpl. by rewrite Hc.
Qed.

Lemma forward_status_witness :
  StatusCode (Resp (Forward ∅ Sample.me "auth" "")) = 502
  /\ StatusCode (Resp (Forward {["auth" := Sample.down]} Sample.me "auth" "")) = 503
  /\ RespBody (Resp (Forward {["auth" := Sample.broken]} Sample.me "auth" ""))
     = JSON [("error", JStr "upstream request failed");
             ("details", JStr "dial tcp: connection refused")]
  /\ StatusCode (Resp (Forward {["auth" := Sample.up]} Sample.me "auth" "")) = 201.
Proof.
  split; [|split; [|split]].
  - apply (proj1 (forward_status ∅ Sample.me "auth" "")). reflexivity.
  - apply (proj1 (proj2 (forward_status {["auth" := Sample.down]} Sample.me "auth" ""))
             Sample.down); reflexivity.
  - apply (proj1 (proj2 (proj2 (forward_status {["auth" := Sample.broken]} Sample.me
                                  "auth" ""))) Sample.broken); reflexivity.
  - apply (proj2 (proj2 (proj2 (forward_status {["auth" := Sample.up]} Sample.me
                                  "auth" ""))) Sample.up Sample.reply); reflexivity.
Defined.

End ProxyFacts.

(** ** The rate limiter *)

Section RateLimitFacts.
Import RateLimit.

Lemma Qltb_lt a b : Qltb a b = true <-> (a < b)%Q.
Proof.
  unfold Qltb. rewrite negb_true_iff. split.
  - intros H. apply Qnot_le_lt. intros Hle%Qle_bool_iff. congruence.
  - intros H. destruct (Qle_bool b a) eqn:E; [|done].
    apply Qle_bool_iff in E. exfalso. by apply (Qlt_not_le a b).
Qed.

Lemma min_le_l a b : (min a b <= a)%Q.
Proof.
  unfold min. destruct (Qltb a b) eqn:E; [apply Qle_refl|].
  destruct (Qlt_le_dec a b) as [H|H]; [|done].
  apply Qltb_lt in H. congruence.
Qed.

Lemma min_glb a b c : (c <= a)%Q -> (c <= b)%Q -> (c <= min a b)%Q.
Proof. intros. unfold min. by destruct (Qltb a b). Qed.

Lemma min_le_r a b : (min a b <= b)%Q.
Proof.
  unfold min. destruct (Qltb a b) eqn:E; [|apply Qle_refl].
  apply Qltb_lt in E. by apply Qlt_le_weak.
Qed.

Lemma Seconds_nonneg d : 0 <= d -> (0 <= Time.Seconds d)%Q.
Proof. intros. unfold Time.Seconds, Qle. simpl. lia. Qed.

Lemma float64_nonneg n : 0 <= n -> (0 <= float64 n)%Q.
Proof. intros. unfold float64, Qle. simpl. lia. Qed.

Lemma wrap_int_id z : - 2 ^ 63 <= z < 2 ^ 63 -> wrap_int z = z.
Proof. intros. unfold wrap_int. rewrite Z.mod_small; lia. Qed.

Lemma int_of_float_floor q : (0 <= q)%Q -> int_of_float q = Qfloor q.
Proof.
  destruct q as [n d]. unfold Qle, int_of_float, Qfloor. simpl. intros.
  apply Z.quot_div_nonneg; lia.
Qed.

(** what one call leaves in the bucket of its key and what it reports *)
Lemma allow_returns requests now key rps burst requests' allowed remaining reset :
  allow requests now key rps burst = (requests', Returns (allowed, remaining, reset)) ->
  exists b,
    requests' !! key = Some b /\ lastCheck b = now /\
    ((0 <= tokens b)%Q -> remaining = Qfloor (tokens b)) /\
    reset = Time.Unix (Time.Add now (if allowed then Time.Second
                                     else Z.quot Time.Second rps)).
Proof.
  unfold allow. destruct (requests !! key) as [bucket|] eqn:Hk.
  - set (r := min _ _). destruct (Qle_bool 1 r) eqn:Hr.
    + intros [= <- <- <- <-]. eexists. rewrite lookup_insert_eq.
      split; [done|]. split; [done|]. split; [|done]. simpl.
      intros H. by apply int_of_float_floor.
    + destruct (rps =? 0); [discriminate|]. intros [= <- <- <- <-].
      eexists. rewrite lookup_insert_eq. split; [done|]. split; [done|].
      split; [|done]. simpl. intros Hpos. symmetry.
      assert (Hlt : (r < 1)%Q).
      { apply Qnot_le_lt. intros Hle%Qle_bool_iff. congruence. }
      assert (H0 : 0 <= Qfloor r) by (apply (Qfloor_resp_le 0 r), Hpos).
      assert (H1 : Qfloor r < 1).
      { apply Z.lt_nge. intros Hge. apply (Qlt_not_le r 1 Hlt).
        apply Qle_trans with (inject_Z (Qfloor r)); [|apply Qfloor_le].
        change 1%Q with (inject_Z 1). rewrite <- Zle_Qle. exact Hge. }
      lia.
  - intros [= <- <- <- <-]. eexists. rewrite lookup_insert_eq.
    split; [done|]. split; [done|]. split; [|done]. intros _.
    cbn [tokens]. unfold float64. by rewrite Qfloor_Z.
Qed.

(** one call keeps a bucket within its range, for a burst of at least one *)
Lemma allow_in_range requests now key rps burst :
  1 <= burst < 2 ^ 63 -> 0 <= rps ->
  (forall b, requests !! key = Some b -> Spec.in_range burst b /\ lastCheck b <= now) ->
  exists b, fst (allow requests now key rps burst) !! key = Some b /\
            Spec.in_range burst b /\ lastCheck b = now.
Proof.
  intros Hburst Hrps Hinv. unfold allow.
  destruct (requests !! key) as [bucket|] eqn:Hk.
  - destruct (Hinv bucket eq_refl) as [[Hlo Hhi] Hlast].
    set (r := min _ _).
    assert (Hr0 : (0 <= r)%Q).
    { apply min_glb; [apply float64_nonneg; lia|].
      assert (He : (0 <= Time.Seconds (Time.Sub now (lastCheck bucket)))%Q)
        by (apply Seconds_nonneg; unfold Time.Sub; lia).
      pose proof (float64_nonneg rps Hrps) as Hf.
      pose proof (Qmult_le_0_compat _ _ He Hf). lra. }
    assert (Hrb : (r <= inject_Z burst)%Q) by apply min_le_l.
    destruct (Qle_bool 1 r) eqn:H1.
    + apply Qle_bool_iff in H1. simpl. eexists. rewrite lookup_insert_eq.
      split; [done|]. split; [|done]. unfold Spec.in_range. simpl. lra.
    + assert (Hsame : forall o : Outcome (bool * Z * Z),
                 fst (<[key := {| tokens := r; lastCheck := now |}]> requests, o)
                 = <[key := {| tokens := r; lastCheck := now |}]> requests) by done.
      destruct (rps =? 0); rewrite Hsame, lookup_insert_eq; eexists;
        (split; [done|]); (split; [|done]); unfold Spec.in_range; simpl; lra.
  - simpl. eexists. rewrite lookup_insert_eq. split; [done|]. split; [|done].
    unfold Spec.in_range, int_sub, float64. simpl.
    rewrite wrap_int_id by lia. unfold Qle. simpl. lia.
Qed.

(** I4 for a burst of at least one, a rate that is not negative and a clock
    that does not run backwards: after every call of a sequence that starts
    with the creation of the bucket, its tokens lie in [0, burst] *)
Lemma bucket_in_range requests key rps burst from clock b :
  1 <= burst < 2 ^ 63 -> 0 <= rps ->
  requests !! key = None -> ascending from clock ->
  calls requests key rps burst clock !! key = Some b -> Spec.in_range burst b.
Proof.
  intros Hburst Hrps Hnew Hasc.
  assert (Hinv : forall b0, requests !! key = Some b0 ->
                            Spec.in_range burst b0 /\ lastCheck b0 <= from)
    by (intros b0; rewrite Hnew; discriminate).
  clear Hnew. revert requests from Hinv Hasc b.
  induction clock as [|now rest IH]; intros requests from Hinv Hasc b; simpl.
  - intros Hb. by destruct (Hinv b Hb).
  - destruct Hasc as [Hle Hasc].
    destruct (allow_in_range requests now key rps burst Hburst Hrps) as (b1 & Hb1 & Hr1 & Hl1).
    { intros b0 Hb0. destruct (Hinv b0 Hb0). split; [done|lia]. }
    apply (IH _ now); [|done].
    intros b0 Hb0. rewrite Hb1 in Hb0. injection Hb0 as <-. split; [done|lia].
Qed.

(** the script of the shared store takes a new key through the test of
    [tokens >= 1]: with a burst of zero it denies and stores zero tokens *)
Lemma script_denies_at_zero_burst :
  exists store',
    script ∅ "k" 1 0 10 = (store', (0, 0, Some (11 # 1))) /\
    tokens <$> store' !! "k" = Some (0 # 1).
Proof. eexists. split; vm_compute; reflexivity. Qed.

(** C3. The first call for a key stores [burst - 1] tokens without a look
    at [burst]: with [burst = 0] the bucket holds -1 tokens after the call,
    outside [0, burst]; a call half a second later still finds it below 0. *)
Theorem bucket_range_broken_at_zero_burst :
  exists b,
    calls ∅ "k" 1 0 [Sample.t10] !! "k" = Some b /\
    (tokens b == -1)%Q /\ ~ Spec.in_range 0 b /\
    snd (allow ∅ Sample.t10 "k" 1 0) = Returns (true, -1, 11) /\
    exists b', calls ∅ "k" 1 0 [Sample.t10; Sample.t10 + 500000000] !! "k" = Some b'
               /\ ~ Spec.in_range 0 b'.
Proof.
  eexists. split; [vm_compute; reflexivity|]. split; [reflexivity|].
  split; [intros [H _]; vm_compute in H; by apply H|].
  split; [vm_compute; reflexivity|].
  eexists. split; [vm_compute; reflexivity|].
  intros [H _]. vm_compute in H. by apply H.
Qed.

(** C10. The first call for a key that has no bucket is allowed whatever
    [burst] is; the bucket is created with [burst - 1] tokens and the call
    reports [burst - 1] remaining ([int] arithmetic, exact unless [burst]
    is the least [int]); for [burst = 0] the request is allowed and the
    stored count is negative. *)
Theorem first_call_allowed requests now key rps burst
    (Hnew : requests !! key = None) :
  exists requests' reset,
    allow requests now key rps burst
      = (requests', Returns (true, int_sub burst 1, reset)) /\
    requests' !! key
      = Some {| tokens := float64 (int_sub burst 1); lastCheck := now |} /\
    (- 2 ^ 63 < burst < 2 ^ 63 -> int_sub burst 1 = burst - 1) /\
    (burst = 0 -> (float64 (int_sub burst 1) < 0)%Q).
Proof.
  unfold allow. rewrite Hnew. do 2 eexists. split; [done|].
  rewrite lookup_insert_eq. split; [done|]. split.
  - intros. unfold int_sub. apply wrap_int_id. lia.
  - intros ->. reflexivity.
Qed.

Lemma first_call_allowed_witness :
  exists requests' reset,
    allow ∅ Sample.t10 "k" 1 0 = (requests', Returns (true, int_sub 0 1, reset)) /\
    requests' !! "k"
      = Some {| tokens := float64 (int_sub 0 1); lastCheck := Sample.t10 |} /\
    (float64 (int_sub 0 1) < 0)%Q.
Proof.
  destruct (first_call_allowed ∅ Sample.t10 "k" 1 0 (lookup_empty _))
    as (requests' & reset & H1 & H2 & _ & H4).
  exists requests', reset. split; [exact H1|]. split; [exact H2|]. by apply H4.
Defined.

(** only a rate of zero makes a call panic *)
Lemma allow_returns_some requests now key rps burst :
  rps <> 0 -> exists r, snd (allow requests now key rps burst) = Returns r.
Proof.
  intros Hrps. unfold allow.
  destruct (requests !! key) as [bucket|]; [|by eexists].
  destruct (Qle_bool 1 _); [by eexists|].
  destruct (rps =? 0) eqn:E; [lia|by eexists].
Qed.

(** C9. With [rps = 0] a call that reaches the denial branch divides one
    second by zero and panics instead of returning, and such a call exists;
    with [rps >= 1] every call returns. *)
Theorem allow_total_from_one_rps :
  (forall requests now key burst bucket,
      requests !! key = Some bucket ->
      Qle_bool 1 (Spec.refilled bucket 0 burst now) = false ->
      snd (allow requests now key 0 burst) = Panics)
  /\
  snd (allow (fst (allow ∅ Sample.t10 "k" 0 1)) Sample.t10 "k" 0 1) = Panics
  /\
  (forall requests now key rps burst,
      1 <= rps -> exists r, snd (allow requests now key rps burst) = Returns r).
Proof.
  split; [|split].
  - intros requests now key burst bucket Hk Hden. unfold allow. rewrite Hk.
    unfold Spec.refilled in Hden. unfold float64. by rewrite Hden.
  - vm_compute. reflexivity.
  - intros requests now key rps burst Hrps. apply allow_returns_some. lia.
Qed.

Lemma allow_total_from_one_rps_witness :
  snd (allow {["k" := {| tokens := 0; lastCheck := Sample.t10 |}]} Sample.t10 "k" 0 1)
    = Panics
  /\ exists r, snd (allow {["k" := {| tokens := 0; lastCheck := Sample.t10 |}]}
                       Sample.t10 "k" 1 1) = Returns r.
Proof.
  split.
  - apply (proj1 allow_total_from_one_rps _ Sample.t10 "k" 1
             {| tokens := 0; lastCheck := Sample.t10 |}); reflexivity.
  - apply (proj2 (proj2 allow_total_from_one_rps)). lia.
Defined.

Lemma same_key_trans k1 k2 k3 :
  Header.same_key k1 k2 = true -> Header.same_key k1 k3 = true ->
  Header.same_key k2 k3 = true.
Proof.
  unfold Header.same_key. rewrite !EqualFold_eq. congruence.
Qed.

Lemma Peek_Set_eq (h : Header.t) k v : Header.Peek (Header.Set_ h k v) k = v.
Proof.
  induction h as [|[k0 v0] h IH]; simpl.
  - unfold Header.same_key. by rewrite EqualFold_refl.
  - destruct (Header.same_key k0 k) eqn:E; simpl; by rewrite E.
Qed.

Lemma Peek_Set_ne (h : Header.t) k v k' :
  Header.same_key k k' = false ->
  Header.Peek (Header.Set_ h k v) k' = Header.Peek h k'.
Proof.
  intros Hne. induction h as [|[k0 v0] h IH]; simpl.
  - by rewrite Hne.
  - destruct (Header.same_key k0 k) eqn:E; simpl.
    + destruct (Header.same_key k0 k') eqn:E'; [|done].
      by rewrite (same_key_trans _ _ _ E E') in Hne.
    + by rewrite IH.
Qed.

(** the bucket of [Sample.busy] is what a first request at [t10] leaves *)
Lemma busy_reached :
  fst (Middleware (Sample.limiter 2 1 ∅) Spec.done Sample.users Sample.t10)
  = Sample.busy.
Proof. vm_compute. reflexivity. Qed.

(** C4, as stated, fails: a request denied at 10.0 s with two tokens a
    second gets [X-RateLimit-Reset: 10], the second of the half second
    later at which the next token arrives, and at 10 s no token is there. *)
Lemma rate_limit_reset_not_token_instant :
  ~ Spec.rate_limit_headers Sample.busy Sample.users Sample.t10.
Proof.
  intros H.
  edestruct H as (b & reset & Hb & _ & _ & Hreset & Hav);
    [vm_compute; reflexivity|].
  vm_compute in Hb. injection Hb as <-.
  assert (Hten : pretty reset = pretty 10).
  { rewrite <- Hreset. vm_compute. reflexivity. }
  apply (inj pretty) in Hten. subst reset.
  vm_compute in Hav. by apply Hav.
Qed.

(** C4, amended. With limiting enabled and [rps >= 1], a request decided by
    the in-process limiter is answered: the context handed on (allowed) or
    returned with status 429 (denied) carries [X-RateLimit-Limit = rps],
    [X-RateLimit-Remaining], which is the floor of the tokens left in the
    bucket whenever these are not negative, and [X-RateLimit-Reset], the
    second (rounded down) of [now + 1s] when allowed and of
    [now + 1s / rps] when denied. *)
Theorem rate_limit_headers_set rl next c now
    (Hen : RateLimit_Enabled (cfg rl) = true)
    (Hrps : 1 <= fst (limits rl c))
    (Hloc : Spec.decided_locally rl c now) :
  exists (rl' : RateLimiter) (allowed : bool) (remaining reset : Z)
         (b : rateBucket) (c3 : Ctx),
    Middleware rl next c now
      = (rl', Returns (if allowed then next c3 else tooManyRequests c3 reset now)) /\
    (forall c', c' = c3 \/ c' = fst (tooManyRequests c3 reset now) ->
       Fiber.GetRespHeader c' "X-RateLimit-Limit" = pretty (fst (limits rl c)) /\
       Fiber.GetRespHeader c' "X-RateLimit-Remaining" = pretty remaining /\
       Fiber.GetRespHeader c' "X-RateLimit-Reset" = pretty reset) /\
    StatusCode (Resp (fst (tooManyRequests c3 reset now))) = 429 /\
    local rl' !! createKey c = Some b /\
    ((0 <= tokens b)%Q -> remaining = Qfloor (tokens b)) /\
    reset = Time.Unix (Time.Add now (if allowed then Time.Second
                                     else Z.quot Time.Second (fst (limits rl c)))).
Proof.
  unfold Middleware. rewrite Hen. simpl negb. cbv iota.
  unfold Spec.decided_locally in Hloc.
  destruct (limits rl c) as [rps burst] eqn:Hlim. simpl in Hrps, Hloc.
  assert (Hall : limiter_allow rl now (createKey c) rps burst
                 = local_allow rl now (createKey c) rps burst).
  { unfold limiter_allow, redisAllow. destruct (redis rl); [by rewrite Hloc|done]. }
  rewrite Hall. unfold local_allow.
  destruct (allow (local rl) now (createKey c) rps burst) as [requests' out] eqn:Ha.
  destruct out as [[[allowed remaining] reset]|].
  - destruct (allow_returns _ _ _ _ _ _ _ _ _ Ha) as (b & Hb & _ & Hrem & Hres).
    exists (with_local rl requests'), allowed, remaining, reset, b.
    eexists. split; [by destruct allowed|].
    split; [|split; [done|split; [done|split; [done|exact Hres]]]].
    intros c' [-> | ->]; unfold Fiber.GetRespHeader; simpl;
      rewrite ?(Peek_Set_ne _ "Content-Type") by (vm_compute; reflexivity);
      rewrite Peek_Set_eq;
      rewrite !Peek_Set_ne by (vm_compute; reflexivity);
      rewrite !Peek_Set_eq;
      (split; [done|]); split; try done;
      by rewrite !Peek_Set_ne, Peek_Set_eq by (vm_compute; reflexivity).
  - exfalso. destruct (allow_returns_some (local rl) now (createKey c) rps burst)
      as [r Hr]; [lia|].
    rewrite Ha in Hr. discriminate.
Qed.

(** S2, the request after the burst: the limit is on the response *)
Lemma rate_limit_headers_set_witness :
  exists c3 : Ctx, Fiber.GetRespHeader c3 "X-RateLimit-Limit" = "2".
Proof.
  assert (Hrps : 1 <= fst (limits Sample.busy Sample.users))
    by (vm_compute; discriminate).
  destruct (rate_limit_headers_set Sample.busy Spec.done Sample.users Sample.t10
              eq_refl Hrps I)
    as (rl' & allowed & remaining & reset & b & c3 & _ & Hh & _).
  exists c3. destruct (Hh c3 (or_introl eq_refl)) as (H1 & _). exact H1.
Defined.

End RateLimitFacts.

(** ** The circuit breaker *)

Section CircuitFacts.
Import Strings Gobreaker Circuit.

Lemma currentState_closed cb now :
  state cb = StateClosed ->
  state (currentState cb now) = StateClosed /\
  readyToTrip (currentState cb now) = readyToTrip cb.
Proof.
  intros Hc. unfold currentState. rewrite Hc.
  destruct (expiry cb) as [t|]; [|done].
  by destruct (Time.Before t now).
Qed.

(** a closed breaker stays closed through an observation at which the trip
    predicate does not hold *)
Lemma observe_closed cb now done ok :
  state cb = StateClosed ->
  (forall cs, seen cb now done ok = Some cs -> readyToTrip cb cs = false) ->
  state (observe cb now done ok) = StateClosed /\
  readyToTrip (observe cb now done ok) = readyToTrip cb.
Proof.
  intros Hc Hseen. unfold observe, Execute, seen, beforeRequest in *.
  destruct (currentState_closed cb now Hc) as [Hc1 Hr1].
  rewrite Hc1 in *. cbn [fst snd] in *.
  set (cb2 := with_counts (currentState cb now) _) in *.
  assert (Hc2 : state cb2 = StateClosed) by done.
  assert (Hr2 : readyToTrip cb2 = readyToTrip cb) by done.
  destruct (currentState_closed cb2 done Hc2) as [Hc3 Hr3].
  unfold afterRequest. set (cb3 := currentState cb2 done) in *.
  destruct (generation cb3 =? generation (currentState cb now)); simpl.
  - destruct ok; simpl.
    + unfold breaker_onSuccess. rewrite Hc3. simpl. split; [done|congruence].
    + unfold breaker_onFailure. rewrite Hc3. cbn [readyToTrip with_counts counts].
      rewrite Hr3, Hr2, (Hseen _ eq_refl). simpl. split; [done|congruence].
  - split; [done|congruence].
Qed.

Lemma observations_closed cb obs :
  state cb = StateClosed -> never_ready cb obs ->
  state (observations cb obs) = StateClosed.
Proof.
  revert cb. induction obs as [|[[now fin] ok] rest IH]; intros cb Hc Hn; [done|].
  simpl in *. destruct Hn as [Hseen Hrest].
  destruct (observe_closed cb now fin ok Hc Hseen) as [Hc' _]. by apply IH.
Qed.

(** a closed breaker opens at a failure on which the trip predicate holds *)
Lemma observe_trips cb now done cs :
  state cb = StateClosed -> seen cb now done false = Some cs ->
  readyToTrip cb cs = true -> state (observe cb now done false) = StateOpen.
Proof.
  intros Hc Hseen Hready. unfold observe, Execute, seen, beforeRequest in *.
  destruct (currentState_closed cb now Hc) as [Hc1 Hr1].
  rewrite Hc1 in *. cbn [fst snd] in *.
  set (cb2 := with_counts (currentState cb now) _) in *.
  assert (Hc2 : state cb2 = StateClosed) by done.
  assert (Hr2 : readyToTrip cb2 = readyToTrip cb) by done.
  destruct (currentState_closed cb2 done Hc2) as [Hc3 Hr3].
  unfold afterRequest. set (cb3 := currentState cb2 done) in *.
  destruct (generation cb3 =? generation (currentState cb now)); [|discriminate].
  injection Hseen as <-. simpl.
  unfold breaker_onFailure. rewrite Hc3. cbn [readyToTrip with_counts counts].
  rewrite Hr3, Hr2, Hready. unfold setState. cbn [state with_counts].
  rewrite Hc3. done.
Qed.

(** the closure of [GetBreaker] is the condition of §4.4 once a request has
    been counted *)
Lemma ReadyToTrip_spec cfg counts :
  0 < Requests counts ->
  ReadyToTrip cfg counts = true <-> Spec.trip_condition (FailureThreshold cfg) counts.
Proof.
  intros Hreq. unfold ReadyToTrip, Spec.trip_condition, fdiv.
  destruct (Requests counts =? 0) eqn:E; [lia|].
  rewrite andb_true_iff, Z.leb_le. simpl. by rewrite Qle_bool_iff.
Qed.

(** C2. For the breaker that [GetBreaker] creates with
    [failure_threshold = N]: once a request is counted, the trip predicate
    holds on the counters exactly when [requests >= N] and
    [failures / requests >= 0.5]; through any sequence of successes and
    failures at none of which the predicate holds the breaker stays Closed;
    and at a failure at which it holds the closed breaker opens. *)
Theorem breaker_trips_on_predicate cfg serviceName t0 counts
    (Hreq : 0 < Requests counts) :
  let cb0 := NewCircuitBreaker (settings cfg serviceName) t0 in
  (readyToTrip cb0 counts = true
   <-> Spec.trip_condition (FailureThreshold cfg) counts)
  /\
  (forall obs, never_ready cb0 obs -> state (observations cb0 obs) = StateClosed)
  /\
  (forall obs now done cs,
      state (observations cb0 obs) = StateClosed ->
      seen (observations cb0 obs) now done false = Some cs ->
      readyToTrip (observations cb0 obs) cs = true ->
      state (observe (observations cb0 obs) now done false) = StateOpen).
Proof.
  intros cb0. split; [|split].
  - by apply ReadyToTrip_spec.
  - intros obs. by apply observations_closed.
  - intros obs now done cs. apply observe_trips.
Qed.

(** S3: the fifth 500 in a row opens the breaker *)
Lemma breaker_trips_on_predicate_witness :
  Spec.trip_condition 5 Sample.fiveFailures /\
  state (observations Sample.notifier Sample.fourCalls) = StateClosed /\
  state (observe (observations Sample.notifier Sample.fourCalls) 9 10 false) = StateOpen.
Proof.
  assert (Hreq : 0 < Requests Sample.fiveFailures) by (simpl; lia).
  destruct (breaker_trips_on_predicate Sample.circuit "notifier" 0
              Sample.fiveFailures Hreq) as (H1 & H2 & H3).
  split; [|split].
  - apply H1. vm_compute. reflexivity.
  - apply H2. repeat split; intros cs Hcs; vm_compute in Hcs;
      injection Hcs as <-; vm_compute; reflexivity.
  - apply (H3 Sample.fourCalls 9 10 Sample.fiveFailures); vm_compute; reflexivity.
Defined.

(** the guards of the middleware, spelled out *)
Lemma guarded_spec m c :
  is_Some (guarded m c) <-> Spec.breaker_applies_by_default m c.
Proof.
  unfold guarded, Spec.breaker_applies_by_default. split.
  - intros [s Hs]. destruct (Circuit_Enabled (cfg m)); [|discriminate].
    split; [done|]. simpl in Hs.
    destruct (Locals c !! "service") as [[| name | |]|] eqn:Hsvc; try discriminate.
    destruct (is_empty name) eqn:He; [discriminate|].
    destruct (String.eqb name "gateway") eqn:Hg; [discriminate|]. simpl in Hs.
    exists name. split; [done|]. split.
    { intros ->. discriminate. }
    split.
    { intros ->. discriminate. }
    intros route Hr. rewrite Hr in Hs.
    by destruct (CircuitBreaker route).
  - intros [-> (name & -> & Hne & Hng & Hroute)]. simpl.
    destruct (is_empty name) eqn:He; [by apply is_empty_true in He|].
    destruct (String.eqb name "gateway") eqn:Hg; [by apply String.eqb_eq in Hg|].
    simpl. destruct (Locals c !! "route") as [[| | route |]|] eqn:Hr; try done.
    by rewrite (Hroute route eq_refl).
Qed.

Lemma unavailable_reply c kind message serviceName :
  StatusCode (Resp (unavailable c kind message serviceName)) = 503 /\
  RespBody (Resp (unavailable c kind message serviceName))
    = JSON [("error", JStr kind); ("message", JStr message);
            ("service", JStr serviceName)].
Proof. done. Qed.

(** the breaker of Sample.routeless has counted the call *)
Lemma routeless_counted :
  (fun cb => Requests (counts cb))
    <$> breakers (fst (Middleware Sample.manager Sample.failing
                         Sample.routeless 1 2)) !! "auth"
  = Some 1.
Proof. vm_compute. reflexivity. Qed.

(** C5, as stated, fails: a context that names the service and carries no
    route is taken through the breaker, with no route that asks for it. *)
Lemma breaker_applied_without_route :
  ~ (is_Some (guarded Sample.manager Sample.routeless)
     <-> Spec.breaker_applies Sample.manager Sample.routeless).
Proof.
  intros [H _]. destruct H as (_ & s & r & _ & _ & _ & Hr & _).
  - vm_compute. eauto.
  - vm_compute in Hr. discriminate.
Qed.

(** C5, amended. The middleware takes the downstream call through the
    breaker exactly when breaking is enabled, the service name of the context
    is set, not empty and not [gateway], and the context carries no route or
    a route with [circuit_breaker = true]; otherwise it calls the rest of the
    chain directly.  A call refused because the breaker is Open is answered
    503 [service_unavailable], a call refused because the half-open breaker
    has admitted [max_requests] is answered 503 [too_many_requests]. *)
Theorem breaker_middleware m next c now fin :
  (is_Some (guarded m c) <-> Spec.breaker_applies_by_default m c)
  /\
  (guarded m c = None -> Middleware m next c now fin = (m, next c))
  /\
  (forall serviceName, guarded m c = Some serviceName ->
     let cb := currentState (snd (GetBreaker m serviceName now)) now in
     let reply := fst (snd (Middleware m next c now fin)) in
     is_Some (breakers (fst (Middleware m next c now fin)) !! serviceName)
     /\
     (state cb = StateOpen ->
        StatusCode (Resp reply) = 503 /\
        RespBody (Resp reply)
          = JSON [("error", JStr "service_unavailable");
                  ("message",
                   JStr "Service temporarily unavailable, please try again later");
                  ("service", JStr serviceName)])
     /\
     (state cb = StateHalfOpen -> maxRequests cb <= Requests (counts cb) ->
        StatusCode (Resp reply) = 503 /\
        RespBody (Resp reply)
          = JSON [("error", JStr "too_many_requests");
                  ("message", JStr "Service is recovering, please try again");
                  ("service", JStr serviceName)])).
Proof.
  split; [apply guarded_spec|]. split.
  - intros Hg. unfold Middleware. by rewrite Hg.
  - intros serviceName Hg cb reply. subst cb reply. unfold Middleware. rewrite Hg.
    destruct (GetBreaker m serviceName now) as [m1 cb1]. cbn [snd].
    split.
    { destruct (Execute cb1 now fin (request next c)) as [[cb2 ran] err].
      assert (Hin : is_Some (<[serviceName := cb2]> (breakers m1) !! serviceName))
        by (rewrite lookup_insert_eq; eauto).
      destruct err as [[| | |]|]; exact Hin. }
    unfold Execute, beforeRequest. split.
    + intros Hopen. rewrite Hopen. cbn. done.
    + intros Hhalf Hfull. rewrite Hhalf.
      apply Z.leb_le in Hfull. rewrite Hfull. cbn. done.
Qed.

(** S3: after five 500s the sixth call is answered 503 by the breaker *)
Lemma breaker_middleware_witness :
  StatusCode (Resp (fst (snd (Middleware Sample.tripped Sample.failing
                                Sample.routed 11 12)))) = 503.
Proof.
  destruct (breaker_middleware Sample.tripped Sample.failing Sample.routed 11 12)
    as (_ & _ & H).
  destruct (H "auth") as (_ & Hopen & _); [vm_compute; reflexivity|].
  apply Hopen. vm_compute. reflexivity.
Defined.

End CircuitFacts.

(** ** The authenticator *)

Section AuthFacts.
Import Strings Auth.

Variable decode : string -> option Jwt.Unverified.

Lemma length_append (a b : string) :
  String.length (a +:+ b) = (String.length a + String.length b)%nat.
Proof.
  induction a as [|x a IH]; [done|].
  change (S (String.length (a +:+ b)) = S (String.length a + String.length b)).
  by rewrite IH.
Qed.

Lemma bearer_token_differs token : String.eqb token ("Bearer " +:+ token) = false.
Proof.
  apply String.eqb_neq. intros H. apply (f_equal String.length) in H.
  rewrite length_append in H. simpl in H. lia.
Qed.

Lemma unauthorized_reply c message :
  StatusCode (Resp (fst (unauthorized c message))) = 401 /\
  RespBody (Resp (fst (unauthorized c message)))
    = JSON [("error", JStr "unauthorized"); ("message", JStr message)].
Proof. done. Qed.

(** an expiry that is not after the clock is refused, by the library's
    validation or by the check of [validateToken] *)
Lemma validateToken_expired token secret now u :
  decode token = Some u -> Spec.expired u now ->
  exists err, validateToken decode token secret now = inl err.
Proof.
  intros Hd (exp & Hexp & Hle). unfold validateToken, Jwt.ParseWithClaims.
  rewrite Hd. destruct (keyFunc secret (Jwt.U_Method u)); [by eexists|].
  destruct (Jwt.U_Verify u s); simpl; [|by eexists].
  unfold Jwt.Validate. rewrite Hexp.
  assert (Time.Before now exp = false) as -> by (unfold Time.Before; lia).
  simpl. by eexists.
Qed.

Lemma validateToken_accepts token secret now u :
  decode token = Some u -> Spec.validly_signed u secret ->
  ~ Spec.expired u now -> ~ Spec.premature u now ->
  validateToken decode token secret now = inr (Jwt.U_Claims u).
Proof.
  intros Hd [[alg Halg] Hsig] Hexp Hnbf.
  unfold validateToken, Jwt.ParseWithClaims. rewrite Hd, Halg. simpl.
  rewrite Hsig. simpl. unfold Jwt.Validate.
  assert (Hv1 : match ExpiresAt (Jwt.U_Claims u) with
                | Some exp => Time.Before now exp
                | None => true
                end = true).
  { destruct (ExpiresAt (Jwt.U_Claims u)) as [exp|] eqn:E; [|done].
    unfold Time.Before. apply Z.ltb_lt.
    destruct (Z_lt_le_dec now exp); [done|]. exfalso. apply Hexp. by exists exp. }
  assert (Hv2 : match NotBefore (Jwt.U_Claims u) with
                | Some nbf => negb (Time.Before now nbf)
                | None => true
                end = true).
  { destruct (NotBefore (Jwt.U_Claims u)) as [nbf|] eqn:E; [|done].
    unfold Time.Before. apply negb_true_iff, Z.ltb_ge.
    destruct (Z_lt_le_dec now nbf); [|done]. exfalso. apply Hnbf. by exists nbf. }
  rewrite Hv1, Hv2. simpl.
  destruct (ExpiresAt (Jwt.U_Claims u)) as [exp|] eqn:E; [|done].
  assert (Time.Before exp now = false) as ->; [|done].
  unfold Time.Before in *. apply Z.ltb_lt in Hv1. lia.
Qed.

Lemma guards_of_config secret routes c :
  Spec.has_skip_prefix (ReqPath (Req c)) = false ->
  Spec.exempt routes c = false ->
  skipped (config secret routes) (ReqPath (Req c)) = false /\
  markedPublic c = false /\
  publicPath (config secret routes) (ReqPath (Req c)) (Method (Req c)) = false.
Proof.
  unfold Spec.exempt. intros Hs [Hm Hp]%orb_false_iff. done.
Qed.

Lemma find_snoc {A} (p : A -> bool) (l : list A) (x : A) :
  find p (l ++ [x])
  = match find p l with
    | Some y => Some y
    | None => if p x then Some x else None
    end.
Proof.
  induction l as [|y l IH]; simpl; [done|]. by destruct (p y).
Qed.

(** the table of public paths, read off the routes: a later public route
    with the same path replaces an earlier one *)
Lemma publicPaths_lookup routes path :
  publicPaths routes !! path = Methods <$> Spec.listed_route routes path.
Proof.
  unfold publicPaths, Spec.listed_route.
  assert (H : forall acc : gmap string (list string),
             fold_left (fun acc route =>
                          if Public route then <[Path route := Methods route]> acc
                          else acc) routes acc !! path
             = match find (fun route => Public route && String.eqb (Path route) path)
                          (rev routes) with
               | Some route => Some (Methods route)
               | None => acc !! path
               end).
  { induction routes as [|r routes IH]; intros acc; [done|].
    cbn [fold_left rev]. rewrite IH, find_snoc.
    destruct (find _ (rev routes)); [done|].
    destruct (Public r); cbn [andb]; [|done].
    destruct (String.eqb_spec (Path r) path) as [->|Hne].
    - by rewrite lookup_insert_eq.
    - by rewrite lookup_insert_ne. }
  rewrite H, lookup_empty. by destruct (find _ (rev routes)).
Qed.

Lemma exempt_listed routes c :
  Spec.exempt routes c
  = markedPublic c || Spec.listed routes (ReqPath (Req c)) (Method (Req c)).
Proof.
  unfold Spec.exempt, Spec.listed, publicPath. f_equal.
  change (PublicPaths (config "" routes)) with (publicPaths routes).
  rewrite publicPaths_lookup. by destruct (Spec.listed_route _ _).
Qed.

(** the default table resolves [POST /api/v1/auth/login] to the route
    [/api/v1/auth], which is declared first and is not public *)
Lemma login_route :
  Public <$> Router.GetRouteForPath Config.DefaultRoutes "/api/v1/auth/login" "POST"
  = Some false /\
  Path <$> Router.GetRouteForPath Config.DefaultRoutes "/api/v1/auth/login" "POST"
  = Some "/api/v1/auth".
Proof. split; reflexivity. Qed.

(** a token signed with the secret, without expiry, that is not to be used
    before second 20 is answered 401 at second 10 *)
Lemma signed_token_refused_before_time :
  ~ Spec.signed_token_passes Sample.decode "s3cret" [Sample.usersRoute]
      Spec.done (Sample.bearer "early") Sample.t10.
Proof.
  intros H.
  specialize (H eq_refl eq_refl "early" _ eq_refl eq_refl).
  assert (Hsigned : Spec.validly_signed
                      (Sample.signed (Sample.claims None (Some (20 * Time.Second))))
                      "s3cret").
  { split; [by eexists|reflexivity]. }
  assert (Hlive : ~ Spec.expired
                      (Sample.signed (Sample.claims None (Some (20 * Time.Second))))
                      Sample.t10).
  { intros (exp & Hexp & _). discriminate. }
  specialize (H Hsigned Hlive). vm_compute in H. discriminate.
Qed.

(** [POST /api/v1/auth/login] of the default table has no skip prefix, its
    route is not public, it carries no Authorization header, and the
    authenticator lets it pass *)
Lemma login_passes_without_header :
  ~ Spec.missing_header_refused Sample.decode "s3cret" Config.DefaultRoutes
      Spec.done Sample.login Sample.t10.
Proof.
  intros H. destruct (H eq_refl eq_refl eq_refl) as [Hstatus _].
  vm_compute in Hstatus. discriminate.
Qed.

(** C8, as stated, fails twice.  Its first clause fails where the route of
    the request is not public and the authenticator's own table holds the
    exact path; its last clause fails for a token that is not yet to be
    used. *)
Lemma authenticator_contract_refuted :
  ~ Spec.missing_header_refused Sample.decode "s3cret" Config.DefaultRoutes
      Spec.done Sample.login Sample.t10
  /\
  ~ Spec.signed_token_passes Sample.decode "s3cret" [Sample.usersRoute]
      Spec.done (Sample.bearer "early") Sample.t10.
Proof.
  split; [exact login_passes_without_header|exact signed_token_refused_before_time].
Qed.

(** C8, amended. For a request whose path has no skip prefix: the
    authenticator lets it pass, whatever its Authorization header, when the
    context carries the public mark or when the exact path of the request is
    the path of a public route whose methods hold its method up to letter
    case, by the public route with that path that is declared last.  In every
    other case it answers 401 [unauthorized] when the Authorization header
    is missing, when it does not start with [Bearer ], and when the token's
    expiry time is not after the current time; a bearer token that is
    validly signed, not expired and whose not-before time, if it has one, is
    not after the current time passes, with its claims on the context. *)
Theorem auth_requires_bearer secret routes next c now
    (Hskip : Spec.has_skip_prefix (ReqPath (Req c)) = false) :
  let authHeader := Fiber.Get c "Authorization" in
  let reply := NewAuthMiddleware decode secret routes next c now in
  (Spec.exempt routes c
   = markedPublic c || Spec.listed routes (ReqPath (Req c)) (Method (Req c)))
  /\
  (Spec.exempt routes c = true -> reply = next c)
  /\
  (Spec.exempt routes c = false ->
   (authHeader = "" -> Spec.refused reply)
   /\
   (HasPrefix authHeader "Bearer " = false -> Spec.refused reply)
   /\
   (forall token u,
       authHeader = "Bearer " +:+ token -> decode token = Some u ->
       Spec.expired u now -> Spec.refused reply)
   /\
   (forall token u,
       authHeader = "Bearer " +:+ token -> decode token = Some u ->
       Spec.validly_signed u secret ->
       ~ Spec.expired u now -> ~ Spec.premature u now ->
       let c' := authenticated (config secret routes) c (Jwt.U_Claims u) in
       reply = next c' /\
       Locals c' !! "user" = Some (LClaims (Jwt.U_Claims u)) /\
       Locals c' !! "user_id" = Some (LString (UserID (Jwt.U_Claims u))) /\
       Locals c' !! "tenant_id" = Some (LString (TenantID (Jwt.U_Claims u))))).
Proof.
  intros authHeader reply.
  split; [apply exempt_listed|]. split.
  - intros Hex. subst reply. unfold NewAuthMiddleware, Auth.
    assert (Hs : skipped (config secret routes) (ReqPath (Req c)) = false) by exact Hskip.
    rewrite Hs. unfold Spec.exempt in Hex.
    destruct (markedPublic c); [done|]. cbn [orb] in Hex.
    change (publicPath (config "" routes) (ReqPath (Req c)) (Method (Req c)))
      with (publicPath (config secret routes) (ReqPath (Req c)) (Method (Req c))) in Hex.
    by rewrite Hex.
  - intros Hex.
    destruct (guards_of_config secret routes c Hskip Hex) as (Hs & Hm & Hp).
    subst reply. unfold Spec.refused, NewAuthMiddleware, Auth.
    rewrite Hs, Hm, Hp.
    change (Fiber.Get c (HeaderName (config secret routes))) with authHeader.
    change (TokenPrefix (config secret routes)) with "Bearer ".
    split; [|split; [|split]].
    + intros ->. simpl. eauto.
    + intros Hpre. destruct (is_empty authHeader); [simpl; eauto|].
      unfold TrimPrefix. rewrite Hpre, String.eqb_refl. simpl. eauto.
    + intros token u -> Hd Hexp. simpl is_empty. cbv iota.
      rewrite TrimPrefix_append, bearer_token_differs.
      destruct (validateToken_expired token (JWTSecret (config secret routes)) now u
                  Hd Hexp) as [err ->].
      simpl. eauto.
    + intros token u -> Hd Hsig Hexp Hnbf. simpl is_empty. cbv iota.
      rewrite TrimPrefix_append, bearer_token_differs.
      rewrite (validateToken_accepts token (JWTSecret (config secret routes)) now u
                 Hd Hsig Hexp Hnbf).
      split; [done|]. unfold authenticated.
      destruct (Roles (Jwt.U_Claims u)); simpl; by simplify_map_eq.
Qed.

End AuthFacts.

(** the tokens of the sample at second 10: no header, a basic-auth header
    and the stale token are refused, the fresh token passes; and the login
    request of the default table passes without a header *)
Lemma auth_requires_bearer_witness :
  StatusCode (Resp (fst (Auth.NewAuthMiddleware Sample.decode "s3cret"
                           [Sample.usersRoute] Spec.done Sample.users Sample.t10)))
    = 401
  /\ StatusCode (Resp (fst (Auth.NewAuthMiddleware Sample.decode "s3cret"
                           [Sample.usersRoute] Spec.done (Sample.bearer "stale")
                           Sample.t10))) = 401
  /\ Locals (fst (Auth.NewAuthMiddleware Sample.decode "s3cret"
                    [Sample.usersRoute] Spec.done (Sample.bearer "fresh")
                    Sample.t10)) !! "user_id" = Some (LString "u-1")
  /\ Auth.NewAuthMiddleware Sample.decode "s3cret" Config.DefaultRoutes
       Spec.done Sample.login Sample.t10 = (Sample.login, None).
Proof.
  split; [|split; [|split]].
  - destruct (auth_requires_bearer Sample.decode "s3cret" [Sample.usersRoute]
                Spec.done Sample.users Sample.t10 eq_refl) as (_ & _ & H).
    destruct (H eq_refl) as (H1 & _). apply H1. reflexivity.
  - destruct (auth_requires_bearer Sample.decode "s3cret" [Sample.usersRoute]
                Spec.done (Sample.bearer "stale") Sample.t10 eq_refl)
      as (_ & _ & H).
    destruct (H eq_refl) as (_ & _ & H3 & _).
    apply (H3 "stale" _ eq_refl eq_refl).
    exists (5 * Time.Second). split; [reflexivity|]. vm_compute. discriminate.
  - destruct (auth_requires_bearer Sample.decode "s3cret" [Sample.usersRoute]
                Spec.done (Sample.bearer "fresh") Sample.t10 eq_refl)
      as (_ & _ & H).
    destruct (H eq_refl) as (_ & _ & _ & H4).
    destruct (H4 "fresh" _ eq_refl eq_refl) as (Hr & _ & Hu & _).
    + split; [by eexists|reflexivity].
    + intros (exp & Hexp & _). discriminate.
    + intros (nbf & Hnbf & _). discriminate.
    + rewrite Hr. exact Hu.
  - destruct (auth_requires_bearer Sample.decode "s3cret" Config.DefaultRoutes
                Spec.done Sample.login Sample.t10 eq_refl) as (_ & H & _).
    apply H. vm_compute. reflexivity.
Defined.

(** * Further properties of the code *)

(** ** The route table *)

Section RouterFacts.
Import Strings Router.

Lemma append_nil_r (s : string) : s +:+ "" = s.
Proof.
  induction s as [|x s IH]; [done|].
  change (String x (s +:+ "") = String x s). by rewrite IH.
Qed.

Lemma HasPrefix_iff s p : HasPrefix s p = true <-> exists rest, s = p +:+ rest.
Proof.
  split.
  - revert s. induction p as [|x p IH]; intros s H; [by exists s|].
    destruct s as [|y s]; [discriminate|]. simpl in H.
    destruct (Ascii.eqb x y) eqn:E; [|discriminate].
    apply Ascii.eqb_eq in E as ->. destruct (IH s H) as [rest ->]. by exists rest.
  - intros [rest ->]. apply HasPrefix_append.
Qed.

Lemma ToLower_ToUpper s : ToLower (ToUpper s) = ToLower s.
Proof. induction s as [|c s IH]; simpl; [done|]. by rewrite lower_upper_byte, IH. Qed.

Lemma HasPrefix_slash x rest :
  HasPrefix (String x rest) "/" = Ascii.eqb "/" x.
Proof.
  change (HasPrefix (String x rest) "/")
    with (if Ascii.eqb "/"%char x then HasPrefix rest "" else false).
  destruct (Ascii.eqb "/" x); [by destruct rest|done].
Qed.

(** a request path matches a route path when it is that path or continues
    it after a slash, and in no other case *)
Theorem matchesPath_iff requestPath routePath :
  matchesPath requestPath routePath = true
  <-> requestPath = routePath
      \/ exists rest, requestPath = routePath +:+ "/" +:+ rest.
Proof.
  unfold matchesPath. destruct (String.eqb requestPath routePath) eqn:E.
  { apply String.eqb_eq in E. tauto. }
  apply String.eqb_neq in E.
  destruct (HasPrefix requestPath routePath) eqn:Hp.
  - apply HasPrefix_iff in Hp as [rem ->]. rewrite TrimPrefix_append.
    destruct rem as [|x rem].
    { rewrite append_nil_r in E. done. }
    rewrite HasPrefix_slash. cbn [is_empty orb].
    destruct (Ascii.eqb "/" x) eqn:Ex.
    + apply Ascii.eqb_eq in Ex as <-.
      split; [|done]. intros _. right. exists rem. reflexivity.
    + split; [discriminate|]. intros [Heq | [rest Heq]]; [done|].
      assert (Hrem : String x rem = "/" +:+ rest).
      { revert Heq. clear. induction routePath as [|y r IH]; [done|].
        intros H. apply IH. by injection H. }
      injection Hrem as -> _. by rewrite Ascii.eqb_refl in Ex.
  - split; [done|]. intros [-> | [rest ->]].
    + pose proof (HasPrefix_append routePath "") as H.
      rewrite append_nil_r in H. congruence.
    + by rewrite HasPrefix_append in Hp.
Qed.

Lemma containsMethod_iff methods method :
  containsMethod methods method = true
  <-> exists m, In m methods /\ ToLower m = ToLower method.
Proof.
  induction methods as [|m0 methods IH]; simpl.
  - split; [done|]. by intros (m & [] & _).
  - destruct (EqualFold m0 method) eqn:E.
    + apply EqualFold_eq in E. split; [|done]. intros _. exists m0. auto.
    + rewrite IH. split.
      * intros (m & Hin & Hm). exists m. auto.
      * intros (m & [<- | Hin] & Hm); [|by exists m].
        apply EqualFold_eq in Hm. congruence.
Qed.

Lemma containsMethod_fold methods m1 m2 :
  ToLower m1 = ToLower m2 -> containsMethod methods m1 = containsMethod methods m2.
Proof.
  intros H. induction methods as [|m0 methods IH]; simpl; [done|].
  unfold EqualFold. by rewrite H, IH.
Qed.

(** the route of a request is the first declared route whose path matches
    and whose methods hold the request's method; [IsPublicRoute] is the
    public flag of that route and [false] when there is none *)
Theorem GetRouteForPath_first routes path method :
  let serves route :=
    matchesPath path (Path route) && containsMethod (Methods route) method in
  (forall route,
      GetRouteForPath routes path method = Some route
      <-> exists before after,
            routes = before ++ route :: after /\
            serves route = true /\
            Forall (fun r => serves r = false) before)
  /\ (GetRouteForPath routes path method = None
      <-> Forall (fun r => serves r = false) routes)
  /\ IsPublicRoute routes path method
     = from_option Public false (GetRouteForPath routes path method).
Proof.
  intros serves. induction routes as [|r routes (IH1 & IH2 & IH3)].
  - split; [|split; [|done]].
    + intros route. split; [done|]. intros (before & after & H & _).
      by destruct before.
    + done.
  - simpl. fold (serves r). destruct (serves r) eqn:Hr.
    + split; [|split; [|done]].
      * intros route. split.
        -- intros [= <-]. exists [], routes. auto.
        -- intros (before & after & Heq & Hs & Hnone).
           destruct before as [|b before].
           ++ injection Heq as -> _. done.
           ++ injection Heq as <- _. apply Forall_cons in Hnone as [Hb _]. congruence.
      * split; [done|]. intros [Hb _]%Forall_cons. congruence.
    + split; [|split; [|done]].
      * intros route. rewrite IH1. split.
        -- intros (before & after & -> & Hs & Hnone). exists (r :: before), after.
           split; [done|]. split; [done|]. by constructor.
        -- intros (before & after & Heq & Hs & Hnone).
           destruct before as [|b before].
           ++ injection Heq as -> _. congruence.
           ++ injection Heq as -> ->. apply Forall_cons in Hnone as [_ Hnone].
              by exists before, after.
      * rewrite IH2. split; [by constructor|]. by intros [_ H]%Forall_cons.
Qed.

(** the letter case of the method plays no part in the choice of the route *)
Theorem GetRouteForPath_method_case routes path method :
  GetRouteForPath routes path (ToUpper method) = GetRouteForPath routes path method
  /\ GetRouteForPath routes path (ToLower method) = GetRouteForPath routes path method.
Proof.
  split; induction routes as [|r routes IH]; simpl; try done.
  - by rewrite (containsMethod_fold _ (ToUpper method) method (ToLower_ToUpper _)), IH.
  - by rewrite (containsMethod_fold _ (ToLower method) method (ToLower_idem _)), IH.
Qed.

End RouterFacts.

(** ** The authenticator's table, roles and tenants *)

Section AccessFacts.
Import Strings Auth.

Variable decode : string -> option Jwt.Unverified.

Lemma publicPaths_from (acc : gmap string (list string)) routes path methods :
  fold_left (fun acc route =>
               if Public route then <[Path route := Methods route]> acc else acc)
            routes acc !! path = Some methods ->
  acc !! path = Some methods
  \/ exists route, In route routes /\ Public route = true /\
                   Path route = path /\ Methods route = methods.
Proof.
  revert acc. induction routes as [|r routes IH]; intros acc H; simpl in *; [auto|].
  destruct (IH _ H) as [Hacc | (route & Hin & Hrest)].
  - destruct (Public r) eqn:Hp; [|auto].
    apply lookup_insert_Some in Hacc as [[<- <-]|[_ Hacc]]; [|auto].
    right. exists r. auto.
  - right. exists route. auto.
Qed.

Lemma publicPath_exact secret routes path method :
  publicPath (config secret routes) path method = true ->
  exists route, In route routes /\ Public route = true /\ Path route = path.
Proof.
  unfold publicPath. simpl.
  destruct (publicPaths routes !! path) as [methods|] eqn:H; [|discriminate].
  intros _. apply publicPaths_from in H as [H | (route & Hin & Hp & Hpath & _)].
  - by rewrite lookup_empty in H.
  - exists route. auto.
Qed.

(** the authenticator's table of public routes holds exact paths: a request
    below a public route, not on it, that carries no Authorization header is
    answered 401 unless the context is marked public *)
Theorem public_table_is_exact secret routes next c now
    (Hskip : Spec.has_skip_prefix (ReqPath (Req c)) = false)
    (Hmark : markedPublic c = false)
    (Hexact : forall route, In route routes -> Public route = true ->
                            Path route <> ReqPath (Req c))
    (Hheader : Fiber.Get c "Authorization" = "") :
  NewAuthMiddleware decode secret routes next c now
  = unauthorized c "Missing authorization header".
Proof.
  unfold NewAuthMiddleware, Auth.
  assert (Hs : skipped (config secret routes) (ReqPath (Req c)) = false) by exact Hskip.
  rewrite Hs, Hmark.
  destruct (publicPath (config secret routes) (ReqPath (Req c)) (Method (Req c))) eqn:Hp.
  { apply publicPath_exact in Hp as (route & Hin & Hpub & Hpath).
    by destruct (Hexact route Hin Hpub). }
  change (Fiber.Get c (HeaderName (config secret routes)))
    with (Fiber.Get c "Authorization").
  by rewrite Hheader.
Qed.

End AccessFacts.

(** S1 as the code has it: [/api/v1/auth/me] lies below the public route
    [/api/v1/auth], the route table calls it public, the authenticator asks
    for a token *)
Lemma public_table_is_exact_witness :
  Router.IsPublicRoute [Sample.authRoute] "/api/v1/auth/me" "GET" = true /\
  StatusCode (Resp (fst (Auth.NewAuthMiddleware Sample.decode "s3cret"
                           [Sample.authRoute] Spec.done Sample.me Sample.t10))) = 401.
Proof.
  split; [reflexivity|].
  rewrite (public_table_is_exact Sample.decode "s3cret" [Sample.authRoute] Spec.done Sample.me
             Sample.t10); [reflexivity|reflexivity|reflexivity| |reflexivity].
  intros route [<-|[]] _. discriminate.
Defined.

Section RolesFacts.
Import Strings Auth.

Variable decode : string -> option Jwt.Unverified.

Lemma role_match_iff roles (cl : Claims) :
  existsb (fun requiredRole =>
             existsb (fun userRole => EqualFold requiredRole userRole) (Roles cl))
          roles = true
  <-> exists r u, In r roles /\ In u (Roles cl) /\ ToLower r = ToLower u.
Proof.
  rewrite existsb_exists. split.
  - intros (r & Hr & Hu). apply existsb_exists in Hu as (u & Hu & He).
    apply EqualFold_eq in He. eauto.
  - intros (r & u & Hr & Hu & He). exists r. split; [done|].
    apply existsb_exists. exists u. split; [done|]. by apply EqualFold_eq.
Qed.

(** [RequireRoles] answers 401 when the context holds no claims; with
    claims it lets the request pass exactly when one of the required roles
    is one of the user's roles up to letter case, and answers 403 otherwise,
    so always when no role is required *)
Theorem RequireRoles_outcomes roles next c :
  ((forall cl, Locals c !! "user" <> Some (LClaims cl)) ->
   RequireRoles roles next c = unauthorized c "No user context found")
  /\
  (forall cl, Locals c !! "user" = Some (LClaims cl) ->
     ((exists r u, In r roles /\ In u (Roles cl) /\ ToLower r = ToLower u) ->
      RequireRoles roles next c = next c)
     /\
     (~ (exists r u, In r roles /\ In u (Roles cl) /\ ToLower r = ToLower u) ->
      RequireRoles roles next c = forbidden c /\
      StatusCode (Resp (fst (RequireRoles roles next c))) = 403)
     /\
     (roles = [] -> RequireRoles roles next c = forbidden c)).
Proof.
  unfold RequireRoles. split.
  - intros Hno. destruct (Locals c !! "user") as [[| | |cl]|] eqn:E; try done.
    by destruct (Hno cl).
  - intros cl ->. split; [|split].
    + intros H%role_match_iff. by rewrite H.
    + intros H. destruct (existsb _ roles) eqn:E; [|done].
      apply role_match_iff in E. done.
    + by intros ->.
Qed.

(** what the authenticator does with a token it accepts *)
Lemma Auth_accepts secret routes next c now token u :
  Spec.has_skip_prefix (ReqPath (Req c)) = false ->
  Spec.exempt routes c = false ->
  Fiber.Get c "Authorization" = "Bearer " +:+ token ->
  decode token = Some u -> Spec.validly_signed u secret ->
  ~ Spec.expired u now -> ~ Spec.premature u now ->
  NewAuthMiddleware decode secret routes next c now
  = next (authenticated (config secret routes) c (Jwt.U_Claims u)).
Proof.
  intros Hskip Hpub Hh Hd Hsig Hexp Hnbf.
  destruct (guards_of_config secret routes c Hskip Hpub) as (Hs & Hm & Hp).
  unfold NewAuthMiddleware, Auth. rewrite Hs, Hm, Hp.
  change (Fiber.Get c (HeaderName (config secret routes)))
    with (Fiber.Get c "Authorization").
  change (TokenPrefix (config secret routes)) with "Bearer ".
  rewrite Hh. simpl is_empty. cbv iota.
  rewrite TrimPrefix_append, bearer_token_differs.
  by rewrite (validateToken_accepts decode token (JWTSecret (config secret routes))
                now u Hd Hsig Hexp Hnbf).
Qed.

Lemma authenticated_user cfg c cl :
  ContextKey cfg = "user" ->
  Locals (authenticated cfg c cl) !! "user" = Some (LClaims cl).
Proof.
  intros Hk. unfold authenticated. rewrite Hk.
  destruct (Roles cl); simpl; by simplify_map_eq.
Qed.

(** the authenticator and the role check in a row: behind a token that is
    accepted the role check never answers 401; it passes the authenticated
    context on when the token's roles hold a required one and answers 403 on
    it otherwise *)
Theorem auth_then_roles secret routes roles next c now token u
    (Hskip : Spec.has_skip_prefix (ReqPath (Req c)) = false)
    (Hpub : Spec.exempt routes c = false)
    (Hheader : Fiber.Get c "Authorization" = "Bearer " +:+ token)
    (Hdecode : decode token = Some u)
    (Hsigned : Spec.validly_signed u secret)
    (Hlive : ~ Spec.expired u now)
    (Hdue : ~ Spec.premature u now) :
  let c' := authenticated (config secret routes) c (Jwt.U_Claims u) in
  let reply := NewAuthMiddleware decode secret routes (RequireRoles roles next) c now in
  ((exists r v, In r roles /\ In v (Roles (Jwt.U_Claims u)) /\ ToLower r = ToLower v) ->
   reply = next c')
  /\
  (~ (exists r v, In r roles /\ In v (Roles (Jwt.U_Claims u)) /\ ToLower r = ToLower v) ->
   reply = forbidden c').
Proof.
  intros c' reply. subst reply.
  rewrite (Auth_accepts secret routes _ c now token u) by assumption. fold c'.
  assert (Hu : Locals c' !! "user" = Some (LClaims (Jwt.U_Claims u)))
    by (by apply authenticated_user).
  unfold RequireRoles. rewrite Hu. split.
  - intros H%role_match_iff. by rewrite H.
  - intros H. destruct (existsb _ roles) eqn:E; [|done].
    apply role_match_iff in E. done.
Qed.

(** the identity headers of an authenticated request are those of the
    token, whatever the client sent under these names; only [X-User-Roles]
    is left as the client sent it when the token has no roles *)
Theorem identity_headers cfg c cl :
  let c' := authenticated cfg c cl in
  Fiber.Get c' "X-User-ID" = UserID cl /\
  Fiber.Get c' "X-Tenant-ID" = TenantID cl /\
  Fiber.Get c' "X-User-Email" = Email cl /\
  (Roles cl <> [] -> Fiber.Get c' "X-User-Roles" = Join (Roles cl) ",") /\
  (Roles cl = [] -> Fiber.Get c' "X-User-Roles" = Fiber.Get c "X-User-Roles").
Proof.
  intros c'. subst c'. unfold authenticated, Fiber.Get.
  destruct (Roles cl) as [|r rs] eqn:Hr; simpl.
  - rewrite Peek_Set_ne, Peek_Set_ne, Peek_Set_eq by (vm_compute; reflexivity).
    rewrite Peek_Set_ne, Peek_Set_eq by (vm_compute; reflexivity).
    rewrite Peek_Set_eq.
    rewrite !Peek_Set_ne by (vm_compute; reflexivity). done.
  - rewrite !(Peek_Set_ne _ "X-User-Roles") by (vm_compute; reflexivity).
    rewrite Peek_Set_ne, Peek_Set_ne, Peek_Set_eq by (vm_compute; reflexivity).
    rewrite Peek_Set_ne, Peek_Set_eq by (vm_compute; reflexivity).
    rewrite !Peek_Set_eq. done.
Qed.

End RolesFacts.

Lemma auth_then_roles_witness :
  Auth.NewAuthMiddleware Sample.decode "s3cret" [Sample.usersRoute]
    (Auth.RequireRoles ["Admin"] Spec.done) (Sample.bearer "fresh") Sample.t10
  = Spec.done (Auth.authenticated (Auth.config "s3cret" [Sample.usersRoute])
                 (Sample.bearer "fresh") (Sample.claims None None)).
Proof.
  apply (proj1 (auth_then_roles Sample.decode "s3cret" [Sample.usersRoute] ["Admin"]
                  Spec.done (Sample.bearer "fresh") Sample.t10 "fresh"
                  (Sample.signed (Sample.claims None None))
                  eq_refl eq_refl eq_refl eq_refl
                  (conj (ex_intro _ "HS256" eq_refl) eq_refl)
                  ltac:(intros (exp & Hexp & _); discriminate)
                  ltac:(intros (nbf & Hnbf & _); discriminate))).
  exists "Admin", "admin". split; [by left|]. split; [by left|]. reflexivity.
Defined.

Section TenantFacts.
Import Strings Auth.

Local Ltac settle H := repeat (rewrite H; cbv iota); simpl negb; cbv iota.

Lemma Split_nonempty s sep : Split s sep <> [].
Proof.
  destruct s as [|c s]; simpl; [done|].
  destruct (Ascii.eqb c sep); [done|]. by destruct (Split s sep).
Qed.

Lemma Split_free_app a b sep :
  Split a sep = [a] -> Split (a +:+ String sep b) sep = a :: Split b sep.
Proof.
  induction a as [|c a IH].
  - intros _. change (Split (String sep b) sep = "" :: Split b sep).
    simpl. by rewrite Ascii.eqb_refl.
  - change (String c a +:+ String sep b) with (String c (a +:+ String sep b)).
    simpl. destruct (Ascii.eqb c sep).
    + intros [=].
    + destruct (Split a sep) as [|piece rest] eqn:E.
      * by destruct (Split_nonempty a sep).
      * intros [= -> ->]. by rewrite IH.
Qed.

Lemma Split_two a b sep : (2 <= length (Split (a +:+ String sep b) sep))%nat.
Proof.
  induction a as [|c a IH].
  - change (("" : string) +:+ String sep b) with (String sep b).
    simpl. rewrite Ascii.eqb_refl. simpl.
    pose proof (Split_nonempty b sep). destruct (Split b sep); [done|simpl; lia].
  - change (String c a +:+ String sep b) with (String c (a +:+ String sep b)).
    simpl. destruct (Ascii.eqb c sep); [simpl; lia|].
    destruct (Split (a +:+ String sep b) sep); simpl in *; lia.
Qed.

(** the tenant of a request is the one on the context; else the
    [X-Tenant-ID] header; else the first label of a host of at least three
    labels, when it is not empty; else none.  The tenant found is put on the
    context and on the request header.  A [tenant_id] on the context that is
    no string makes the stage panic. *)
Theorem tenant_sources hostname next c :
  let stamp t :=
    next (Fiber.SetReqHeader (Fiber.SetLocal c "tenant_id" (LString t))
                             "X-Tenant-ID" t) in
  let unset := Locals c !! "tenant_id" = None
               \/ Locals c !! "tenant_id" = Some (LString "") in
  (forall t, Locals c !! "tenant_id" = Some (LString t) -> t <> "" ->
     TenantExtractor hostname next c = Returns (stamp t))
  /\
  (forall h, unset -> Fiber.Get c "X-Tenant-ID" = h -> h <> "" ->
     TenantExtractor hostname next c = Returns (stamp h))
  /\
  (forall a b, unset -> Fiber.Get c "X-Tenant-ID" = "" ->
     Split a "." = [a] -> a <> "" ->
     (exists rest, hostname = a +:+ "." +:+ b +:+ "." +:+ rest) ->
     TenantExtractor hostname next c = Returns (stamp a))
  /\
  (forall a b, unset -> Fiber.Get c "X-Tenant-ID" = "" ->
     Split a "." = [a] -> Split b "." = [b] ->
     hostname = a \/ hostname = a +:+ "." +:+ b ->
     TenantExtractor hostname next c = Returns (next c))
  /\
  (forall v, Locals c !! "tenant_id" = Some v -> (forall t, v <> LString t) ->
     TenantExtractor hostname next c = Panics).
Proof.
  intros stamp unset. unfold TenantExtractor.
  assert (Hne : forall t : string, t <> "" -> is_empty t = false).
  { intros t Ht. destruct (is_empty t) eqn:E; [|done]. by apply is_empty_true in E. }
  split; [|split; [|split; [|split]]].
  - intros t -> Ht. by settle (Hne t Ht).
  - intros h Hun Hh Hne'. rewrite Hh.
    destruct Hun as [-> | ->]; simpl is_empty; cbv iota; by settle (Hne h Hne').
  - intros a b Hun Hh Ha Hne' [rest ->]. rewrite Hh.
    assert (Hs : Split (a +:+ "." +:+ b +:+ "." +:+ rest) "."
                 = a :: Split (b +:+ "." +:+ rest) ".")
      by (by apply Split_free_app).
    pose proof (Split_two b rest ".") as H2.
    change (String "." rest) with ("." +:+ rest) in H2.
    rewrite Hs.
    destruct (Split (b +:+ "." +:+ rest) ".") as [|p1 [|p2 l]];
      [simpl in H2; lia..|].
    destruct Hun as [-> | ->]; simpl is_empty; cbv iota;
      cbn [length Nat.leb nth]; by settle (Hne a Hne').
  - intros a b Hun Hh Ha Hb Hhost. rewrite Hh.
    assert (Hlen : (3 <=? length (Split hostname "."))%nat = false).
    { apply Nat.leb_gt. destruct Hhost as [-> | ->].
      - rewrite Ha. simpl. lia.
      - change ("." +:+ b) with (String "." b).
        rewrite (Split_free_app a b "." Ha), Hb. simpl. lia. }
    rewrite Hlen. by destruct Hun as [-> | ->].
  - intros v -> Hv. destruct v as [| t | |]; try done. by destruct (Hv t).
Qed.

End TenantFacts.

(** ** The registry, its probes and the forwarded headers *)

Section RegistryFacts.
Import Strings Proxy Spec.

Lemma setServiceHealth_lookup (p : ServiceProxy) name healthy now other :
  setServiceHealth p name healthy now !! other
  = if decide (other = name)
    then (fun svc => {| Name := Name svc; URL := URL svc; Client := Client svc;
                        HealthPath := HealthPath svc; Healthy := healthy;
                        LastCheck := now |}) <$> p !! name
    else p !! other.
Proof.
  unfold setServiceHealth. destruct (decide (other = name)) as [->|Hne].
  - destruct (p !! name) as [svc|] eqn:E; [by rewrite lookup_insert_eq|by rewrite E].
  - destruct (p !! name) as [svc|] eqn:E; [by rewrite lookup_insert_ne|done].
Qed.

(** a probe reports healthy exactly when the service is registered and
    answers its health path with a status from 200 to 299; the verdict is
    stored for a registered service, an unknown name changes nothing, and no
    probe adds, removes or touches another service *)
Theorem HealthCheck_records (p : ServiceProxy) name now :
  let p' := fst (HealthCheck p name now) in
  let healthy := snd (HealthCheck p name now) in
  (p !! name = None -> p' = p /\ healthy = false)
  /\
  (forall svc, p !! name = Some svc ->
     GetServicesHealth p' !! name = Some healthy /\
     (healthy = true
      <-> exists resp, Client svc (healthRequest svc) = inr resp /\
                       200 <= UpStatusCode resp < 300))
  /\
  (forall other, other <> name -> p' !! other = p !! other)
  /\
  dom p' = dom p.
Proof.
  intros p' healthy. subst p' healthy. unfold HealthCheck, GetService.
  destruct (p !! name) as [svc|] eqn:E.
  - assert (Hget : forall h, GetServicesHealth (setServiceHealth p name h now) !! name
                             = Some h).
    { intros h. unfold GetServicesHealth.
      rewrite lookup_fmap, setServiceHealth_lookup, E. by rewrite decide_True. }
    assert (Hother : forall h other, other <> name ->
                       setServiceHealth p name h now !! other = p !! other).
    { intros h other Hne. rewrite setServiceHealth_lookup. by rewrite decide_False. }
    assert (Hdom : forall h, dom (setServiceHealth p name h now) = dom p).
    { intros h. unfold setServiceHealth. rewrite E, dom_insert_L.
      apply set_eq. intros x. rewrite elem_of_union, elem_of_singleton.
      split; [|by right]. intros [->|?]; [|done]. apply elem_of_dom. eauto. }
    destruct (Client svc (healthRequest svc)) as [err|resp] eqn:Hc; simpl.
    + split; [done|]. split; [|split; [by apply Hother|by apply Hdom]].
      intros svc' [= <-]. split; [by apply Hget|].
      split; [done|]. intros (resp & Hr & _). congruence.
    + split; [done|]. split; [|split; [by apply Hother|by apply Hdom]].
      intros svc' [= <-]. split; [by apply Hget|].
      rewrite Hc. rewrite andb_true_iff, Z.leb_le, Z.ltb_lt. split.
      * intros H. by exists resp.
      * intros (resp' & [= <-] & H). done.
  - simpl. split; [done|]. split; [done|]. split; done.
Qed.

Lemma forallb_false {A} (f : A -> bool) l :
  forallb f l = false -> exists x, In x l /\ f x = false.
Proof.
  induction l as [|x l IH]; simpl; [done|].
  destruct (f x) eqn:E; simpl.
  - intros H. destruct (IH H) as (y & Hy & Hf). eauto.
  - intros _. eauto.
Qed.

Lemma allHealthy_iff (services : gmap string bool) :
  Health.allHealthy services = true
  <-> forall name healthy, services !! name = Some healthy -> healthy = true.
Proof.
  unfold Health.allHealthy. rewrite forallb_forall. split.
  - intros H name healthy Hl. apply (H (name, healthy)).
    apply list_elem_of_In, elem_of_map_to_list, Hl.
  - intros H [name healthy] Hin. simpl. apply (H name).
    by apply elem_of_map_to_list, list_elem_of_In.
Qed.

(** readiness is 200 [ready] when every registered service is marked
    healthy and 503 [not_ready] as soon as one is not, in whatever order the
    services are walked *)
Theorem Ready_iff (p : ServiceProxy) :
  (Health.Ready p = (200, "ready")
   <-> forall name svc, p !! name = Some svc -> Healthy svc = true)
  /\
  (Health.Ready p = (503, "not_ready")
   <-> exists name svc, p !! name = Some svc /\ Healthy svc = false).
Proof.
  unfold Health.Ready.
  assert (Hall : Health.allHealthy (GetServicesHealth p) = true
                 <-> forall name svc, p !! name = Some svc -> Healthy svc = true).
  { rewrite allHealthy_iff. unfold GetServicesHealth. split.
    - intros H name svc Hl. apply (H name). by rewrite lookup_fmap, Hl.
    - intros H name healthy. rewrite lookup_fmap.
      destruct (p !! name) as [svc|] eqn:E; [|done].
      intros [= <-]. by apply (H name). }
  destruct (Health.allHealthy (GetServicesHealth p)) eqn:E.
  - split; [by rewrite <- Hall|]. split; [done|].
    intros (name & svc & Hl & Hh). rewrite (proj1 Hall eq_refl name svc Hl) in Hh. done.
  - split.
    + split; [done|]. intros H. apply Hall in H. done.
    + split; [|done]. intros _. unfold Health.allHealthy in E.
      apply forallb_false in E as ([name healthy] & Hin & Hf). simpl in Hf. subst healthy.
      apply list_elem_of_In, elem_of_map_to_list in Hin.
      unfold GetServicesHealth in Hin. rewrite lookup_fmap in Hin.
      destruct (p !! name) as [svc|] eqn:Hl; [|done].
      injection Hin as Hh. by exists name, svc.
Qed.

End RegistryFacts.

Section ForwardFacts.
Import Strings Proxy Spec.

Lemma HealthCheck_frame (p : ServiceProxy) name now other :
  other <> name -> fst (HealthCheck p name now) !! other = p !! other.
Proof.
  intros Hne. unfold HealthCheck, GetService.
  destruct (p !! name) as [svc|]; [|done].
  destruct (Client svc (healthRequest svc)); simpl;
    by rewrite setServiceHealth_lookup, decide_False.
Qed.

Lemma Ready_unhealthy (p : ServiceProxy) :
  (exists name svc, p !! name = Some svc /\ Healthy svc = false) ->
  Health.Ready p = (503, "not_ready").
Proof.
  intros (name & svc & Hl & Hh). unfold Health.Ready.
  destruct (Health.allHealthy (GetServicesHealth p)) eqn:E; [|done].
  rewrite allHealthy_iff in E. specialize (E name false).
  unfold GetServicesHealth in E. rewrite lookup_fmap, Hl in E. simpl in E.
  rewrite Hh in E. by specialize (E eq_refl).
Qed.

(** S6: a probe that fails turns readiness to 503 and the route of the
    probed service to 503; requests for the other services are forwarded as
    before *)
Theorem failed_probe_gates (p : ServiceProxy) name now svc
    (Hreg : p !! name = Some svc)
    (Hfail : snd (HealthCheck p name now) = false) :
  let p' := fst (HealthCheck p name now) in
  Health.Ready p' = (503, "not_ready")
  /\
  (forall c stripPrefix,
      StatusCode (Resp (Forward p' c name stripPrefix)) = 503 /\
      RespBody (Resp (Forward p' c name stripPrefix))
        = JSON [("error", JStr ("service " +:+ name +:+ " is unavailable"))])
  /\
  (forall c other stripPrefix, other <> name ->
      Forward p' c other stripPrefix = Forward p c other stripPrefix).
Proof.
  intros p'.
  assert (Hp' : exists svc', p' !! name = Some svc' /\ Healthy svc' = false).
  { subst p'. revert Hfail. unfold HealthCheck, GetService. rewrite Hreg.
    destruct (Client svc (healthRequest svc)) as [err|resp]; simpl; intros Hf;
      rewrite ?Hf, setServiceHealth_lookup, decide_True, Hreg by done;
      eexists; split; done. }
  destruct Hp' as (svc' & Hl & Hh). split; [|split].
  - apply Ready_unhealthy. eauto.
  - intros c stripPrefix. unfold Forward, GetService. by rewrite Hl, Hh.
  - intros c other stripPrefix Hne. unfold Forward, GetService.
    subst p'. by rewrite (HealthCheck_frame p name now other Hne).
Qed.

Lemma failed_probe_gates_witness :
  Health.Ready (fst (HealthCheck {["auth" := Sample.broken]} "auth" Sample.t10))
  = (503, "not_ready").
Proof.
  apply (failed_probe_gates {["auth" := Sample.broken]} "auth" Sample.t10 Sample.broken);
    reflexivity.
Defined.

Lemma same_key_eq k1 k2 : Header.same_key k1 k2 = true <-> ToLower k1 = ToLower k2.
Proof. apply EqualFold_eq. Qed.

Lemma same_key_neq k1 k2 : Header.same_key k1 k2 = false <-> ToLower k1 <> ToLower k2.
Proof.
  rewrite <- same_key_eq. destruct (Header.same_key k1 k2); split; congruence.
Qed.

Lemma Peek_Set_same (h : Header.t) k0 v k :
  Header.same_key k0 k = true -> Header.Peek (Header.Set_ h k0 v) k = v.
Proof.
  intros Hk. induction h as [|[k1 v1] h IH]; simpl.
  - by rewrite Hk.
  - destruct (Header.same_key k1 k0) eqn:E; simpl.
    + assert (Header.same_key k1 k = true) as ->; [|done].
      apply same_key_eq in Hk, E. apply same_key_eq. congruence.
    + assert (Header.same_key k1 k = false) as ->; [|done].
      apply same_key_eq in Hk. apply same_key_neq in E. apply same_key_neq. congruence.
Qed.

Lemma Peek_app_congr (l d1 d2 : Header.t) k :
  Header.Peek d1 k = Header.Peek d2 k ->
  Header.Peek (l ++ d1) k = Header.Peek (l ++ d2) k.
Proof.
  intros H. induction l as [|[k0 v0] l IH]; simpl; [done|].
  by destruct (Header.same_key k0 k).
Qed.

(** copying headers onto a collection: under a name that is not
    hop-by-hop, the last copied value stands, and the old value where none
    is copied *)
Lemma copyHeaders_Peek (src dst : Header.t) k :
  hop_by_hop_name k = false ->
  Header.Peek (copyHeaders src dst) k = Header.Peek (rev src ++ dst) k.
Proof.
  intros Hk. unfold copyHeaders. revert dst.
  induction src as [|[k0 v0] src IH]; intros dst; simpl; [done|].
  rewrite IH, <- app_assoc. apply Peek_app_congr. simpl.
  rewrite isHopByHopHeader_spec.
  destruct (Header.same_key k0 k) eqn:E.
  - rewrite (hop_by_hop_name_fold _ _ E), Hk. by apply Peek_Set_same.
  - destruct (hop_by_hop_name k0); [done|]. by apply Peek_Set_ne.
Qed.

Lemma upstream_request_id svc c stripPrefix :
  Header.Peek (UpHeader (upstreamRequest svc c stripPrefix)) "X-Request-ID"
  = Fiber.GetRespHeader c "X-Request-ID".
Proof. unfold upstreamRequest. simpl. apply Peek_Set_eq. Qed.

(** the forwarding headers of the upstream request are the gateway's:
    client address, host and protocol as the gateway saw them and the request
    id of the response, whatever the client sent under these names *)
Theorem forwarding_headers_set svc c stripPrefix :
  let h := UpHeader (upstreamRequest svc c stripPrefix) in
  Header.Peek h "X-Forwarded-For" = IP (Req c) /\
  Header.Peek h "X-Forwarded-Host" = Host (Req c) /\
  Header.Peek h "X-Forwarded-Proto" = Protocol (Req c) /\
  Header.Peek h "X-Real-IP" = IP (Req c) /\
  Header.Peek h "X-Request-ID" = Fiber.GetRespHeader c "X-Request-ID".
Proof.
  intros h. subst h. unfold upstreamRequest. simpl.
  repeat split;
    rewrite ?Peek_Set_eq;
    repeat (rewrite Peek_Set_ne by (vm_compute; reflexivity); rewrite ?Peek_Set_eq);
    done.
Qed.

(** every other header of the client that is not hop-by-hop reaches the
    upstream, once: with the value of its last occurrence on the client
    request *)
Theorem forwards_last_value svc c stripPrefix k
    (Hhop : hop_by_hop_name k = false)
    (Hown : Forall (fun n => Header.same_key n k = false)
              ["X-Forwarded-For"; "X-Forwarded-Host"; "X-Forwarded-Proto";
               "X-Real-IP"; "X-Request-ID"]) :
  Header.Peek (UpHeader (upstreamRequest svc c stripPrefix)) k
  = Header.Peek (rev (ReqHeader (Req c))) k.
Proof.
  unfold upstreamRequest. simpl.
  repeat (apply Forall_cons in Hown as [? Hown]).
  rewrite !Peek_Set_ne by done.
  by rewrite copyHeaders_Peek, app_nil_r.
Qed.

Lemma forwards_last_value_witness :
  Header.Peek (UpHeader (upstreamRequest Sample.up
                           (Sample.ctx "/" "" [("Accept", "text/html"); ("accept", "*/*")])
                           "")) "Accept"
  = "*/*".
Proof.
  rewrite forwards_last_value; [reflexivity|reflexivity|].
  repeat constructor.
Defined.



(** the request id: an incoming [X-Request-ID] that is not empty is kept, a
    fresh one is drawn otherwise; the stage puts it on the response and on
    the context, and the proxy sends it upstream *)
Theorem request_id_propagates fresh c svc stripPrefix :
  let id := if is_empty (Fiber.Get c "X-Request-ID") then fresh
            else Fiber.Get c "X-Request-ID" in
  let c' := Stages.tagged fresh c in
  Fiber.GetRespHeader c' "X-Request-ID" = id /\
  Locals c' !! "request_id" = Some (LString id) /\
  Header.Peek (UpHeader (upstreamRequest svc c' stripPrefix)) "X-Request-ID" = id /\
  (Fiber.Get c "X-Request-ID" <> "" -> id = Fiber.Get c "X-Request-ID").
Proof.
  intros id c'.
  assert (H1 : Fiber.GetRespHeader c' "X-Request-ID" = id).
  { subst c' id. unfold Stages.tagged, Fiber.GetRespHeader. simpl. apply Peek_Set_eq. }
  split; [exact H1|]. split; [|split].
  - subst c' id. unfold Stages.tagged. simpl. by rewrite lookup_insert_eq.
  - rewrite <- H1. apply upstream_request_id.
  - intros Hne. subst id. destruct (is_empty _) eqn:E; [|done].
    by apply is_empty_true in E.
Qed.

End ForwardFacts.

(** ** More on the rate limiter *)

Section LimiterFacts.
Import Strings RateLimit.

(** a call for one key leaves the buckets of all other keys as they are *)
Theorem allow_frame (requests : Buckets) now key rps burst other :
  other <> key -> fst (allow requests now key rps burst) !! other = requests !! other.
Proof.
  intros Hne. unfold allow.
  destruct (requests !! key) as [bucket|]; [|by simpl; rewrite lookup_insert_ne].
  destruct (Qle_bool 1 _); [by simpl; rewrite lookup_insert_ne|].
  destruct (rps =? 0); simpl; by rewrite lookup_insert_ne.
Qed.

Lemma allow_frame_witness :
  fst (allow {["a" := {| tokens := 3; lastCheck := 0 |}]} Sample.t10 "b" 1 5) !! "a"
  = Some {| tokens := 3; lastCheck := 0 |}.
Proof.
  rewrite (allow_frame {["a" := {| tokens := 3; lastCheck := 0 |}]} Sample.t10 "b" 1 5 "a");
    [reflexivity|discriminate].
Defined.

Lemma min_same_instant (burst : Z) (t : Q) (rps : Z) :
  (t <= inject_Z burst)%Q ->
  (min (float64 burst) (t + Time.Seconds (Time.Sub 0 0) * float64 rps) == t)%Q.
Proof.
  intros Ht. unfold min.
  assert (He : (t + Time.Seconds (Time.Sub 0 0) * float64 rps == t)%Q).
  { unfold Time.Seconds, Time.Sub. simpl.
    assert ((0 # 1000000000) == 0)%Q as -> by reflexivity. ring. }
  destruct (Qltb _ _) eqn:E; [|exact He].
  apply Qltb_lt in E. rewrite He in E. unfold float64 in *.
  exfalso. by apply (Qlt_not_le _ _ E).
Qed.

(** the bucket after [n >= 1] calls at one instant holds what is left of
    the burst *)
Lemma calls_same_instant (requests : Buckets) key rps burst now n :
  requests !! key = None -> 1 <= burst < 2 ^ 63 ->
  exists b, calls requests key rps burst (replicate (S n) now) !! key = Some b /\
            lastCheck b = now /\
            (tokens b == inject_Z (burst - Z.min (Z.of_nat (S n)) burst))%Q.
Proof.
  intros Hnew Hburst. induction n as [|n (b & Hb & Hlast & Htok)].
  - cbn [replicate calls]. unfold allow. rewrite Hnew. cbn [fst].
    eexists. rewrite lookup_insert_eq. split; [done|]. split; [done|].
    cbn [tokens]. unfold float64, int_sub. rewrite wrap_int_id by lia.
    replace (Z.min (Z.of_nat 1) burst) with 1 by lia. reflexivity.
  - assert (Hsnoc : forall m, replicate (S m) now = replicate m now ++ [now]).
    { intros m. induction m as [|m IHm]; [done|]. simpl in *. by rewrite <- IHm. }
    assert (Hcalls : forall clock r, calls r key rps burst (clock ++ [now])
                       = fst (allow (calls r key rps burst clock) now key rps burst)).
    { intros clock. induction clock as [|t clock IHc]; intros r; [done|]. simpl. apply IHc. }
    rewrite (Hsnoc (S n)), Hcalls. unfold allow. rewrite Hb, Hlast.
    assert (Hsub : Time.Sub now now = Time.Sub 0 0) by (unfold Time.Sub; lia).
    rewrite Hsub.
    assert (Hle : (tokens b <= inject_Z burst)%Q).
    { rewrite Htok, <- Zle_Qle. lia. }
    pose proof (min_same_instant burst (tokens b) rps Hle) as Hmin.
    set (r := min _ _) in *.
    destruct (Qle_bool 1 r) eqn:H1.
    + apply Qle_bool_iff in H1. rewrite Hmin, Htok in H1.
      change 1%Q with (inject_Z 1) in H1. rewrite <- Zle_Qle in H1.
      cbn [fst]. eexists. rewrite lookup_insert_eq. split; [done|]. split; [done|].
      cbn [tokens]. rewrite Hmin, Htok. unfold Qminus.
      change (- (1))%Q with (inject_Z (-1)). rewrite <- inject_Z_plus.
      apply inject_Z_injective. lia.
    + assert (Hlt : ~ (1 <= r)%Q).
      { intros Hle1%Qle_bool_iff. congruence. }
      rewrite Hmin, Htok in Hlt. change 1%Q with (inject_Z 1) in Hlt.
      rewrite <- Zle_Qle in Hlt.
      assert (Hsame : forall o : Outcome (bool * Z * Z),
                 fst (<[key := {| tokens := r; lastCheck := now |}]>
                        (calls requests key rps burst (replicate (S n) now)), o)
                 = <[key := {| tokens := r; lastCheck := now |}]>
                     (calls requests key rps burst (replicate (S n) now))) by done.
      destruct (rps =? 0); rewrite Hsame; eexists; rewrite lookup_insert_eq;
        (split; [done|]); (split; [done|]); cbn [tokens]; rewrite Hmin, Htok;
        apply inject_Z_injective; lia.
Qed.

(** S2 in general: of the calls that arrive for a new key at one instant,
    the first [burst] are allowed and every later one is denied; an allowed
    call reports the tokens left, a denied one zero *)
Theorem burst_at_one_instant (requests : Buckets) key rps burst now n
    (Hnew : requests !! key = None)
    (Hburst : 1 <= burst < 2 ^ 63)
    (Hrps : rps <> 0) :
  exists reset,
    snd (allow (calls requests key rps burst (replicate n now)) now key rps burst)
    = Returns (bool_decide (Z.of_nat n < burst),
               Z.max 0 (burst - Z.of_nat n - 1), reset).
Proof.
  destruct n as [|n].
  - cbn [replicate calls]. unfold allow. rewrite Hnew. cbn [snd]. eexists.
    rewrite bool_decide_true by (simpl; lia).
    unfold int_sub. rewrite wrap_int_id by lia. repeat f_equal. simpl. lia.
  - destruct (calls_same_instant requests key rps burst now n Hnew Hburst)
      as (b & Hb & Hlast & Htok).
    unfold allow. rewrite Hb, Hlast.
    assert (Hsub : Time.Sub now now = Time.Sub 0 0) by (unfold Time.Sub; lia).
    rewrite Hsub.
    assert (Hle : (tokens b <= inject_Z burst)%Q).
    { rewrite Htok, <- Zle_Qle. lia. }
    pose proof (min_same_instant burst (tokens b) rps Hle) as Hmin.
    set (r := min _ _) in *.
    destruct (Qle_bool 1 r) eqn:H1.
    + apply Qle_bool_iff in H1.
      assert (H1' := H1). rewrite Hmin, Htok in H1'.
      change 1%Q with (inject_Z 1) in H1'. rewrite <- Zle_Qle in H1'.
      cbn [snd]. eexists. rewrite bool_decide_true by lia.
      assert (Hleft : (r - 1 == inject_Z (burst - Z.of_nat (S n) - 1))%Q).
      { rewrite Hmin, Htok. unfold Qminus.
        change (- (1))%Q with (inject_Z (-1)). rewrite <- inject_Z_plus.
        apply inject_Z_injective. lia. }
      rewrite int_of_float_floor by (rewrite Hleft, <- (Zle_Qle 0); lia).
      rewrite (Qfloor_comp _ _ Hleft), Qfloor_Z.
      repeat f_equal. lia.
    + assert (Hlt : ~ (1 <= r)%Q).
      { intros Hle1%Qle_bool_iff. congruence. }
      rewrite Hmin, Htok in Hlt. change 1%Q with (inject_Z 1) in Hlt.
      rewrite <- Zle_Qle in Hlt.
      destruct (rps =? 0) eqn:E; [lia|]. cbn [snd]. eexists.
      rewrite bool_decide_false by lia. repeat f_equal. lia.
Qed.

Lemma burst_at_one_instant_witness :
  exists reset,
    snd (allow (calls ∅ "k" 1 5 (replicate 5 Sample.t10)) Sample.t10 "k" 1 5)
    = Returns (false, 0, reset).
Proof.
  destruct (burst_at_one_instant ∅ "k" 1 5 Sample.t10 5 (lookup_empty _))
    as [reset H]; [lia|lia|].
  exists reset. exact H.
Defined.

End LimiterFacts.

Section SweepFacts.
Import Strings RateLimit.

Lemma allow_stamps (requests : Buckets) now key rps burst :
  exists b, fst (allow requests now key rps burst) !! key = Some b /\ lastCheck b = now.
Proof.
  unfold allow. destruct (requests !! key) as [bucket|].
  - destruct (Qle_bool 1 _); [|destruct (rps =? 0)]; cbn [fst];
      eexists; rewrite lookup_insert_eq; done.
  - cbn [fst]. eexists. rewrite lookup_insert_eq. done.
Qed.

Lemma cleanup_lookup (requests : Buckets) interval now key b :
  cleanup requests interval now !! key = Some b
  <-> requests !! key = Some b /\ now - interval <= lastCheck b.
Proof.
  unfold cleanup. rewrite map_lookup_filter_Some. cbn [snd].
  unfold Time.Before, Time.Add. rewrite Z.ltb_ge.
  replace (now + - interval) with (now - interval) by lia. done.
Qed.

(** one sweep keeps exactly the buckets last checked no earlier than
    [now - interval]; a key whose bucket was swept away starts over with a
    full burst whatever it held; and a bucket that [allow] has just
    written survives a sweep within the interval *)
Theorem cleanup_forgets (requests : Buckets) interval now key :
  (forall b, cleanup requests interval now !! key = Some b
             <-> requests !! key = Some b /\ now - interval <= lastCheck b) /\
  (forall b, requests !! key = Some b -> lastCheck b < now - interval ->
     forall later rps burst,
       snd (allow (cleanup requests interval now) later key rps burst)
       = Returns (true, int_sub burst 1, Time.Unix (Time.Add later Time.Second))) /\
  (forall t rps burst, now - interval <= t ->
     cleanup (fst (allow requests t key rps burst)) interval now !! key
     = fst (allow requests t key rps burst) !! key).
Proof.
  split; [|split].
  - intros b. apply cleanup_lookup.
  - intros b Hb Hold later rps burst.
    assert (Hgone : cleanup requests interval now !! key = None).
    { destruct (cleanup requests interval now !! key) as [b'|] eqn:E; [|done].
      apply cleanup_lookup in E as [E Hle]. rewrite Hb in E.
      injection E as <-. lia. }
    unfold allow. by rewrite Hgone.
  - intros t rps burst Ht.
    destruct (allow_stamps requests t key rps burst) as (b & Hb & Hlast).
    rewrite Hb. apply cleanup_lookup. split; [done|lia].
Qed.

(** with a shared store, its answer is taken as it comes: the request is
    allowed exactly when the first number is 1, the in-process buckets are
    neither read nor written, and a reply of fewer than three numbers ends
    in a panic; only a failed call falls back to the in-process limiter *)
Theorem shared_store_answer (run : RedisClient) conf (buckets : Buckets)
    now key rps burst :
  let rl := {| redis := Some run; cfg := conf; local := buckets |} in
  (forall r0 r1 r2 rest,
     run key rps burst (Time.Unix now) = Some (r0 :: r1 :: r2 :: rest) ->
     limiter_allow rl now key rps burst = (rl, Returns (r0 =? 1, r1, r2))) /\
  (forall result,
     run key rps burst (Time.Unix now) = Some result -> (length result < 3)%nat ->
     limiter_allow rl now key rps burst = (rl, Panics)) /\
  (run key rps burst (Time.Unix now) = None ->
     limiter_allow rl now key rps burst
     = (with_local rl (fst (allow buckets now key rps burst)),
        snd (allow buckets now key rps burst))).
Proof.
  intros rl. subst rl. unfold limiter_allow, redisAllow. cbn [redis].
  split; [|split].
  - intros r0 r1 r2 rest ->. reflexivity.
  - intros result -> Hlen.
    destruct result as [|r0 [|r1 [|r2 rest]]]; simpl in Hlen; try lia; reflexivity.
  - intros ->. unfold local_allow. cbn [local].
    destruct (allow buckets now key rps burst) as [after out]. reflexivity.
Qed.

Lemma Unix_within_second now d :
  0 <= d <= Time.Second -> 0 <= Time.Unix (Time.Add now d) - Time.Unix now <= 1.
Proof.
  unfold Time.Unix, Time.Add, Time.Second. intros Hd.
  assert (now / 1000000000 <= (now + d) / 1000000000)
    by (apply Z.div_le_mono; lia).
  assert ((now + d) / 1000000000 <= (now + 1 * 1000000000) / 1000000000)
    by (apply Z.div_le_mono; lia).
  rewrite Z.div_add in * by lia. lia.
Qed.

(** a request the in-process limiter denies is answered 429 without the
    rest of the chain being run: whatever handler follows, the reply is
    the same, it leaves the request and the context values alone, and its
    [retry_after] is 0 or 1 for a rate of at least one request a second *)
Theorem denied_reply (rl : RateLimiter) (c : Ctx) now rps burst b
    (Hon : RateLimit_Enabled (cfg rl) = true)
    (Hlocal : redis rl = None)
    (Hlimits : limits rl c = (rps, burst))
    (Hrps : 1 <= rps)
    (Hbucket : local rl !! createKey c = Some b)
    (Hempty : Qle_bool 1 (Spec.refilled b rps burst now) = false) :
  exists rl' c' wait,
    (forall next, Middleware rl next c now = (rl', Returns (c', None))) /\
    StatusCode (Resp c') = Fiber.StatusTooManyRequests /\
    RespBody (Resp c')
    = JSON [("error", JStr "rate_limit_exceeded");
            ("message", JStr "Too many requests, please try again later");
            ("retry_after", JInt wait)] /\
    0 <= wait <= 1 /\
    Req c' = Req c /\ Locals c' = Locals c.
Proof.
  unfold Spec.refilled in Hempty.
  assert (Hne : (rps =? 0) = false) by lia.
  assert (Hallow : forall next, exists rl',
             Middleware rl next c now
             = (rl', Returns (tooManyRequests
                  (Fiber.Set_ (Fiber.Set_ (Fiber.Set_ c "X-RateLimit-Limit" (pretty rps))
                                 "X-RateLimit-Remaining" (pretty 0))
                     "X-RateLimit-Reset"
                     (pretty (Time.Unix (Time.Add now (Z.quot Time.Second rps)))))
                  (Time.Unix (Time.Add now (Z.quot Time.Second rps))) now))
             /\ rl' = with_local rl
                        (<[createKey c := {| tokens := Spec.refilled b rps burst now;
                                             lastCheck := now |}]> (local rl))).
  { intros next. unfold Middleware. rewrite Hon, Hlimits. cbn [negb].
    unfold limiter_allow, local_allow, allow. rewrite Hlocal, Hbucket.
    unfold float64. rewrite Hempty, Hne. cbn [negb]. eexists. split; reflexivity. }
  eexists _, _, _. split; [|split; [|split; [|split; [|split]]]].
  - intros next. destruct (Hallow next) as (rl' & -> & ->). reflexivity.
  - reflexivity.
  - reflexivity.
  - apply Unix_within_second. unfold Time.Second.
    split; [apply Z.quot_pos; lia|].
    apply Z.quot_le_upper_bound; nia.
  - reflexivity.
  - reflexivity.
Qed.

Lemma denied_reply_witness :
  exists rl' c' wait,
    (forall next, Middleware Sample.busy next Sample.users Sample.t10
                  = (rl', Returns (c', None))) /\
    StatusCode (Resp c') = 429 /\ 0 <= wait <= 1.
Proof.
  destruct (denied_reply Sample.busy Sample.users Sample.t10 2 1
              {| tokens := 0; lastCheck := Sample.t10 |})
    as (rl' & c' & wait & H1 & H2 & _ & H4 & _).
  all: try reflexivity.
  - lia.
  - exists rl', c', wait. split; [|split]; [|exact H2|exact H4].
    intros next. apply H1.
Defined.

End SweepFacts.

(** ** More on the circuit breaker *)

Section BreakerFacts.
Import Strings Gobreaker Circuit.

Lemma manager_insert_id (m : CircuitBreakerManager) serviceName cb :
  breakers m !! serviceName = Some cb ->
  {| breakers := <[serviceName := cb]> (breakers m); cfg := cfg m |} = m.
Proof. intros H. rewrite insert_id by done. by destruct m. Qed.

(** while the breaker of the service is open and its timeout has not run
    out, the request is answered 503 and the rest of the chain is not run:
    the reply is the same for every handler that follows, and the manager
    is left as it was *)
Theorem open_breaker_shields (m : CircuitBreakerManager) (c : Ctx) serviceName cb t now fin
    (Hg : guarded m c = Some serviceName)
    (Hcb : breakers m !! serviceName = Some cb)
    (Hopen : state cb = StateOpen)
    (Hexp : expiry cb = Some t)
    (Hnow : now <= t) :
  forall next,
    Middleware m next c now fin
    = (m, (unavailable c "service_unavailable"
             "Service temporarily unavailable, please try again later"
             serviceName, None)).
Proof.
  intros next. unfold Middleware, GetBreaker. rewrite Hg, Hcb.
  unfold Execute, beforeRequest, currentState. rewrite Hopen, Hexp.
  cbn [expired]. unfold Time.Before.
  assert ((t <? now) = false) as -> by lia.
  rewrite Hopen. cbn [default].
  by rewrite manager_insert_id.
Qed.

Lemma open_breaker_shields_witness :
  fst (Middleware Sample.tripped Sample.failing Sample.routed 11 12) = Sample.tripped /\
  StatusCode (Resp (fst (snd (Middleware Sample.tripped Sample.failing
                                Sample.routed 11 12)))) = 503.
Proof.
  destruct (breakers Sample.tripped !! "auth") as [cb|] eqn:Hcb; [|vm_compute in Hcb; discriminate].
  rewrite (open_breaker_shields Sample.tripped Sample.routed "auth" cb
             (10 + 30 * Time.Second) 11 12).
  - split; reflexivity.
  - vm_compute. reflexivity.
  - exact Hcb.
  - vm_compute in Hcb. injection Hcb as <-. reflexivity.
  - vm_compute in Hcb. injection Hcb as <-. reflexivity.
  - vm_compute. discriminate.
Defined.

(** whether the function handed to the breaker reports a failure: the
    reply has a status of 500 or more, or the chain returned an error *)
Lemma request_failed next c :
  isSuccessful (snd (request next c tt))
  = negb ((500 <=? StatusCode (Resp (fst (next c)))) || negb (isSuccessful (snd (next c)))) /\
  fst (request next c tt) = fst (next c).
Proof.
  unfold request. destruct (next c) as [c1 err]. cbn [fst snd].
  destruct (500 <=? StatusCode (Resp c1)); cbn; [done|].
  by destruct err.
Qed.

(** once the timeout of an open breaker has run out, the next request is
    let through as a probe: if it fails (status 500 or more, or an error
    of the chain) the breaker opens again for a full timeout counted from
    the end of the probe; if it succeeds the breaker closes when one
    success is enough, and stays half-open otherwise *)
Theorem half_open_probe (m : CircuitBreakerManager) next (c : Ctx) serviceName cb t now fin
    (Hg : guarded m c = Some serviceName)
    (Hcb : breakers m !! serviceName = Some cb)
    (Hopen : state cb = StateOpen)
    (Hexp : expiry cb = Some t)
    (Hlate : t < now)
    (Hmax : 0 < maxRequests cb) :
  let failed := (500 <=? StatusCode (Resp (fst (next c))))
                || negb (isSuccessful (snd (next c))) in
  exists after,
    breakers (fst (Middleware m next c now fin)) !! serviceName = Some after /\
    state after = (if failed then StateOpen
                   else if maxRequests cb <=? 1 then StateClosed else StateHalfOpen) /\
    (failed = true -> expiry after = Some (Time.Add fin (timeout cb))).
Proof.
  intros failed.
  destruct (request_failed next c) as [Hok Hctx].
  fold failed in Hok.
  unfold Middleware, GetBreaker. rewrite Hg, Hcb.
  unfold Execute, beforeRequest, currentState. rewrite Hopen, Hexp.
  cbn [expired]. unfold Time.Before.
  assert ((t <? now) = true) as -> by lia.
  unfold setState. rewrite Hopen. cbn [State_eqb].
  cbn [toNewGeneration state counts maxRequests Requests clear].
  assert ((maxRequests cb <=? 0) = false) as -> by lia.
  destruct (request next c tt) as [c1 err] eqn:Hreq. cbn [snd] in Hok.
  set (after := afterRequest _ _ _ _).
  assert (Hafter : state after = (if failed then StateOpen
                     else if maxRequests cb <=? 1 then StateClosed else StateHalfOpen)
                   /\ (failed = true -> expiry after = Some (Time.Add fin (timeout cb)))).
  { subst after. rewrite Hok. unfold afterRequest, currentState.
    cbn [with_counts state generation]. rewrite Z.eqb_refl. cbn [negb].
    destruct failed; cbn [negb].
    - unfold breaker_onFailure, setState. cbn [state State_eqb toNewGeneration expiry timeout].
      done.
    - unfold breaker_onSuccess, setState, with_counts, toNewGeneration.
      cbn [state counts maxRequests onSuccess onRequest ConsecutiveSuccesses clear].
      change (incr 0) with 1.
      destruct (maxRequests cb <=? 1); cbn [state State_eqb]; done. }
  exists after.
  assert (Hin : forall bs, (<[serviceName := after]> bs : gmap string Breaker) !! serviceName
                           = Some after) by (intros; apply lookup_insert_eq).
  destruct err as [[| | |]|]; cbn [fst breakers]; rewrite Hin; done.
Qed.

Lemma half_open_probe_witness :
  exists after,
    breakers (fst (Middleware Sample.tripped Sample.failing Sample.routed
                     (40 * Time.Second) (41 * Time.Second))) !! "auth" = Some after /\
    state after = StateOpen /\
    expiry after = Some (71 * Time.Second).
Proof.
  destruct (breakers Sample.tripped !! "auth") as [cb|] eqn:Hcb; [|vm_compute in Hcb; discriminate].
  destruct (half_open_probe Sample.tripped Sample.failing Sample.routed "auth" cb
              (10 + 30 * Time.Second) (40 * Time.Second) (41 * Time.Second))
    as (after & H1 & H2 & H3).
  - vm_compute. reflexivity.
  - exact Hcb.
  - vm_compute in Hcb. injection Hcb as <-. reflexivity.
  - vm_compute in Hcb. injection Hcb as <-. reflexivity.
  - vm_compute. reflexivity.
  - vm_compute in Hcb. injection Hcb as <-. reflexivity.
  - exists after. split; [exact H1|]. split; [exact H2|].
    rewrite H3 by reflexivity.
    vm_compute in Hcb. injection Hcb as <-. reflexivity.
Defined.

(** behind the breaker an error of the chain is never passed on: the
    middleware returns no error, and its reply is either a 503 of its own
    or the context as the chain left it *)
Theorem breaker_swallows_errors (m : CircuitBreakerManager) next (c : Ctx) now fin :
  is_Some (guarded m c) ->
  snd (snd (Middleware m next c now fin)) = None /\
  (StatusCode (Resp (fst (snd (Middleware m next c now fin))))
   = Fiber.StatusServiceUnavailable
   \/ fst (snd (Middleware m next c now fin)) = fst (next c)).
Proof.
  intros [serviceName Hg]. unfold Middleware. rewrite Hg.
  destruct (GetBreaker m serviceName now) as [m1 cb].
  assert (Hran : forall cb1 gen,
            let '(cb2, ran, err) :=
              (let '(result, err) := request next c tt in
               (afterRequest cb1 gen (isSuccessful err) fin, Some result, err)) in
            ran = Some (fst (next c))).
  { intros cb1 gen. destruct (request_failed next c) as [_ Hctx].
    destruct (request next c tt) as [c1 err]. cbn [fst] in Hctx. by subst c1. }
  unfold Execute, beforeRequest.
  destruct (state (currentState cb now)).
  - specialize (Hran (with_counts (currentState cb now)
                        (onRequest (counts (currentState cb now))))
                     (generation (currentState cb now))).
    destruct (request next c tt) as [c1 err]. injection Hran as ->.
    destruct err as [[| | |]|]; cbn; auto.
  - destruct (maxRequests (currentState cb now) <=? _); [cbn; auto|].
    specialize (Hran (with_counts (currentState cb now)
                        (onRequest (counts (currentState cb now))))
                     (generation (currentState cb now))).
    destruct (request next c tt) as [c1 err]. injection Hran as ->.
    destruct err as [[| | |]|]; cbn; auto.
  - cbn; auto.
Qed.

Lemma breaker_swallows_errors_witness :
  snd (snd (Middleware Sample.manager (fun c => (c, Some (OtherError "boom")))
              Sample.routed 1 2)) = None.
Proof.
  apply (breaker_swallows_errors Sample.manager (fun c => (c, Some (OtherError "boom")))
           Sample.routed 1 2).
  vm_compute. eauto.
Defined.

(** a closed breaker within its counting interval records the request and
    its outcome: a reply below 500 without an error counts as a success
    (so does a 4xx), anything else as a failure, and a failure on which
    the trip predicate holds opens the breaker with cleared counters *)
Theorem closed_breaker_counts (m : CircuitBreakerManager) next (c : Ctx) serviceName cb now fin
    (Hg : guarded m c = Some serviceName)
    (Hcb : breakers m !! serviceName = Some cb)
    (Hclosed : state cb = StateClosed)
    (Hint : forall e, expiry cb = Some e -> now <= e /\ fin <= e) :
  let failed := (500 <=? StatusCode (Resp (fst (next c))))
                || negb (isSuccessful (snd (next c))) in
  let counted := onRequest (counts cb) in
  exists after,
    breakers (fst (Middleware m next c now fin)) !! serviceName = Some after /\
    if failed then
      if readyToTrip cb (onFailure counted)
      then state after = StateOpen /\ counts after = clear /\
           expiry after = Some (Time.Add fin (timeout cb))
      else state after = StateClosed /\ counts after = onFailure counted
    else state after = StateClosed /\ counts after = onSuccess counted.
Proof.
  intros failed counted.
  destruct (request_failed next c) as [Hok Hctx].
  fold failed in Hok.
  unfold Middleware, GetBreaker. rewrite Hg, Hcb.
  assert (Hcur : forall t, (t = now \/ t = fin) -> forall cs,
             currentState (with_counts cb cs) t = with_counts cb cs).
  { intros t Ht cs. unfold currentState. cbn [with_counts state expiry].
    rewrite Hclosed. destruct (expiry cb) as [e|] eqn:He; [|done].
    destruct (Hint e eq_refl). unfold Time.Before.
    assert ((e <? t) = false) as -> by (destruct Ht; subst; lia). done. }
  assert (Hsame : with_counts cb (counts cb) = cb) by (by destruct cb).
  assert (Hcur0 : currentState cb now = cb).
  { rewrite <- Hsame. rewrite (Hcur now) by auto. by rewrite Hsame. }
  unfold Execute, beforeRequest. rewrite Hcur0, Hclosed.
  destruct (request next c tt) as [c1 err] eqn:Hreq. cbn [snd] in Hok.
  set (after := afterRequest _ _ _ _).
  exists after.
  assert (Hin : forall bs, (<[serviceName := after]> bs : gmap string Breaker) !! serviceName
                           = Some after) by (intros; apply lookup_insert_eq).
  split; [destruct err as [[| | |]|]; cbn [fst breakers]; by rewrite Hin|].
  subst after. rewrite Hok. unfold afterRequest. rewrite (Hcur fin) by auto.
  cbn [with_counts generation]. rewrite Z.eqb_refl. cbn [negb].
  fold counted.
  destruct failed; cbn [negb].
  - unfold breaker_onFailure. cbn [with_counts state counts readyToTrip].
    rewrite Hclosed.
    destruct (readyToTrip cb (onFailure counted)).
    + unfold setState. cbn [with_counts state]. rewrite Hclosed. cbn. done.
    + cbn. done.
  - unfold breaker_onSuccess. cbn [with_counts state counts]. rewrite Hclosed. done.
Qed.

Lemma closed_breaker_counts_witness :
  exists after,
    breakers (fst (Middleware (Sample.call Sample.manager 1)
                     (fun c => (Fiber.Status c 404, None)) Sample.routed 3 4)) !! "auth"
    = Some after /\
    TotalSuccesses (counts after) = 1 /\ TotalFailures (counts after) = 1.
Proof.
  destruct (breakers (Sample.call Sample.manager 1) !! "auth") as [cb|] eqn:Hcb;
    [|vm_compute in Hcb; discriminate].
  destruct (closed_breaker_counts (Sample.call Sample.manager 1)
              (fun c => (Fiber.Status c 404, None)) Sample.routed "auth" cb 3 4)
    as (after & H1 & H2).
  - vm_compute. reflexivity.
  - exact Hcb.
  - vm_compute in Hcb. injection Hcb as <-. reflexivity.
  - vm_compute in Hcb. injection Hcb as <-. intros e [= <-]. vm_compute.
    split; discriminate.
  - exists after. split; [exact H1|].
    cbn in H2. destruct H2 as [_ ->].
    vm_compute in Hcb. injection Hcb as <-. vm_compute. done.
Defined.

End BreakerFacts.

Section ManagerFacts.
Import Strings Gobreaker Circuit.

(** a breaker is created once: the first call for a service stores a
    closed breaker with cleared counters under its name and touches no
    other service, and every later call returns that same breaker and
    leaves the manager as it is *)
Theorem GetBreaker_once (m : CircuitBreakerManager) serviceName now :
  let m1 := fst (GetBreaker m serviceName now) in
  let cb := snd (GetBreaker m serviceName now) in
  breakers m1 !! serviceName = Some cb /\
  (forall later, GetBreaker m1 serviceName later = (m1, cb)) /\
  (forall other, other <> serviceName -> breakers m1 !! other = breakers m !! other) /\
  (breakers m !! serviceName = None ->
     state cb = StateClosed /\ counts cb = clear /\ name cb = serviceName).
Proof.
  intros m1 cb. subst m1 cb. unfold GetBreaker.
  destruct (breakers m !! serviceName) as [cb|] eqn:E; cbn [fst snd].
  - split; [done|]. split; [by intros later; rewrite E|]. split; [done|done].
  - split; [cbn; by rewrite lookup_insert_eq|].
    split; [intros later; cbn [breakers]; by rewrite lookup_insert_eq|].
    split; [intros other Hne; cbn [breakers]; by rewrite lookup_insert_ne|].
    intros _. done.
Qed.

Lemma State_open_refuses cb now :
  snd (State_ cb now) = StateOpen ->
  forall A fin (req : unit -> A * option error),
    Execute cb now fin req = (currentState cb now, None, Some ErrOpenState).
Proof.
  unfold State_. cbn [snd]. intros Hopen A fin req.
  unfold Execute, beforeRequest. by rewrite Hopen.
Qed.

(** reading the state: a service without a breaker reads as closed; the
    table of [GetAllStates] holds the name of what [GetState] reads for
    each service; a read stores the breaker as the clock has moved it, so
    an open breaker past its timeout reads as half-open and is half-open
    from then on; and a service that reads as open has its requests
    answered 503 at that instant *)
Theorem states_agree (m : CircuitBreakerManager) serviceName now :
  (breakers m !! serviceName = None -> GetState m serviceName now = (m, StateClosed)) /\
  snd (GetAllStates m now) !! serviceName
    = (fun _ => State_String (snd (GetState m serviceName now)))
        <$> breakers m !! serviceName /\
  (forall cb t, breakers m !! serviceName = Some cb -> state cb = StateOpen ->
     expiry cb = Some t -> t < now ->
     snd (GetState m serviceName now) = StateHalfOpen /\
     state <$> breakers (fst (GetState m serviceName now)) !! serviceName
       = Some StateHalfOpen) /\
  (forall next c fin,
     snd (GetState m serviceName now) = StateOpen ->
     guarded m c = Some serviceName ->
     StatusCode (Resp (fst (snd (Middleware m next c now fin))))
     = Fiber.StatusServiceUnavailable).
Proof.
  split; [|split; [|split]].
  - intros E. unfold GetState. by rewrite E.
  - unfold GetAllStates, GetState. cbn [snd].
    rewrite !lookup_fmap.
    destruct (breakers m !! serviceName) as [cb|]; [|done].
    cbn. done.
  - intros cb t E Hopen Hexp Hlate. unfold GetState. rewrite E.
    unfold State_, currentState. rewrite Hopen, Hexp. cbn [expired].
    unfold Time.Before. assert ((t <? now) = true) as -> by lia.
    unfold setState. rewrite Hopen. cbn [State_eqb toNewGeneration state fst snd breakers].
    split; [done|]. by rewrite lookup_insert_eq.
  - intros next c fin Hopen Hg. unfold GetState in Hopen.
    destruct (breakers m !! serviceName) as [cb|] eqn:E; [|discriminate].
    assert (Hst : snd (State_ cb now) = StateOpen).
    { destruct (State_ cb now) as [cb1 st]. exact Hopen. }
    unfold Middleware, GetBreaker. rewrite Hg, E.
    rewrite (State_open_refuses cb now Hst). reflexivity.
Qed.

End ManagerFacts.

(** ** The retry loop *)

Section RetryFacts.
Import Retry.

(** the waits handed to [time.Sleep] for the attempts [k], ..., [n - 1] *)
Lemma attempts_from rm next w maxAttempts (c : Ctx) (n : nat) :
  Z.of_nat n <= maxAttempts ->
  (StatusCode (Resp (fst (upto next (S n) c))) < 500 \/ Z.of_nat n = maxAttempts) ->
  forall (d k : nat) e s,
    (k + d = n)%nat ->
    (forall i, (k <= i < n)%nat -> 500 <= StatusCode (Resp (fst (upto next (S i) c)))) ->
    attempts rm next w maxAttempts (Z.to_nat (maxAttempts - Z.of_nat k + 1)) (Z.of_nat k)
      (fst (upto next k c)) e s
    = (fst (upto next (S n) c), snd (upto next (S n) c),
       s ++ map (fun i => sleepTime rm w (Z.of_nat i)) (seq k d)).
Proof.
  intros Hn Hend d. induction d as [|d IH]; intros k e s Hk Hfail.
  - assert (k = n) as -> by lia. cbn [seq map]. rewrite app_nil_r.
    replace (Z.to_nat (maxAttempts - Z.of_nat n + 1))
      with (S (Z.to_nat (maxAttempts - Z.of_nat n))) by lia.
    cbn [attempts]. change (next (Z.of_nat n) (fst (upto next n c)))
      with (upto next (S n) c).
    destruct (upto next (S n) c) as [c1 err] eqn:E. cbn [fst snd] in *.
    destruct (StatusCode (Resp c1) <? 500) eqn:Hs; [done|].
    destruct Hend as [Hlt | Hmax]; [lia|].
    assert ((Z.of_nat n <? maxAttempts) = false) as -> by lia.
    replace (Z.to_nat (maxAttempts - Z.of_nat n)) with 0%nat by lia. done.
  - replace (Z.to_nat (maxAttempts - Z.of_nat k + 1))
      with (S (Z.to_nat (maxAttempts - Z.of_nat (S k) + 1))) by lia.
    cbn [attempts]. change (next (Z.of_nat k) (fst (upto next k c)))
      with (upto next (S k) c).
    pose proof (Hfail k ltac:(lia)) as Hk5.
    destruct (upto next (S k) c) as [c1 err] eqn:E. cbn [fst] in Hk5.
    assert ((StatusCode (Resp c1) <? 500) = false) as -> by lia.
    assert ((Z.of_nat k <? maxAttempts) = true) as -> by lia.
    replace (Z.of_nat k + 1) with (Z.of_nat (S k)) by lia.
    replace c1 with (fst (upto next (S k) c)) by (by rewrite E).
    rewrite (IH (S k)) by (try lia; intros i Hi; apply Hfail; lia).
    cbn [seq map]. by rewrite <- app_assoc.
Qed.

(** the loop stops at the first call that leaves a status below 500 and
    returns what that call returned; when every call leaves 500 or more
    it stops after [maxAttempts + 1] calls with the error of the last
    one (the counter of the loop must not overflow for that).  It has slept once after each failed call but the last, for the
    wait of that attempt; with a negative number of attempts the rest of
    the chain is not run at all *)
Theorem retry_outcome parse rm next (c : Ctx) :
  let maxAttempts := fst (settings parse rm c) in
  let waitTime := snd (settings parse rm c) in
  (forall n : nat,
     Z.of_nat n <= maxAttempts ->
     (forall i, (i < n)%nat -> 500 <= StatusCode (Resp (fst (upto next (S i) c)))) ->
     StatusCode (Resp (fst (upto next (S n) c))) < 500
     \/ (Z.of_nat n = maxAttempts /\ maxAttempts < 2 ^ 63 - 1) ->
     Middleware parse rm next c
     = (fst (upto next (S n) c), snd (upto next (S n) c),
        map (fun i => sleepTime rm waitTime (Z.of_nat i)) (seq 0 n))) /\
  (maxAttempts < 0 -> Middleware parse rm next c = (c, None, [])).
Proof.
  intros maxAttempts waitTime. subst maxAttempts waitTime. unfold Middleware.
  destruct (settings parse rm c) as [maxAttempts waitTime]. cbn [fst snd].
  split.
  - intros n Hn Hfail Hend.
    assert (Hend' : StatusCode (Resp (fst (upto next (S n) c))) < 500
                    \/ Z.of_nat n = maxAttempts) by (destruct Hend as [?|[? _]]; auto).
    pose proof (attempts_from rm next waitTime maxAttempts c n Hn Hend' n 0%nat None [])
      as H.
    cbn [upto fst app] in H.
    replace (maxAttempts - Z.of_nat 0 + 1) with (maxAttempts + 1) in H by lia.
    apply H; [lia|]. intros i Hi. apply Hfail. lia.
  - intros Hneg. replace (Z.to_nat (maxAttempts + 1)) with 0%nat by lia. done.
Qed.

Lemma attempts_sleeps rm next w maxAttempts remaining :
  forall attempt (c : Ctx) e s,
    Forall (fun d => d <= MaxWaitTime rm) s ->
    0 <= attempt ->
    Z.of_nat (length s) <= Z.max 0 (Z.min attempt maxAttempts) ->
    let slept := snd (attempts rm next w maxAttempts remaining attempt c e s) in
    Forall (fun d => d <= MaxWaitTime rm) slept /\
    Z.of_nat (length slept) <= Z.max 0 maxAttempts.
Proof.
  induction remaining as [|remaining IH]; intros attempt c e s Hs Hat Hlen.
  - cbn [attempts snd]. split; [done|lia].
  - cbn [attempts]. destruct (next attempt c) as [c1 err].
    destruct (StatusCode (Resp c1) <? 500); [cbn [snd]; split; [done|lia]|].
    destruct (attempt <? maxAttempts) eqn:Hlt.
    + apply IH.
      * apply Forall_app. split; [done|]. constructor; [|done].
        unfold sleepTime. cbv zeta.
        destruct (Z.ltb_spec (MaxWaitTime rm)
                    (RateLimit.wrap_int
                       (w * RateLimit.wrap_int (Z.shiftl 1 attempt)))); lia.
      * lia.
      * rewrite length_app. cbn [length]. lia.
    + apply IH; [done|lia|lia].
Qed.

(** whatever the rest of the chain does, no wait is longer than
    [MaxWaitTime], and there are at most [maxAttempts] of them *)
Theorem retry_sleeps parse rm next (c : Ctx) :
  let slept := snd (Middleware parse rm next c) in
  Forall (fun d => d <= MaxWaitTime rm) slept /\
  Z.of_nat (length slept) <= Z.max 0 (fst (settings parse rm c)).
Proof.
  unfold Middleware. destruct (settings parse rm c) as [maxAttempts waitTime].
  cbn [fst].
  destruct (Z_lt_le_dec maxAttempts 0) as [Hneg|Hpos].
  - replace (Z.to_nat (maxAttempts + 1)) with 0%nat by lia. cbn. split; [done|lia].
  - apply attempts_sleeps; [done|lia|cbn [length]; lia].
Qed.

(** the wait doubles with every attempt up to the cap, as long as the
    product fits in 64 bits; from the 65th attempt on the factor
    [1 << attempt] is zero, and so is the wait *)
Theorem backoff_doubles rm waitTime attempt :
  (0 <= attempt < 63 -> 0 <= waitTime -> waitTime * 2 ^ attempt < 2 ^ 63 ->
   sleepTime rm waitTime attempt = Z.min (MaxWaitTime rm) (waitTime * 2 ^ attempt)) /\
  (64 <= attempt -> sleepTime rm waitTime attempt = Z.min (MaxWaitTime rm) 0).
Proof.
  unfold sleepTime. split.
  - intros Hat Hw Hfit. rewrite Z.shiftl_1_l.
    assert (0 < 2 ^ attempt) by (apply Z.pow_pos_nonneg; lia).
    assert (2 ^ attempt < 2 ^ 63) by (apply Z.pow_lt_mono_r; lia).
    rewrite (wrap_int_id (2 ^ attempt)) by lia.
    rewrite wrap_int_id by nia.
    destruct (MaxWaitTime rm <? _) eqn:E; lia.
  - intros Hat. rewrite Z.shiftl_1_l.
    assert (Hz : RateLimit.wrap_int (2 ^ attempt) = 0).
    { unfold RateLimit.wrap_int.
      replace attempt with (64 + (attempt - 64)) by lia.
      rewrite Z.pow_add_r by lia.
      replace (2 ^ 64 * 2 ^ (attempt - 64) + 2 ^ 63)
        with (2 ^ 63 + 2 ^ (attempt - 64) * 2 ^ 64) by lia.
      rewrite Z.mod_add by lia. reflexivity. }
    rewrite Hz, Z.mul_0_r. change (RateLimit.wrap_int 0) with 0.
    destruct (MaxWaitTime rm <? 0) eqn:E; lia.
Qed.

End RetryFacts.

(** ** The logger and the small stages *)

Section StageFacts.
Import Strings Logging Stages.

Lemma log_written l timestamp lvl msg fields : log l timestamp lvl msg fields <> "".
Proof.
  intros H. apply (f_equal String.length) in H. unfold log in H.
  destruct (String.eqb (format l) "json"); [discriminate H|].
  rewrite !length_append in H. cbn in H. lia.
Qed.

Lemma severity_rank status :
  default 0 (levels !! name (logFn status))
  = if 500 <=? status then 3 else if 400 <=? status then 2 else 1.
Proof.
  unfold logFn. destruct (500 <=? status); [reflexivity|].
  destruct (400 <=? status); reflexivity.
Qed.

Lemma level_rank lvl :
  default 0 (levels !! lvl)
  = if decide (lvl = "error") then 3 else if decide (lvl = "warn") then 2
    else if decide (lvl = "info") then 1 else 0.
Proof.
  unfold levels.
  repeat case_decide; subst; try done.
  destruct (decide (lvl = "debug")) as [->|Hd]; [done|].
  by rewrite !lookup_insert_ne, lookup_empty by done.
Qed.

(** the request logger hands on what the rest of the chain returned, and
    writes one line for the request exactly when the status passes the
    configured level: 500 and above for [error], 400 and above for
    [warn], and every request for any other level, known or not *)
Theorem RequestLogger_writes l timestamp start finish next (c : Ctx) :
  let result := RequestLogger l timestamp start finish next c in
  let status := StatusCode (Resp (fst (next c))) in
  (fst (fst result), snd (fst result)) = next c /\
  (snd result <> ""
   <-> (if decide (level l = "error") then 500 <= status
        else if decide (level l = "warn") then 400 <= status else True)).
Proof.
  intros result status. subst result status. unfold RequestLogger.
  destruct (next c) as [c1 err]. cbn [fst snd]. split; [done|].
  unfold emit, shouldLog. rewrite severity_rank, level_rank.
  set (line := log _ _ _ _ _).
  assert (Hline : line <> "") by apply log_written.
  repeat case_decide;
    destruct (500 <=? StatusCode (Resp c1)) eqn:E5;
    destruct (400 <=? StatusCode (Resp c1)) eqn:E4;
    cbn; split; intros Hw; try done; try lia.
Qed.

Lemma originsMap_lookup (allowedOrigins : list string) origin :
  default false (originsMap allowedOrigins !! origin)
  = bool_decide (origin ∈ allowedOrigins).
Proof.
  unfold originsMap.
  assert (H : forall (acc : gmap string bool),
             (forall k v, acc !! k = Some v -> v = true) ->
             default false
               (fold_left (fun acc origin => <[origin := true]> acc) allowedOrigins acc
                  !! origin)
             = bool_decide (origin ∈ allowedOrigins \/ is_Some (acc !! origin))).
  { induction allowedOrigins as [|o os IH]; intros acc Hacc; cbn [fold_left].
    - destruct (acc !! origin) as [v|] eqn:E.
      + rewrite (Hacc _ _ E). cbn. symmetry. apply bool_decide_eq_true. eauto.
      + cbn. symmetry. apply bool_decide_eq_false.
        intros [Hin|[v Hv]]; [by apply not_elem_of_nil in Hin|done].
    - rewrite IH.
      + apply bool_decide_ext. rewrite elem_of_cons.
        destruct (decide (origin = o)) as [->|Hne].
        * rewrite lookup_insert_eq. split; eauto.
        * rewrite lookup_insert_ne by done.
          intuition congruence.
      + intros k v. destruct (decide (k = o)) as [->|Hne].
        * rewrite lookup_insert_eq. congruence.
        * rewrite lookup_insert_ne by done. apply Hacc. }
  rewrite H by (intros k v; by rewrite lookup_empty).
  apply bool_decide_ext. rewrite lookup_empty. split; [|auto].
  intros [Hin|[v Hv]]; done.
Qed.

(** an origin is allowed when it is not empty and the list is empty, or
    names it, or holds ["*"]; an allowed origin is echoed back together
    with [Access-Control-Allow-Credentials: true], a preflight request is
    answered 204 without the rest of the chain being run, and any other
    request goes on with the headers set so far *)
Theorem CORS_outcome (allowedOrigins : list string) next (c : Ctx) :
  let origin := Fiber.Get c "Origin" in
  let result := CORS allowedOrigins next c in
  (allowed allowedOrigins origin = true
   <-> origin <> "" /\
       (allowedOrigins = [] \/ origin ∈ allowedOrigins \/ "*" ∈ allowedOrigins)) /\
  (Method (Req c) = "OPTIONS" ->
     StatusCode (Resp (fst result)) = 204 /\ snd result = None /\
     (forall next', CORS allowedOrigins next' c = result) /\
     (allowed allowedOrigins origin = true ->
        Fiber.GetRespHeader (fst result) "Access-Control-Allow-Origin" = origin /\
        Fiber.GetRespHeader (fst result) "Access-Control-Allow-Credentials" = "true")) /\
  (Method (Req c) <> "OPTIONS" ->
     exists c', result = next c' /\ Req c' = Req c /\ Locals c' = Locals c /\
       if allowed allowedOrigins origin
       then Fiber.GetRespHeader c' "Access-Control-Allow-Origin" = origin /\
            Fiber.GetRespHeader c' "Access-Control-Allow-Credentials" = "true"
       else c' = c).
Proof.
  intros origin result. split; [|split].
  - unfold allowed. rewrite !originsMap_lookup.
    rewrite andb_true_iff, negb_true_iff, !orb_true_iff, !bool_decide_eq_true.
    rewrite Nat.eqb_eq, length_zero_iff_nil.
    assert (is_empty origin = false <-> origin <> "") by (by destruct origin).
    tauto.
  - intros Hopt. subst result. unfold CORS. cbv zeta. fold origin.
    assert (He : String.eqb (Method (Req c)) "OPTIONS" = true) by (by apply String.eqb_eq).
    destruct (allowed allowedOrigins origin) eqn:Ha.
    + change (Method (Req (Fiber.Set_ (Fiber.Set_ c "Access-Control-Allow-Origin" origin)
                             "Access-Control-Allow-Credentials" "true")))
        with (Method (Req c)).
      rewrite He. cbn [fst snd].
      split; [unfold SendStatus; by destruct (body_empty _)|].
      split; [done|]. split; [done|].
      intros _.
      unfold SendStatus, Fiber.GetRespHeader.
      destruct (body_empty _); cbn; split;
        repeat (rewrite Peek_Set_ne by (vm_compute; reflexivity));
        apply Peek_Set_eq.
    + rewrite He. cbn [fst snd].
      split; [unfold SendStatus; by destruct (body_empty _)|].
      split; [done|]. split; [done|done].
  - intros Hopt. subst result. unfold CORS. cbv zeta. fold origin.
    assert (He : String.eqb (Method (Req c)) "OPTIONS" = false) by (by apply String.eqb_neq).
    destruct (allowed allowedOrigins origin) eqn:Ha.
    + change (Method (Req (Fiber.Set_ (Fiber.Set_ c "Access-Control-Allow-Origin" origin)
                             "Access-Control-Allow-Credentials" "true")))
        with (Method (Req c)).
      rewrite He. eexists. split; [reflexivity|].
      split; [done|]. split; [done|].
      unfold Fiber.GetRespHeader. cbn. split;
        repeat (rewrite Peek_Set_ne by (vm_compute; reflexivity));
        apply Peek_Set_eq.
    + rewrite He. by exists c.
Qed.

(** the branch of [Metrics] that would count an ["upstream_unavailable"]
    error is never taken: 502 and 503 are counted as ["5xx"] by the test
    before it, as is every status of 500 and above, and nothing below *)
Theorem upstreamError_labels status :
  upstreamError status = (if 500 <=? status then Some "5xx" else None) /\
  upstreamError status <> Some "upstream_unavailable".
Proof.
  unfold upstreamError.
  destruct (500 <=? status) eqn:E; [done|].
  assert ((status =? 502) = false) as -> by lia.
  assert ((status =? 503) = false) as -> by lia. done.
Qed.

Lemma append_inj_l (p a b : string) : p +:+ a = p +:+ b -> a = b.
Proof.
  induction p as [|x p IH]; [done|].
  change (String x (p +:+ a) = String x (p +:+ b) -> a = b).
  intros [= H]. by apply IH.
Qed.

(** the key of a bucket: two requests of one caller share a bucket only
    when their paths are equal, so every path has a budget of its own;
    and a user whose id is ["ip:"] followed by an address shares the
    bucket of the anonymous requests from that address *)
Theorem createKey_buckets (c1 c2 : Ctx) :
  (Locals c1 !! "user_id" = Locals c2 !! "user_id" -> IP (Req c1) = IP (Req c2) ->
   RateLimit.createKey c1 = RateLimit.createKey c2 -> ReqPath (Req c1) = ReqPath (Req c2)) /\
  (Locals c1 !! "user_id" = Some (LString ("ip:" +:+ IP (Req c2))) ->
   Locals c2 !! "user_id" = None -> ReqPath (Req c1) = ReqPath (Req c2) ->
   RateLimit.createKey c1 = RateLimit.createKey c2).
Proof.
  unfold RateLimit.createKey. split.
  - intros Hu Hip. rewrite Hu, Hip.
    destruct (Locals c2 !! "user_id") as [userID|]; intros H.
    + change ("ratelimit:" +:+ RateLimit.sprint userID +:+ ":" +:+ ReqPath (Req c1))
        with ("ratelimit:" +:+ (RateLimit.sprint userID +:+ (":" +:+ ReqPath (Req c1)))) in H.
      by do 3 apply append_inj_l in H.
    + by do 3 apply append_inj_l in H.
  - intros -> -> ->. reflexivity.
Qed.

End StageFacts.
